(** * Policy labeler: key codec, rule compiler, netmask learner and the
      two-tier (FirstPath / FastPath) lookup engine.

    Shallow embedding of [policy/policy_labeler.go].

    Conventions.
    - Go's unsigned integers are [Z] values; where the source converts or
      can overflow, the wrap-around is written out ([uint16], [uint32],
      [uint64], [shl32]).
    - A Go [map] that is only *ranged over* (the group and port sets of an
      [Acl]) is an association list: its order is the iteration order of
      the run being described.  A Go [map] that is looked up by key is a
      [gmap].
    - A Go array or slice indexed by tap type or queue index is a [list];
      an out-of-range index is a run-time panic in Go and [None] here. *)

From Stdlib Require Import ZArith Lia Bool Ascii String.
From stdpp Require Import base option list gmap strings.

Local Open Scope Z_scope.

(** ** Machine integers *)

Definition uint8 (x : Z) : Z := x mod 2 ^ 8.
Definition uint16 (x : Z) : Z := x mod 2 ^ 16.
Definition uint32 (x : Z) : Z := x mod 2 ^ 32.
Definition uint64 (x : Z) : Z := x mod 2 ^ 64.

Definition is_uint8 (x : Z) : Prop := 0 <= x < 2 ^ 8.
Definition is_uint16 (x : Z) : Prop := 0 <= x < 2 ^ 16.
Definition is_uint32 (x : Z) : Prop := 0 <= x < 2 ^ 32.

(** ** Constants of the package *)

Definition ANY_GROUP : Z := 0.
Definition ANY_PROTO : Z := 0.
Definition ANY_PORT : Z := 0.

Definition FAST_PATH_POLICY_MAP_SIZE_LIMIT : nat := 1024.
Definition FAST_PATH_EPC_MAP_SIZE_LIMIT : nat := 128.

(** [POLICY_TIMEOUT = 1 * time.Minute]; a [time.Duration] counts
    nanoseconds in an [int64]. *)
Definition POLICY_TIMEOUT : Z := 60 * 1000000000.

(** ** Key codec *)

Module Codec.

(** The mask [0xffffff0000000000] that resets the group bits of the
    running key. *)
Definition HIGH24 : Z := 0xffffff0000000000.
Definition GROUP_MASK : Z := 0xfffff.

(** [if len(groups) == 0 { groups = append(groups, ANY_GROUP) }] *)
Definition orAny (groups : list Z) : list Z :=
  if decide (length groups = 0%nat) then groups ++ [ANY_GROUP] else groups.

(** The nested loops shared by [generateGroupPortKeys] and
    [generateGroupVlanKeys]: the running [key] is or-ed with the two
    group ids, appended, and masked back with [HIGH24]. *)
Definition dstLoop (srcId : Z) (dstGroups : list Z) (st : list Z * Z) : list Z * Z :=
  fold_left
    (fun (st : list Z * Z) (dst : Z) =>
       let dstId := Z.land dst GROUP_MASK in
       let key := Z.lor (snd st) (Z.lor (Z.shiftl srcId 20) dstId) in
       (fst st ++ [key], Z.land key HIGH24))
    dstGroups st.

Definition srcLoop (srcGroups dstGroups : list Z) (st : list Z * Z) : list Z * Z :=
  fold_left
    (fun (st : list Z * Z) (src : Z) =>
       dstLoop (Z.land src GROUP_MASK) dstGroups st)
    srcGroups st.

Definition generateGroupPortKeys (srcGroups dstGroups : list Z) (port proto : Z) : list Z :=
  let key := Z.lor (Z.shiftl port 40) (Z.shiftl proto 56) in
  let srcGroups := orAny srcGroups in
  let dstGroups := orAny dstGroups in
  fst (srcLoop srcGroups dstGroups ([], key)).

Definition generateSearchPortKeys (srcGroups dstGroups : list Z) (port proto : Z) : list Z :=
  let keys := generateGroupPortKeys srcGroups dstGroups port proto in
  let keys :=
    if decide (port ≠ 0)
    then keys ++ generateGroupPortKeys srcGroups dstGroups ANY_PORT proto
    else keys in
  let keys :=
    if decide (proto ≠ 0)
    then keys ++ generateGroupPortKeys srcGroups dstGroups ANY_PORT ANY_PROTO
    else keys in
  let keys :=
    if decide (proto ≠ 0 ∧ port ≠ 0)
    then keys ++ generateGroupPortKeys srcGroups dstGroups port ANY_PROTO
    else keys in
  keys.

Definition generateGroupVlanKeys (srcGroups dstGroups : list Z) (vlan : Z) : list Z :=
  let key := Z.shiftl vlan 48 in
  let srcGroups := orAny srcGroups in
  let dstGroups := orAny dstGroups in
  fst (srcLoop srcGroups dstGroups ([], key)).

(** The packed keys the loops are meant to produce (the layout drawn in
    the comments of the two generators). *)
Definition portKey (proto port src dst : Z) : Z :=
  Z.lor (Z.lor (Z.shiftl port 40) (Z.shiftl proto 56))
        (Z.lor (Z.shiftl (Z.land src GROUP_MASK) 20) (Z.land dst GROUP_MASK)).

Definition vlanKey (vlan src dst : Z) : Z :=
  Z.lor (Z.shiftl vlan 48)
        (Z.lor (Z.shiftl (Z.land src GROUP_MASK) 20) (Z.land dst GROUP_MASK)).

Definition keysOver (head : Z) (srcGroups dstGroups : list Z) : list Z :=
  flat_map
    (fun src =>
       map (fun dst =>
              Z.lor head (Z.lor (Z.shiftl (Z.land src GROUP_MASK) 20)
                                (Z.land dst GROUP_MASK)))
           dstGroups)
    srcGroups.

End Codec.

(** ** Collaborating types of package [datatype] *)

(** The tap-type constants and [CheckTapType] are declared outside this
    file; they are taken as an interface.  [TapType] is an unsigned
    integer used as an array index. *)
Class TapTypes := {
  TAP_ANY : nat;
  TAP_MIN : nat;
  TAP_MAX : nat;
  CheckTapType : nat -> nat -> bool
}.

Inductive DirectionType := FORWARD | BACKWARD.

#[global] Instance DirectionType_eq_dec : EqDecision DirectionType.
Proof. solve_decision. Defined.

Definition swapDirection (d : DirectionType) : DirectionType :=
  match d with FORWARD => BACKWARD | BACKWARD => FORWARD end.

(** An action is opaque apart from its direction tag; an action that was
    never tagged carries [None]. *)
Record AclAction := mkAction {
  action_body : Z;
  action_dir : option DirectionType
}.

#[global] Instance AclAction_eq_dec : EqDecision AclAction.
Proof. solve_decision. Defined.

Record PolicyData := mkPolicy {
  ACLID : Z;
  AclActions : list AclAction
}.

#[global] Instance PolicyData_eq_dec : EqDecision PolicyData.
Proof. solve_decision. Defined.

(** [&PolicyData{}] *)
Definition newPolicyData : PolicyData := mkPolicy 0 [].

(** A [*PolicyData] result: the sentinel [INVALID_POLICY_DATA], compared
    by address in the source, or a policy built by the call. *)
Inductive PolicyRef :=
  | INVALID_POLICY_DATA
  | PolicyAt (p : PolicyData).

Definition SetDirections (dir : DirectionType) (a : AclAction) : AclAction :=
  mkAction (action_body a) (Some dir).

Definition ReverseDirection (a : AclAction) : AclAction :=
  mkAction (action_body a) (swapDirection <$> action_dir a).

(** Adding one action to an action set kept as a duplicate-free slice. *)
Definition unionAction (acc : list AclAction) (a : AclAction) : list AclAction :=
  if decide (a ∈ acc) then acc else acc ++ [a].

(** Modelled from the spec: [PolicyData.Merge] of package [datatype],
    which is not among the sources.  "Merge(actions, id) — union actions,
    direction-preserving.  Merge(actions, id, dir) — union actions while
    tagging each with direction."  The optional variadic direction is an
    [option]. *)
Definition Merge (d : PolicyData) (aclActions : list AclAction) (aclID : Z)
    (directions : option DirectionType) : PolicyData :=
  let tag := match directions with
             | Some dir => SetDirections dir
             | None => fun a => a
             end in
  mkPolicy aclID (fold_left (fun acc a => unionAction acc (tag a)) aclActions (AclActions d)).

(** Modelled from the spec: [PolicyData.MergeAndSwapDirection] of package
    [datatype]: "MergeAndSwapDirection flips direction tags". *)
Definition MergeAndSwapDirection (d : PolicyData) (aclActions : list AclAction)
    (aclID : Z) : PolicyData :=
  mkPolicy aclID
    (fold_left (fun acc a => unionAction acc (ReverseDirection a)) aclActions (AclActions d)).

Record EndpointInfo := mkEndpointInfo {
  GroupIds : list Z;
  L2EpcId : Z;   (* int32 *)
  L3EpcId : Z    (* int32 *)
}.

Record EndpointData := mkEndpointData {
  SrcInfo : EndpointInfo;
  DstInfo : EndpointInfo
}.

(** [endpoint.SrcInfo, endpoint.DstInfo = endpoint.DstInfo, endpoint.SrcInfo] *)
Definition swapEndpoint (e : EndpointData) : EndpointData :=
  mkEndpointData (DstInfo e) (SrcInfo e).

Module LookupKey.
Record t := mk {
  Timestamp : Z;          (* time.Duration, int64 *)
  SrcMac : Z; DstMac : Z; (* uint64 *)
  SrcIp : Z; DstIp : Z;   (* uint32 *)
  SrcPort : Z; DstPort : Z; (* uint16 *)
  Vlan : Z;               (* uint16 *)
  Proto : Z;              (* uint8 *)
  Tap : nat;              (* TapType *)
  SrcGroupIds : list Z;
  DstGroupIds : list Z;
  FastIndex : nat
}.
End LookupKey.

(** The policy labeler reads [network.Ip] (a [uint32]) and
    [network.Netmask] of an [IpNet]. *)
Record IpNet := mkIpNet {
  Ip : Z;
  Netmask : Z;
  SubnetId : Z
}.

Record PlatformData := mkPlatformData {
  Mac : Z;
  Ips : list IpNet;
  EpcId : Z;
  IfType : Z
}.

Module IpGroupData.
Record t := mk {
  Id : Z;
  EpcId : Z;
  Ips : list string
}.
End IpGroupData.

(** ** ACLs and the rule compiler *)

Record Acl := mkAcl {
  Id : Z;
  Type' : nat;
  TapId : Z;
  SrcGroups : list (Z * Z);
  DstGroups : list (Z * Z);
  DstPorts : list (Z * Z);
  Proto : Z;    (* uint8 *)
  Vlan : Z;     (* uint32 *)
  Action : list AclAction
}.

(** Go's [len] *)
Definition len {A : Type} (l : list A) : Z := Z.of_nat (length l).

Definition mapToSlice (m : list (Z * Z)) : list Z :=
  fold_left (fun out kv => if decide (snd kv > 0) then out ++ [snd kv] else out) m [].

Definition generateGroupPortsKeys (acl : Acl) (direction : DirectionType) : list Z :=
  let src := SrcGroups acl in
  let dst := DstGroups acl in
  let '(src, dst) := if decide (direction = BACKWARD) then (dst, src) else (src, dst) in
  if (0xffff <=? len (DstPorts acl)) || (len (DstPorts acl) =? 0)
  then Codec.generateGroupPortKeys (mapToSlice src) (mapToSlice dst) ANY_PORT (Proto acl)
  else fold_left
         (fun keys kv =>
            keys ++ Codec.generateGroupPortKeys (mapToSlice src) (mapToSlice dst)
                                                (snd kv) (Proto acl))
         (DstPorts acl) [].

(** A per-tap array of Go maps, [[TAP_MAX]map[K]V].  A slot that was never
    [make]d holds the nil map [None]: reading it finds nothing, writing
    it panics. *)
Definition TapMaps (V : Type) : Type := list (option (gmap Z V)).

(** [for i := TAP_MIN; i < TAP_MAX; i++ { maps[i] = make(...) }] over a
    zeroed array of [TAP_MAX] slots. *)
Definition makeTapMaps `{TapTypes} (V : Type) : TapMaps V :=
  map (fun i : nat => if decide (TAP_MIN <= i)%nat then Some (∅ : gmap Z V) else None)
      (seq 0 TAP_MAX).

(** [maps[tap]] as an r-value; [None] is the index panic. *)
Definition tapMap {V : Type} (maps : TapMaps V) (tap : nat) : option (gmap Z V) :=
  match maps !! tap with
  | Some (Some m) => Some m
  | Some None => Some ∅
  | None => None
  end.

(** Running a loop body that stores into [maps[tap]] for each of [items];
    [None] is a panic (index out of range, or assignment to an entry of
    the nil map). *)
Definition tapMapStores {V A : Type} (maps : TapMaps V) (tap : nat)
    (store : gmap Z V -> A -> gmap Z V) (items : list A) : option (TapMaps V) :=
  match maps !! tap with
  | Some (Some m) => Some (<[tap := Some (fold_left store items m)]> maps)
  | Some None => if decide (items = []) then Some maps else None
  | None => None
  end.

(** [if policy := m[key]; policy == nil { new, Merge, store } else
    { policy.Merge(...) }] *)
Definition mergeAt (acl : Acl) (directions : option DirectionType)
    (m : gmap Z PolicyData) (key : Z) : gmap Z PolicyData :=
  match m !! key with
  | None => <[key := Merge newPolicyData (Action acl) (Id acl) directions]> m
  | Some policy => <[key := Merge policy (Action acl) (Id acl) directions]> m
  end.

(** Folding a fallible loop body over a slice. *)
Definition foldM {S A : Type} (body : S -> A -> option S) (items : list A) (s : S) : option S :=
  fold_left (fun (os : option S) (a : A) => s ← os; body s a) items (Some s).

Definition GenerateGroupPortMaps `{TapTypes} (acls : list Acl) : option (TapMaps PolicyData) :=
  foldM
    (fun portMaps acl =>
       if CheckTapType (Type' acl) (Type' acl) && bool_decide (Vlan acl = 0)
       then tapMapStores portMaps (Type' acl) (mergeAt acl None)
                         (generateGroupPortsKeys acl FORWARD)
       else Some portMaps)
    acls (makeTapMaps PolicyData).

(** The two key lists compiled for one vlan ACL: [uint16(acl.Vlan)] is
    the conversion the source applies at both call sites. *)
Definition aclVlanKeys (acl : Acl) (direction : DirectionType) : list Z :=
  match direction with
  | FORWARD =>
      Codec.generateGroupVlanKeys (mapToSlice (SrcGroups acl)) (mapToSlice (DstGroups acl))
                                  (uint16 (Vlan acl))
  | BACKWARD =>
      Codec.generateGroupVlanKeys (mapToSlice (DstGroups acl)) (mapToSlice (SrcGroups acl))
                                  (uint16 (Vlan acl))
  end.

Definition GenerateGroupVlanMaps `{TapTypes} (acls : list Acl) : option (TapMaps PolicyData) :=
  foldM
    (fun vlanMaps acl =>
       if CheckTapType (Type' acl) (Type' acl) && bool_decide (Vlan acl > 0)
       then
         vlanMaps ← tapMapStores vlanMaps (Type' acl) (mergeAt acl (Some FORWARD))
                                 (aclVlanKeys acl FORWARD);
         tapMapStores vlanMaps (Type' acl) (mergeAt acl (Some BACKWARD))
                      (aclVlanKeys acl BACKWARD)
       else Some vlanMaps)
    acls (makeTapMaps PolicyData).

Record InterestMaps := mkInterest {
  interestProto : TapMaps bool;
  interestPort : TapMaps bool;
  interestGroup : TapMaps bool
}.

Definition setTrue (m : gmap Z bool) (k : Z) : gmap Z bool := <[k := true]> m.

Definition GenerateInterestMaps `{TapTypes} (acls : list Acl) : option InterestMaps :=
  foldM
    (fun im acl =>
       if CheckTapType (Type' acl) (Type' acl)
       then
         protos ← tapMapStores (interestProto im) (Type' acl) setTrue [Proto acl];
         (* [portMap := interestPortMaps[acl.Type]] only indexes the array *)
         _ ← tapMap (interestPort im) (Type' acl);
         ports ← (if len (DstPorts acl) <? 0xffff
                  then tapMapStores (interestPort im) (Type' acl) setTrue
                                    (map snd (DstPorts acl))
                  else Some (interestPort im));
         groups ← tapMapStores (interestGroup im) (Type' acl) setTrue
                               (map snd (DstGroups acl));
         groups ← tapMapStores groups (Type' acl) setTrue (map snd (SrcGroups acl));
         Some (mkInterest protos ports groups)
       else Some im)
    acls (mkInterest (makeTapMaps bool) (makeTapMaps bool) (makeTapMaps bool)).

(** The expansion loop at the head of [UpdateAcls]. *)
Definition expandAcls `{TapTypes} (acls : list Acl) : list Acl :=
  fold_left
    (fun generateAcls acl =>
       if decide (Type' acl = TAP_ANY)
       then generateAcls ++
            map (fun i => mkAcl (Id acl) i (TapId acl) (SrcGroups acl) (DstGroups acl)
                                (DstPorts acl) (Proto acl) (Vlan acl) (Action acl))
                (seq TAP_MIN (TAP_MAX - TAP_MIN))
       else generateAcls ++ [acl])
    acls [].

(** ** Netmask learner *)

(** [m[k]] on a [map[uint32]uint32]: the zero value when absent. *)
Definition maskOf (m : gmap Z Z) (k : Z) : Z := default 0 (m !! k).

(** [uint32(x) << s] for an unsigned shift count: zero once the count
    reaches the width. *)
Definition shl32 (x s : Z) : Z :=
  if 32 <=? s then 0 else uint32 (Z.shiftl x s).

Definition MaxUint32 : Z := 0xffffffff.
Definition NET16 : Z := 0xffff0000.

(** [if maskMap[netIp] < mask { maskMap[netIp] = mask }] *)
Definition raiseMask (maskMap : gmap Z Z) (netIp mask : Z) : gmap Z Z :=
  if maskOf maskMap netIp <? mask then <[netIp := mask]> maskMap else maskMap.

Definition makeIpNetmaskMap (IpNetmaskMap : gmap Z Z) : gmap Z Z :=
  map_fold (fun netIp mask maskMap => raiseMask maskMap netIp mask) ∅ IpNetmaskMap.

(** Body of the first loop of [GenerateIpNetmaskMap]. *)
Definition seedNetwork (maskMap : gmap Z Z) (network : IpNet) : gmap Z Z :=
  let netIp := Z.land (Ip network) NET16 in
  let mask := shl32 MaxUint32 (uint32 (32 - Netmask network)) in
  if (NET16 <=? mask) && (maskOf maskMap netIp <? mask)
  then <[netIp := mask]> maskMap
  else maskMap.

(** Body of the second loop of [GenerateIpNetmaskMap]. *)
Definition refineNetwork (maskMap : gmap Z Z) (network : IpNet) : gmap Z Z :=
  let mask := maskOf maskMap (Z.land (Ip network) NET16) in
  let netIp := Z.land (Ip network) mask in
  raiseMask maskMap netIp mask.

Definition GenerateIpNetmaskMap (IpNetmaskMap : gmap Z Z) (platforms : list PlatformData)
    : gmap Z Z :=
  let maskMap := makeIpNetmaskMap IpNetmaskMap in
  let maskMap :=
    fold_left (fun mm platform => fold_left seedNetwork (Ips platform) mm)
              platforms maskMap in
  let maskMap :=
    fold_left (fun mm platform => fold_left refineNetwork (Ips platform) mm)
              platforms maskMap in
  maskMap.

(** *** Text helpers of Go's standard library, for decimal CIDR text *)

(** [strings.Split(raw, "/")] *)
Fixpoint splitSlash (raw : string) : list string :=
  match raw with
  | EmptyString => [EmptyString]
  | String c rest =>
      if Ascii.eqb c "/"%char
      then EmptyString :: splitSlash rest
      else match splitSlash rest with
           | part :: parts => String c part :: parts
           | [] => [String c EmptyString]
           end
  end.

Definition digitOf (c : ascii) : option Z :=
  let n := Z.of_nat (nat_of_ascii c) in
  if (48 <=? n) && (n <=? 57) then Some (n - 48) else None.

Fixpoint digitsOf (s : string) (acc : Z) : option Z :=
  match s with
  | EmptyString => Some acc
  | String c rest =>
      match digitOf c with
      | Some d => digitsOf rest (10 * acc + d)
      | None => None
      end
  end.

(** [strconv.Atoi]: an optional sign, then one or more decimal digits,
    the value within [int]; [None] is a non-nil [err]. *)
Definition Atoi (s : string) : option Z :=
  let '(neg, body) :=
    match s with
    | String "-"%char rest => (true, rest)
    | String "+"%char rest => (false, rest)
    | _ => (false, s)
    end in
  match body with
  | EmptyString => None
  | _ =>
      match digitsOf body 0 with
      | Some n =>
          let v := if neg : bool then - n else n in
          if (- 2 ^ 63 <=? v) && (v <? 2 ^ 63) then Some v else None
      | None => None
      end
  end.

(** [net.ParseIP] and [IpToUint32] are declared outside this file.  An
    [IP] is a byte slice; the nil slice that [ParseIP] returns on failure
    is the empty list. *)
Class NetText := {
  ParseIP : string -> list Z;
  IpToUint32 : list Z -> Z
}.

(** Body of the first inner loop of [GenerateIpNetmaskMapFromIpResource];
    each [continue] leaves the map as it is. *)
Definition seedRaw `{NetText} (maskMap : gmap Z Z) (raw : string) : gmap Z Z :=
  match splitSlash raw with
  | [part0; part1] =>
      let ip := ParseIP part0 in
      match Atoi part1 with
      | None => maskMap
      | Some maskSize =>
          let mask := shl32 MaxUint32 (uint32 (32 - maskSize)) in
          let netIp := Z.land (IpToUint32 ip) NET16 in
          if (NET16 <=? mask) && (maskOf maskMap netIp <? mask)
          then <[netIp := mask]> maskMap
          else maskMap
      end
  | _ => maskMap
  end.

(** Body of the second inner loop. *)
Definition refineRaw `{NetText} (maskMap : gmap Z Z) (raw : string) : gmap Z Z :=
  match splitSlash raw with
  | [part0; _] =>
      let ip := IpToUint32 (ParseIP part0) in
      let mask := maskOf maskMap (Z.land ip NET16) in
      let netIp := Z.land ip mask in
      raiseMask maskMap netIp mask
  | _ => maskMap
  end.

Definition GenerateIpNetmaskMapFromIpResource `{NetText} (IpNetmaskMap : gmap Z Z)
    (datas : list IpGroupData.t) : gmap Z Z :=
  let maskMap := makeIpNetmaskMap IpNetmaskMap in
  fold_left
    (fun mm data =>
       let mm := fold_left seedRaw (IpGroupData.Ips data) mm in
       fold_left refineRaw (IpGroupData.Ips data) mm)
    datas maskMap.

(** A call of either learner, and the table after a history of calls
    starting from the empty table of [NewPolicyLabel]. *)
Inductive LearnCall :=
  | FromPlatforms (platforms : list PlatformData)
  | FromIpResource (datas : list IpGroupData.t).

Definition learn `{NetText} (IpNetmaskMap : gmap Z Z) (c : LearnCall) : gmap Z Z :=
  match c with
  | FromPlatforms platforms => GenerateIpNetmaskMap IpNetmaskMap platforms
  | FromIpResource datas => GenerateIpNetmaskMapFromIpResource IpNetmaskMap datas
  end.

Definition learnAll `{NetText} (history : list LearnCall) : gmap Z Z :=
  fold_left learn history ∅.

(** Modelled from the spec: dotted-quad text and its 32-bit value, the
    reading of [net.ParseIP] and [IpToUint32] that scenario 5 of the spec
    relies on ("10.0.0.0/24" learns bucket [0x0A000000]).  Used only to
    run the learner on concrete text. *)
Fixpoint splitDot (s : string) : list string :=
  match s with
  | EmptyString => [EmptyString]
  | String c rest =>
      if Ascii.eqb c "."%char
      then EmptyString :: splitDot rest
      else match splitDot rest with
           | part :: parts => String c part :: parts
           | [] => [String c EmptyString]
           end
  end.

Definition octetOf (s : string) : option Z :=
  match s with
  | EmptyString => None
  | _ => n ← digitsOf s 0; if n <=? 255 then Some n else None
  end.

Definition dottedQuad (s : string) : list Z :=
  match splitDot s with
  | [a; b; c; d] =>
      match octetOf a, octetOf b, octetOf c, octetOf d with
      | Some a, Some b, Some c, Some d => [a; b; c; d]
      | _, _, _, _ => []
      end
  | _ => []
  end.

Definition quadToUint32 (ip : list Z) : Z :=
  match ip with
  | [a; b; c; d] =>
      Z.lor (Z.lor (Z.shiftl a 24) (Z.shiftl b 16)) (Z.lor (Z.shiftl c 8) d)
  | _ => 0
  end.

Definition dottedQuadText : NetText :=
  {| ParseIP := dottedQuad; IpToUint32 := quadToUint32 |}.

(** ** The LRU primitive *)

(** Modelled from the spec: the bounded LRU cache ("a generic bounded LRU
    suffices"), an external component that is not among the sources.  The
    list holds the entries from most to least recently used; a capacity
    of zero means no limit.  [Get] of a present key moves it to the
    front; [Add] of a new key pushes it to the front and then drops the
    oldest entry when the capacity is exceeded. *)
Module lru.
Section Cache.
Context {V : Type}.

Record Cache := mk { MaxEntries : nat; ll : list (Z * V) }.

Definition New (maxEntries : nat) : Cache := mk maxEntries [].

Fixpoint assoc (key : Z) (l : list (Z * V)) : option V :=
  match l with
  | [] => None
  | (k, v) :: rest => if decide (k = key) then Some v else assoc key rest
  end.

Definition without (key : Z) (l : list (Z * V)) : list (Z * V) :=
  filter (fun e => fst e ≠ key) l.

(** The value part of [Get]. *)
Definition peek (c : Cache) (key : Z) : option V := assoc key (ll c).

(** The effect of [Get] on the recency order. *)
Definition touch (c : Cache) (key : Z) : Cache :=
  match assoc key (ll c) with
  | Some v => mk (MaxEntries c) ((key, v) :: without key (ll c))
  | None => c
  end.

Definition Get (c : Cache) (key : Z) : option V * Cache := (peek c key, touch c key).

Definition RemoveOldest (c : Cache) : Cache := mk (MaxEntries c) (removelast (ll c)).

Definition Add (c : Cache) (key : Z) (value : V) : Cache :=
  match assoc key (ll c) with
  | Some _ => mk (MaxEntries c) ((key, value) :: without key (ll c))
  | None =>
      let c' := mk (MaxEntries c) ((key, value) :: ll c) in
      if decide (MaxEntries c ≠ 0%nat ∧ (MaxEntries c < length (ll c'))%nat)
      then RemoveOldest c'
      else c'
  end.

Definition Remove (c : Cache) (key : Z) : Cache := mk (MaxEntries c) (without key (ll c)).

Definition Clear (c : Cache) : Cache := mk (MaxEntries c) [].

Definition Len (c : Cache) : nat := length (ll c).

(** A store through the pointer that the entry of [key] holds: the value
    changes where it is, the recency order does not. *)
Definition poke (c : Cache) (key : Z) (value : V) : Cache :=
  mk (MaxEntries c)
     (map (fun e => if decide (fst e = key) then (key, value) else e) (ll c)).

End Cache.
Arguments Cache : clear implicits.
End lru.

(** ** The classifier state *)

Record FastPathMapValue := mkValue {
  endpoint : EndpointData;
  policy : PolicyData;
  timestamp : Z   (* time.Duration, int64 *)
}.

Record VlanAndPortMap := mkMaps {
  macEpcMap : lru.Cache Z;
  vlanPolicyMap : lru.Cache FastPathMapValue;
  portPolicyMap : lru.Cache FastPathMapValue
}.

Record PolicyLabel := mkLabel {
  RawAcls : list Acl;
  InterestProtoMaps : TapMaps bool;
  InterestPortMaps : TapMaps bool;
  InterestGroupMaps : TapMaps bool;
  IpNetmaskMap : gmap Z Z;
  (** [[][]*lru.Cache]: a nil pointer is [None] *)
  FastPolicyMaps : list (list (option (lru.Cache VlanAndPortMap)));
  FastPathDisable : bool;
  MapSize : nat;
  GroupPortPolicyMaps : TapMaps PolicyData;
  GroupVlanPolicyMaps : TapMaps PolicyData;
  FirstPathHit : Z; FastPathHit : Z;
  FirstPathHitTick : Z; FastPathHitTick : Z;
  AclHitMax : Z
}.

Definition setFastPolicyMaps (l : PolicyLabel)
    (fast : list (list (option (lru.Cache VlanAndPortMap)))) : PolicyLabel :=
  mkLabel (RawAcls l) (InterestProtoMaps l) (InterestPortMaps l) (InterestGroupMaps l)
          (IpNetmaskMap l) fast (FastPathDisable l) (MapSize l)
          (GroupPortPolicyMaps l) (GroupVlanPolicyMaps l)
          (FirstPathHit l) (FastPathHit l) (FirstPathHitTick l) (FastPathHitTick l)
          (AclHitMax l).

Definition setIpNetmaskMap (l : PolicyLabel) (m : gmap Z Z) : PolicyLabel :=
  mkLabel (RawAcls l) (InterestProtoMaps l) (InterestPortMaps l) (InterestGroupMaps l)
          m (FastPolicyMaps l) (FastPathDisable l) (MapSize l)
          (GroupPortPolicyMaps l) (GroupVlanPolicyMaps l)
          (FirstPathHit l) (FastPathHit l) (FirstPathHitTick l) (FastPathHitTick l)
          (AclHitMax l).

(** [atomic.AddUint64(&l.FirstPathHit, 1); atomic.AddUint64(&l.FirstPathHitTick, 1)] *)
Definition bumpFirstPath (l : PolicyLabel) : PolicyLabel :=
  mkLabel (RawAcls l) (InterestProtoMaps l) (InterestPortMaps l) (InterestGroupMaps l)
          (IpNetmaskMap l) (FastPolicyMaps l) (FastPathDisable l) (MapSize l)
          (GroupPortPolicyMaps l) (GroupVlanPolicyMaps l)
          (uint64 (FirstPathHit l + 1)) (FastPathHit l)
          (uint64 (FirstPathHitTick l + 1)) (FastPathHitTick l)
          (AclHitMax l).

(** The two [atomic.AddUint64] on the fast-path counters and the
    load-then-compare-and-swap of [AclHitMax]. *)
Definition bumpFastPath (l : PolicyLabel) (aclLen : Z) : PolicyLabel :=
  mkLabel (RawAcls l) (InterestProtoMaps l) (InterestPortMaps l) (InterestGroupMaps l)
          (IpNetmaskMap l) (FastPolicyMaps l) (FastPathDisable l) (MapSize l)
          (GroupPortPolicyMaps l) (GroupVlanPolicyMaps l)
          (FirstPathHit l) (uint64 (FastPathHit l + 1))
          (FirstPathHitTick l) (uint64 (FastPathHitTick l + 1))
          (if AclHitMax l <? aclLen then aclLen else AclHitMax l).

Definition newFastRow `{TapTypes} (mapSize : nat) : list (option (lru.Cache VlanAndPortMap)) :=
  map (fun j : nat => if decide (TAP_MIN <= j)%nat then Some (lru.New mapSize) else None)
      (seq 0 TAP_MAX).

Definition NewPolicyLabel `{TapTypes} (queueCount : nat) (mapSize : nat)
    (fastPathDisable : bool) : PolicyLabel :=
  mkLabel [] (makeTapMaps bool) (makeTapMaps bool) (makeTapMaps bool)
          ∅ (replicate queueCount (newFastRow mapSize)) fastPathDisable mapSize
          (makeTapMaps PolicyData) (makeTapMaps PolicyData)
          0 0 0 0 0.

(** ** Coordinator *)

Definition UpdateAcls `{TapTypes} (l : PolicyLabel) (acls : list Acl) : option PolicyLabel :=
  let generateAcls := expandAcls acls in
  portMaps ← GenerateGroupPortMaps generateAcls;
  vlanMaps ← GenerateGroupVlanMaps generateAcls;
  interest ← GenerateInterestMaps generateAcls;
  Some (mkLabel acls (interestProto interest) (interestPort interest)
                (interestGroup interest)
                (IpNetmaskMap l) (FastPolicyMaps l) (FastPathDisable l) (MapSize l)
                portMaps vlanMaps
                (FirstPathHit l) (FastPathHit l) (FirstPathHitTick l)
                (FastPathHitTick l) (AclHitMax l)).

(** The inner loop of [FlushAcls] over one row: [Clear] needs a non-nil
    cache and [row[j]] an index within the row. *)
Definition flushRow `{TapTypes} (mapSize : nat)
    (row : list (option (lru.Cache VlanAndPortMap)))
    : option (list (option (lru.Cache VlanAndPortMap))) :=
  foldM
    (fun row j =>
       match row !! j with
       | Some (Some c) =>
           let _ := lru.Clear c in
           Some (<[j := Some (lru.New mapSize)]> row)
       | _ => None
       end)
    (seq TAP_MIN (TAP_MAX - TAP_MIN)) row.

Definition FlushAcls `{TapTypes} (l : PolicyLabel) : option PolicyLabel :=
  fast ← mapM (flushRow (MapSize l)) (FastPolicyMaps l);
  Some (setFastPolicyMaps l fast).

Definition AddAcl `{TapTypes} (l : PolicyLabel) (acl : Acl) : option PolicyLabel :=
  let acls := RawAcls l ++ [acl] in
  l ← UpdateAcls l acls;
  FlushAcls l.

(** ** Interest filter *)

(** [m[k]] on a [map[K]bool] *)
Definition interested (m : gmap Z bool) (k : Z) : bool := default false (m !! k).

Definition setPorts (packet : LookupKey.t) (srcPort dstPort proto : Z) : LookupKey.t :=
  LookupKey.mk (LookupKey.Timestamp packet) (LookupKey.SrcMac packet)
    (LookupKey.DstMac packet) (LookupKey.SrcIp packet) (LookupKey.DstIp packet)
    srcPort dstPort (LookupKey.Vlan packet) proto (LookupKey.Tap packet)
    (LookupKey.SrcGroupIds packet) (LookupKey.DstGroupIds packet)
    (LookupKey.FastIndex packet).

Definition setGroupIds (packet : LookupKey.t) (src dst : list Z) : LookupKey.t :=
  LookupKey.mk (LookupKey.Timestamp packet) (LookupKey.SrcMac packet)
    (LookupKey.DstMac packet) (LookupKey.SrcIp packet) (LookupKey.DstIp packet)
    (LookupKey.SrcPort packet) (LookupKey.DstPort packet) (LookupKey.Vlan packet)
    (LookupKey.Proto packet) (LookupKey.Tap packet) src dst
    (LookupKey.FastIndex packet).

Definition getFastInterestKeys (l : PolicyLabel) (packet : LookupKey.t)
    : option LookupKey.t :=
  ports ← tapMap (InterestPortMaps l) (LookupKey.Tap packet);
  protos ← tapMap (InterestProtoMaps l) (LookupKey.Tap packet);
  let srcPort := if interested ports (LookupKey.SrcPort packet)
                 then LookupKey.SrcPort packet else ANY_PORT in
  let dstPort := if interested ports (LookupKey.DstPort packet)
                 then LookupKey.DstPort packet else ANY_PORT in
  let proto := if interested protos (LookupKey.Proto packet)
               then LookupKey.Proto packet else ANY_PROTO in
  Some (setPorts packet srcPort dstPort proto).

(** One of the two group loops of [generateInterestKeys], with the
    wildcard appended after it. *)
Definition interestGroups (groupMap : gmap Z bool) (ids : list Z) (out : list Z) : list Z :=
  let st :=
    fold_left
      (fun (st : list Z * bool) id =>
         if interested groupMap id
         then (fst st ++ [id], if decide (id = ANY_GROUP) then true else snd st)
         else st)
      ids (out, false) in
  if snd st then fst st else fst st ++ [ANY_GROUP].

Definition generateInterestKeys (l : PolicyLabel) (endpointData : EndpointData)
    (packet : LookupKey.t) : option LookupKey.t :=
  groupMap ← tapMap (InterestGroupMaps l) (LookupKey.Tap packet);
  let src := interestGroups groupMap (GroupIds (SrcInfo endpointData))
                            (LookupKey.SrcGroupIds packet) in
  let dst := interestGroups groupMap (GroupIds (DstInfo endpointData))
                            (LookupKey.DstGroupIds packet) in
  getFastInterestKeys l (setGroupIds packet src dst).

(** ** Fast-path cache *)

(** [l.FastPolicyMaps[packet.FastIndex][packet.Tap]], dereferenced: an
    index out of range or a nil cache is a panic. *)
Definition fastCache (l : PolicyLabel) (packet : LookupKey.t)
    : option (lru.Cache VlanAndPortMap) :=
  row ← FastPolicyMaps l !! LookupKey.FastIndex packet;
  slot ← row !! LookupKey.Tap packet;
  slot.

Definition setFastCache (l : PolicyLabel) (packet : LookupKey.t)
    (c : lru.Cache VlanAndPortMap) : PolicyLabel :=
  setFastPolicyMaps l
    (alter (fun row => <[LookupKey.Tap packet := Some c]> row)
           (LookupKey.FastIndex packet) (FastPolicyMaps l)).

(** The subnet-pair key computed at the head of [getVlanAndPortMap]. *)
Definition subnetKey (l : PolicyLabel) (packet : LookupKey.t) (direction : DirectionType) : Z :=
  let maskSrc := maskOf (IpNetmaskMap l) (Z.land (LookupKey.SrcIp packet) NET16) in
  let maskSrc := if maskSrc <? NET16 then NET16 else maskSrc in
  let maskDst := maskOf (IpNetmaskMap l) (Z.land (LookupKey.DstIp packet) NET16) in
  let maskDst := if maskDst <? NET16 then NET16 else maskDst in
  let maskedSrcIp := Z.land (LookupKey.SrcIp packet) maskSrc in
  let maskedDstIp := Z.land (LookupKey.DstIp packet) maskDst in
  let '(maskedSrcIp, maskedDstIp) :=
    if decide (direction = BACKWARD) then (maskedDstIp, maskedSrcIp)
    else (maskedSrcIp, maskedDstIp) in
  Z.lor (Z.shiftl maskedDstIp 32) maskedSrcIp.

Definition newVlanAndPortMap : VlanAndPortMap :=
  mkMaps (lru.New FAST_PATH_EPC_MAP_SIZE_LIMIT)
         (lru.New FAST_PATH_POLICY_MAP_SIZE_LIMIT)
         (lru.New FAST_PATH_POLICY_MAP_SIZE_LIMIT).

(** Returns the map the pointer refers to ([None] for the nil pointer)
    and the classifier after the [Get] or [Add] on the outer cache. *)
Definition getVlanAndPortMap (l : PolicyLabel) (packet : LookupKey.t)
    (direction : DirectionType) (create : bool)
    : option (option VlanAndPortMap * PolicyLabel) :=
  c ← fastCache l packet;
  let key := subnetKey l packet direction in
  match lru.Get c key with
  | (Some maps, c) => Some (Some maps, setFastCache l packet c)
  | (None, _) =>
      if create
      then let value := newVlanAndPortMap in
           Some (Some value, setFastCache l packet (lru.Add c key value))
      else Some (None, l)
  end.

(** The [*VlanAndPortMap] obtained from [getVlanAndPortMap] points into
    the outer cache; the stores made through it reach the entry of the
    subnet key. *)
Definition storeMaps (l : PolicyLabel) (packet : LookupKey.t)
    (direction : DirectionType) (maps : VlanAndPortMap) : PolicyLabel :=
  match fastCache l packet with
  | Some c => setFastCache l packet (lru.poke c (subnetKey l packet direction) maps)
  | None => l
  end.

(** The EPC id chosen by [addEpcMap]; the conversions [uint32(int32)]
    are written out. *)
Definition epcId (endpointInfo : EndpointInfo) : Z :=
  if L2EpcId endpointInfo >? 0 then uint32 (L2EpcId endpointInfo)
  else if L2EpcId endpointInfo =? 0 then
    if L3EpcId endpointInfo >? 0 then uint32 (L3EpcId endpointInfo)
    else if L3EpcId endpointInfo =? -1 then 0xffffffff
    else ANY_GROUP
  else ANY_GROUP.

Definition addEpcMap (maps : VlanAndPortMap) (endpointInfo : EndpointInfo) (mac : Z)
    : Z * VlanAndPortMap :=
  let id := epcId endpointInfo in
  (id, mkMaps (lru.Add (macEpcMap maps) mac id) (vlanPolicyMap maps) (portPolicyMap maps)).

Definition fastVlanKey (vlan first second : Z) : Z :=
  Z.lor (Z.lor vlan (uint64 (Z.shiftl first 32))) (uint64 (Z.shiftl second 12)).

Definition fastPortKey (srcEpc dstEpc proto port : Z) : Z :=
  Z.lor (Z.lor (Z.lor (uint64 (Z.shiftl srcEpc 44)) (uint64 (Z.shiftl dstEpc 24)))
               (Z.shiftl proto 16))
        port.

Definition addVlanFastPolicy (l : PolicyLabel) (endpointData : EndpointData)
    (packet : LookupKey.t) (policy : PolicyData) : option PolicyLabel :=
  '(omaps, l) ← getVlanAndPortMap l packet FORWARD true;
  maps ← omaps;
  let '(srcEpc, maps) := addEpcMap maps (SrcInfo endpointData) (LookupKey.SrcMac packet) in
  let '(dstEpc, maps) := addEpcMap maps (DstInfo endpointData) (LookupKey.DstMac packet) in
  let key := fastVlanKey (LookupKey.Vlan packet) srcEpc dstEpc in
  let forward := Merge newPolicyData (AclActions policy) (ACLID policy) None in
  let valueForward := mkValue endpointData forward (LookupKey.Timestamp packet) in
  let maps := mkMaps (macEpcMap maps) (lru.Add (vlanPolicyMap maps) key valueForward)
                     (portPolicyMap maps) in
  let l := storeMaps l packet FORWARD maps in
  '(omaps, l) ← getVlanAndPortMap l packet BACKWARD true;
  maps ← omaps;
  let '(srcEpc, maps) := addEpcMap maps (SrcInfo endpointData) (LookupKey.SrcMac packet) in
  let '(dstEpc, maps) := addEpcMap maps (DstInfo endpointData) (LookupKey.DstMac packet) in
  let key := fastVlanKey (LookupKey.Vlan packet) dstEpc srcEpc in
  let backward := MergeAndSwapDirection newPolicyData (AclActions policy) (ACLID policy) in
  let valueBackward :=
    mkValue (swapEndpoint endpointData) backward (LookupKey.Timestamp packet) in
  let maps := mkMaps (macEpcMap maps) (lru.Add (vlanPolicyMap maps) key valueBackward)
                     (portPolicyMap maps) in
  Some (storeMaps l packet BACKWARD maps).

Definition addPortFastPolicy (l : PolicyLabel) (endpointData : EndpointData)
    (packet : LookupKey.t) (policy : PolicyData) (direction : DirectionType)
    : option PolicyLabel :=
  '(omaps, l) ← getVlanAndPortMap l packet direction true;
  maps ← omaps;
  let '(srcEpc, maps) := addEpcMap maps (SrcInfo endpointData) (LookupKey.SrcMac packet) in
  let '(dstEpc, maps) := addEpcMap maps (DstInfo endpointData) (LookupKey.DstMac packet) in
  let '(srcEpc, dstEpc, port) :=
    if decide (direction = BACKWARD)
    then (dstEpc, srcEpc, LookupKey.SrcPort packet)
    else (srcEpc, dstEpc, LookupKey.DstPort packet) in
  let key := fastPortKey srcEpc dstEpc (LookupKey.Proto packet) port in
  let forward := Merge newPolicyData (AclActions policy) (ACLID policy) None in
  let value :=
    mkValue (if decide (direction = BACKWARD) then swapEndpoint endpointData
             else endpointData)
            forward (LookupKey.Timestamp packet) in
  let maps := mkMaps (macEpcMap maps) (vlanPolicyMap maps)
                     (lru.Add (portPolicyMap maps) key value) in
  Some (storeMaps l packet direction maps).

(** [a - b] on [int64] *)
Definition sub64 (a b : Z) : Z := (a - b + 2 ^ 63) mod 2 ^ 64 - 2 ^ 63.

(** [value.timestamp < packet.Timestamp &&
     packet.Timestamp-value.timestamp > POLICY_TIMEOUT] *)
Definition stale (value : FastPathMapValue) (packet : LookupKey.t) : bool :=
  (timestamp value <? LookupKey.Timestamp packet)
  && (sub64 (LookupKey.Timestamp packet) (timestamp value) >? POLICY_TIMEOUT).

Definition refresh (value : FastPathMapValue) (packet : LookupKey.t) : FastPathMapValue :=
  mkValue (endpoint value) (policy value) (LookupKey.Timestamp packet).

(** The result of a sub-lookup: the endpoint pointer ([None] is nil), the
    sub-maps after the lookup and the caller's policy after the merge. *)
Definition SubLookup : Type := option EndpointData * VlanAndPortMap * PolicyData.

Definition getFastPortPolicy (maps : VlanAndPortMap) (packet : LookupKey.t)
    (direction : DirectionType) (policy0 : PolicyData) : SubLookup :=
  match lru.Get (macEpcMap maps) (LookupKey.SrcMac packet) with
  | (None, _) => (None, maps, policy0)
  | (Some srcEpc, macs) =>
      let maps := mkMaps macs (vlanPolicyMap maps) (portPolicyMap maps) in
      match lru.Get macs (LookupKey.DstMac packet) with
      | (None, _) => (None, maps, policy0)
      | (Some dstEpc, macs) =>
          let maps := mkMaps macs (vlanPolicyMap maps) (portPolicyMap maps) in
          let '(srcEpc, dstEpc, port) :=
            if decide (direction = BACKWARD)
            then (dstEpc, srcEpc, LookupKey.SrcPort packet)
            else (srcEpc, dstEpc, LookupKey.DstPort packet) in
          let key := fastPortKey srcEpc dstEpc (LookupKey.Proto packet) port in
          match lru.Get (portPolicyMap maps) key with
          | (Some value, ports) =>
              if stale value packet
              then (None,
                    mkMaps (macEpcMap maps) (vlanPolicyMap maps) (lru.Remove ports key),
                    policy0)
              else
                let ports := lru.poke ports key (refresh value packet) in
                let policy1 := Merge policy0 (AclActions (policy value))
                                     (ACLID (policy value)) (Some direction) in
                let endpoint := if decide (direction = BACKWARD)
                                then swapEndpoint (endpoint value)
                                else endpoint value in
                (Some endpoint, mkMaps (macEpcMap maps) (vlanPolicyMap maps) ports, policy1)
          | (None, _) => (None, maps, policy0)
          end
      end
  end.

Definition getFastVlanPolicy (maps : VlanAndPortMap) (packet : LookupKey.t)
    (direction : DirectionType) (policy0 : PolicyData) : SubLookup :=
  match lru.Get (macEpcMap maps) (LookupKey.SrcMac packet) with
  | (None, _) => (None, maps, policy0)
  | (Some srcEpc, macs) =>
      let maps := mkMaps macs (vlanPolicyMap maps) (portPolicyMap maps) in
      match lru.Get macs (LookupKey.DstMac packet) with
      | (None, _) => (None, maps, policy0)
      | (Some dstEpc, macs) =>
          let maps := mkMaps macs (vlanPolicyMap maps) (portPolicyMap maps) in
          let '(srcEpc, dstEpc) :=
            if decide (direction = BACKWARD) then (dstEpc, srcEpc) else (srcEpc, dstEpc) in
          let key := fastVlanKey (LookupKey.Vlan packet) srcEpc dstEpc in
          match lru.Get (vlanPolicyMap maps) key with
          | (Some value, vlans) =>
              if stale value packet
              then (None,
                    mkMaps (macEpcMap maps) (lru.Remove vlans key) (portPolicyMap maps),
                    policy0)
              else
                let vlans := lru.poke vlans key (refresh value packet) in
                let policy1 := Merge policy0 (AclActions (policy value))
                                     (ACLID (policy value)) None in
                let endpoint := if decide (direction = BACKWARD)
                                then swapEndpoint (endpoint value)
                                else endpoint value in
                (Some endpoint, mkMaps (macEpcMap maps) vlans (portPolicyMap maps), policy1)
          | (None, _) => (None, maps, policy0)
          end
      end
  end.

(** The local variables of [GetPolicyByFastPath] that the direction loop
    updates, with the classifier. *)
Record FastLoop := mkFastLoop {
  loopLabel : PolicyLabel;
  loopPolicy : PolicyData;
  loopEndpoint : option EndpointData;
  portForwardFound : bool;
  portBackwardFound : bool;
  vlanFound : bool
}.

(** Body of [for _, direction := range []DirectionType{FORWARD, BACKWARD}]. *)
Definition fastDirection (packet : LookupKey.t) (st : FastLoop) (direction : DirectionType)
    : option FastLoop :=
  '(omaps, l) ← getVlanAndPortMap (loopLabel st) packet direction false;
  match omaps with
  | None => Some (mkFastLoop l (loopPolicy st) (loopEndpoint st) (portForwardFound st)
                             (portBackwardFound st) (vlanFound st))
  | Some maps =>
      let '(endpoint1, maps, policy1, vlanFound1) :=
        if (LookupKey.Vlan packet >? 0) && bool_decide (direction = FORWARD)
        then let '(e, maps, p) := getFastVlanPolicy maps packet direction (loopPolicy st) in
             (e, maps, p, bool_decide (e ≠ None))
        else (loopEndpoint st, maps, loopPolicy st, vlanFound st) in
      let '(endpoint2, maps, policy2) := getFastPortPolicy maps packet direction policy1 in
      let hit := bool_decide (endpoint2 ≠ None) in
      Some (mkFastLoop (storeMaps l packet direction maps) policy2 endpoint2
              (if decide (direction = FORWARD) then hit || portForwardFound st
               else portForwardFound st)
              (if decide (direction = FORWARD) then portBackwardFound st
               else hit || portBackwardFound st)
              vlanFound1)
  end.

(** The value returned by a call together with the classifier and the
    (mutated) lookup key it leaves behind. *)
Record FastResult := mkFastResult {
  fastLabel : PolicyLabel;
  fastPacket : LookupKey.t;
  fastEndpoint : option EndpointData;
  fastPolicy : PolicyRef
}.

Definition GetPolicyByFastPath (l : PolicyLabel) (packet : LookupKey.t) : option FastResult :=
  if FastPathDisable l then Some (mkFastResult l packet None INVALID_POLICY_DATA)
  else
    packet ← getFastInterestKeys l packet;
    st ← foldM (fastDirection packet) [FORWARD; BACKWARD]
               (mkFastLoop l newPolicyData None false false true);
    let found := portForwardFound st && portBackwardFound st && vlanFound st in
    if negb found
    then Some (mkFastResult (loopLabel st) packet None INVALID_POLICY_DATA)
    else
      let l := bumpFastPath (loopLabel st) (len (AclActions (loopPolicy st))) in
      Some (mkFastResult l packet (loopEndpoint st) (PolicyAt (loopPolicy st))).

(** ** FirstPath resolver *)

(** Body of the three lookup loops: [if policy := group[key]; policy !=
    nil { acc.Merge(policy.AclActions, policy.ACLID, dir...); found = true }]. *)
Definition lookupKeyStep (group : gmap Z PolicyData) (directions : option DirectionType)
    (st : PolicyData * bool) (key : Z) : PolicyData * bool :=
  match group !! key with
  | Some policy => (Merge (fst st) (AclActions policy) (ACLID policy) directions, true)
  | None => st
  end.

Record FirstResult := mkFirstResult {
  firstLabel : PolicyLabel;
  firstPacket : LookupKey.t;
  firstPolicy : PolicyRef
}.

(** The locals of [GetPolicyByFirstPath] just before its final decision:
    the merged policy and the two flags. *)
Record FirstLocals := mkFirstLocals {
  localLabel : PolicyLabel;
  localPacket : LookupKey.t;
  localFind : PolicyData;
  localVlanFound : bool;
  localPortFound : bool
}.

(** [GetPolicyByFirstPath] up to and including the last
    [addPortFastPolicy]. *)
Definition firstPathLookups (l : PolicyLabel) (endpointData : EndpointData)
    (packet : LookupKey.t) : option FirstLocals :=
  packet ← generateInterestKeys l endpointData packet;
  portGroup ← tapMap (GroupPortPolicyMaps l) (LookupKey.Tap packet);
  vlanGroup ← tapMap (GroupVlanPolicyMaps l) (LookupKey.Tap packet);
  let findPolicy := mkPolicy 0 [] in
  let forward := newPolicyData in
  let backward := newPolicyData in
  '(findPolicy, vlanFound, l) ←
    (if LookupKey.Vlan packet >? 0
     then
       let keys := Codec.generateGroupVlanKeys (LookupKey.SrcGroupIds packet)
                     (LookupKey.DstGroupIds packet) (LookupKey.Vlan packet) in
       let '(findPolicy, vlanFound) :=
         fold_left (lookupKeyStep vlanGroup None) keys (findPolicy, false) in
       l ← addVlanFastPolicy l endpointData packet findPolicy;
       Some (findPolicy, vlanFound, l)
     else Some (findPolicy, false, l));
  let keys := Codec.generateSearchPortKeys (LookupKey.SrcGroupIds packet)
                (LookupKey.DstGroupIds packet) (LookupKey.DstPort packet)
                (LookupKey.Proto packet) in
  let '(forward, portFound) :=
    fold_left (lookupKeyStep portGroup (Some FORWARD)) keys (forward, false) in
  let findPolicy :=
    if len (AclActions forward) >? 0
    then Merge findPolicy (AclActions forward) (ACLID forward) (Some FORWARD)
    else findPolicy in
  l ← addPortFastPolicy l endpointData packet forward FORWARD;
  let keys := Codec.generateSearchPortKeys (LookupKey.DstGroupIds packet)
                (LookupKey.SrcGroupIds packet) (LookupKey.SrcPort packet)
                (LookupKey.Proto packet) in
  let '(backward, portFound) :=
    fold_left (lookupKeyStep portGroup (Some BACKWARD)) keys (backward, portFound) in
  let findPolicy :=
    if len (AclActions backward) >? 0
    then Merge findPolicy (AclActions backward) (ACLID backward) (Some BACKWARD)
    else findPolicy in
  l ← addPortFastPolicy l endpointData packet backward BACKWARD;
  Some (mkFirstLocals l packet findPolicy vlanFound portFound).

Definition GetPolicyByFirstPath (l : PolicyLabel) (endpointData : EndpointData)
    (packet : LookupKey.t) : option FirstResult :=
  st ← firstPathLookups l endpointData packet;
  let findPolicy :=
    if negb (localPortFound st) && negb (localVlanFound st)
    then INVALID_POLICY_DATA
    else PolicyAt (localFind st) in
  Some (mkFirstResult (bumpFirstPath (localLabel st)) (localPacket st) findPolicy).

(** ** Definitions used to state the properties *)

(** Modelled from the spec: the tap types of package [datatype] ("TapType
    (MIN, ANY, MAX)"), with [CheckTapType] read as the validity gate that
    accepts a tap in [MIN, MAX) or ANY.  Used only to run the code on
    concrete inputs. *)
Definition sampleTaps : TapTypes :=
  {| TAP_ANY := 0; TAP_MIN := 1; TAP_MAX := 4;
     CheckTapType := fun _ tapType => (tapType <? 4)%nat |}.

(** The base set: one packed key per pair of the (wildcard-substituted)
    group lists. *)
Definition baseKeys (srcGroups dstGroups : list Z) (port proto : Z) : list Z :=
  flat_map (fun src => map (fun dst => Codec.portKey proto port src dst) (Codec.orAny dstGroups))
           (Codec.orAny srcGroups).

(** Two ACLs that differ at most in fields the vlan compiler does not
    read, and whose [Vlan] agree modulo 2^16. *)
Definition sameVlanRule (acl1 acl2 : Acl) : Prop :=
  Id acl1 = Id acl2 ∧ Type' acl1 = Type' acl2 ∧
  SrcGroups acl1 = SrcGroups acl2 ∧ DstGroups acl1 = DstGroups acl2 ∧
  Action acl1 = Action acl2 ∧
  Vlan acl1 > 0 ∧ Vlan acl2 > 0 ∧
  Vlan acl1 mod 2 ^ 16 = Vlan acl2 mod 2 ^ 16.

Definition is_int32 (x : Z) : Prop := - 2 ^ 31 <= x < 2 ^ 31.

(** The preference order as the specification words it: the L2 id when
    positive, else the L3 id when positive, else [0xFFFFFFFF] when the L3
    id is -1, else the wildcard. *)
Definition preferredEpc (e : EndpointInfo) : Z :=
  if L2EpcId e >? 0 then L2EpcId e
  else if L3EpcId e >? 0 then L3EpcId e
  else if L3EpcId e =? -1 then 0xFFFFFFFF
  else 0.


(** The invariant of the netmask table: every recorded mask is a /16 or
    longer. *)
Definition maskInRange (m : gmap Z Z) : Prop :=
  map_Forall (fun _ mask => 0xFFFF0000 <= mask <= 0xFFFFFFFF) m.

(** The two loop bodies of the learners on an already decoded prefix:
    what [seedNetwork] and [seedRaw] do with the address and the mask,
    and what [refineNetwork] and [refineRaw] do with the address. *)
Definition seedAt (maskMap : gmap Z Z) (ip mask : Z) : gmap Z Z :=
  if (NET16 <=? mask) && (maskOf maskMap (Z.land ip NET16) <? mask)
  then <[Z.land ip NET16 := mask]> maskMap
  else maskMap.

Definition refineAt (maskMap : gmap Z Z) (ip : Z) : gmap Z Z :=
  raiseMask maskMap (Z.land ip (maskOf maskMap (Z.land ip NET16)))
            (maskOf maskMap (Z.land ip NET16)).

(** What one input entry asks of the seed pass and of the refine pass. *)
Record LearnItem := mkItem {
  seedOf : option (Z * Z);
  refineOf : option Z
}.

Definition seedItem (maskMap : gmap Z Z) (it : LearnItem) : gmap Z Z :=
  match seedOf it with
  | Some (ip, mask) => seedAt maskMap ip mask
  | None => maskMap
  end.

Definition refineItem (maskMap : gmap Z Z) (it : LearnItem) : gmap Z Z :=
  match refineOf it with
  | Some ip => refineAt maskMap ip
  | None => maskMap
  end.

Definition networkItem (network : IpNet) : LearnItem :=
  mkItem (Some (Ip network, shl32 MaxUint32 (uint32 (32 - Netmask network))))
         (Some (Ip network)).

Definition rawItem `{NetText} (raw : string) : LearnItem :=
  match splitSlash raw with
  | [part0; part1] =>
      mkItem (match Atoi part1 with
              | Some maskSize =>
                  Some (IpToUint32 (ParseIP part0),
                        shl32 MaxUint32 (uint32 (32 - maskSize)))
              | None => None
              end)
             (Some (IpToUint32 (ParseIP part0)))
  | _ => mkItem None None
  end.

(** An entry of [IpGroupData.Ips] is malformed when it does not split
    into exactly two parts, its length does not parse, or its address
    does not parse. *)
Definition malformed `{NetText} (raw : string) : Prop :=
  match splitSlash raw with
  | [part0; part1] => Atoi part1 = None ∨ ParseIP part0 = []
  | _ => True
  end.

(** No mask is lower in [m'] than in [m]. *)
Definition extends (m m' : gmap Z Z) : Prop := ∀ k, maskOf m k <= maskOf m' k.

(** An item whose seed mask is a [uint32]. *)
Definition typedItem (it : LearnItem) : Prop :=
  match seedOf it with
  | Some (_, mask) => 0 <= mask < 2 ^ 32
  | None => True
  end.

(** The two passes over one batch of entries: every seed, then every
    refinement. *)
Definition learnItems (maskMap : gmap Z Z) (items : list LearnItem) : gmap Z Z :=
  fold_left refineItem items (fold_left seedItem items maskMap).

(** The seed pass has nothing left to do for the item. *)
Definition seeded (m : gmap Z Z) (it : LearnItem) : Prop :=
  match seedOf it with
  | Some (ip, mask) => NET16 <= mask -> mask <= maskOf m (Z.land ip NET16)
  | None => True
  end.

(** The refine pass has nothing left to do for the item. *)
Definition refined (m : gmap Z Z) (it : LearnItem) : Prop :=
  match refineOf it with
  | Some ip =>
      maskOf m (Z.land ip NET16) <= maskOf m (Z.land ip (maskOf m (Z.land ip NET16)))
  | None => True
  end.

(** Two groups of CIDR text on which a repeated call refines further. *)
Definition twoGroups : list IpGroupData.t :=
  [IpGroupData.mk 1 1 ["10.0.1.5/24"%string]; IpGroupData.mk 2 1 ["10.0.2.7/28"%string]].

(** The decoded entries of a batch of platforms. *)
Definition platformItems (platforms : list PlatformData) : list LearnItem :=
  map networkItem (concat (map Ips platforms)).


(** The key is the most recently used entry of the cache. *)
Definition atFront {V : Type} (c : lru.Cache V) (key : Z) : Prop :=
  ∃ v rest, lru.ll c = (key, v) :: rest.

(** The two fast-path sub-lookups, with the cache each consults and the
    key each computes from the two EPC ids found for the MACs. *)
Inductive SubKind := PortLookup | VlanLookup.

Definition subLookup (kind : SubKind)
    : VlanAndPortMap -> LookupKey.t -> DirectionType -> PolicyData -> SubLookup :=
  match kind with
  | PortLookup => getFastPortPolicy
  | VlanLookup => getFastVlanPolicy
  end.

Definition subCache (kind : SubKind) (maps : VlanAndPortMap) : lru.Cache FastPathMapValue :=
  match kind with
  | PortLookup => portPolicyMap maps
  | VlanLookup => vlanPolicyMap maps
  end.

Definition subKey (kind : SubKind) (packet : LookupKey.t) (direction : DirectionType)
    (srcEpc dstEpc : Z) : Z :=
  match kind, direction with
  | PortLookup, FORWARD =>
      fastPortKey srcEpc dstEpc (LookupKey.Proto packet) (LookupKey.DstPort packet)
  | PortLookup, BACKWARD =>
      fastPortKey dstEpc srcEpc (LookupKey.Proto packet) (LookupKey.SrcPort packet)
  | VlanLookup, FORWARD => fastVlanKey (LookupKey.Vlan packet) srcEpc dstEpc
  | VlanLookup, BACKWARD => fastVlanKey (LookupKey.Vlan packet) dstEpc srcEpc
  end.

(** ** Coordinator, continued *)

(** [DelAcl]: [id] is a Go [int]; the slice expressions [acls[:index]]
    and [append(acls[0:index], acls[index+1:]...)] are [take] and
    [drop]. *)
Definition DelAcl `{TapTypes} (l : PolicyLabel) (id : Z) : option PolicyLabel :=
  let acls := RawAcls l in
  if (id >? len acls) || (id <=? 0) then Some l
  else
    let index := Z.to_nat (id - 1) in
    if id =? len acls
    then l ← UpdateAcls l (take index acls); FlushAcls l
    else
      let newAcls := take index acls ++ drop (S index) acls in
      l ← UpdateAcls l newAcls; FlushAcls l.

(** ** Further definitions used to state the properties *)

(** The fields a packed port key is read back into. *)
Definition portKeyProto (key : Z) : Z := Z.shiftr key 56.
Definition portKeyPort (key : Z) : Z := Z.land (Z.shiftr key 40) 0xffff.
Definition keySrcGroup (key : Z) : Z := Z.land (Z.shiftr key 20) 0xfffff.
Definition keyDstGroup (key : Z) : Z := Z.land key 0xfffff.
Definition vlanKeyVlan (key : Z) : Z := Z.shiftr key 48.

(** [len(acl.DstPorts) >= 0xffff || len(acl.DstPorts) == 0] *)
Definition allPorts (acl : Acl) : bool :=
  (0xffff <=? len (DstPorts acl)) || (len (DstPorts acl) =? 0).

(** The tap type indexes a slot of the per-tap arrays that was [make]d. *)
Definition tapInRange `{TapTypes} (tap : nat) : Prop := (TAP_MIN <= tap < TAP_MAX)%nat.

(** The ACL passes the test [acl.Type.CheckTapType(acl.Type)]. *)
Definition accepted `{TapTypes} (acl : Acl) : bool := CheckTapType (Type' acl) (Type' acl).

(** [maps[tap][key]] is present, with a value that satisfies [P]. *)
Definition tapHolds {V : Type} (P : V -> Prop) (maps : TapMaps V) (tap : nat) (key : Z) : Prop :=
  ∃ m v, maps !! tap = Some (Some m) ∧ m !! key = Some v ∧ P v.

(** The shape [NewPolicyLabel] and the three compilers give a per-tap
    array: [TAP_MAX] slots, those from [TAP_MIN] on non-nil. *)
Definition tapShape `{TapTypes} {V : Type} (maps : TapMaps V) : Prop :=
  length maps = TAP_MAX
  ∧ ∀ i slot, maps !! i = Some slot -> (is_Some slot ↔ (TAP_MIN <= i)%nat).

(** Any stored policy: presence of the key is all that is asked. *)
Definition anyPolicy : PolicyData -> Prop := fun _ => True.

(** The loop bodies of [GenerateGroupPortMaps] and
    [GenerateGroupVlanMaps], and the ACLs each of them compiles. *)
Definition portBody `{TapTypes} (portMaps : TapMaps PolicyData) (acl : Acl)
    : option (TapMaps PolicyData) :=
  if CheckTapType (Type' acl) (Type' acl) && bool_decide (Vlan acl = 0)
  then tapMapStores portMaps (Type' acl) (mergeAt acl None)
                    (generateGroupPortsKeys acl FORWARD)
  else Some portMaps.

Definition portRule `{TapTypes} (acl : Acl) : bool :=
  accepted acl && bool_decide (Vlan acl = 0).

Definition vlanBody `{TapTypes} (vlanMaps : TapMaps PolicyData) (acl : Acl)
    : option (TapMaps PolicyData) :=
  if CheckTapType (Type' acl) (Type' acl) && bool_decide (Vlan acl > 0)
  then
    vlanMaps ← tapMapStores vlanMaps (Type' acl) (mergeAt acl (Some FORWARD))
                            (aclVlanKeys acl FORWARD);
    tapMapStores vlanMaps (Type' acl) (mergeAt acl (Some BACKWARD))
                 (aclVlanKeys acl BACKWARD)
  else Some vlanMaps.

Definition vlanRule `{TapTypes} (acl : Acl) : bool :=
  accepted acl && bool_decide (Vlan acl > 0).

(** One vlan key per pair of the (wildcard-substituted) group lists,
    packed with [Codec.vlanKey]. *)
Definition vlanBaseKeys (srcGroups dstGroups : list Z) (vlan : Z) : list Z :=
  flat_map (fun src => map (fun dst => Codec.vlanKey vlan src dst) (Codec.orAny dstGroups))
           (Codec.orAny srcGroups).

(** The learner for IP groups as the specification words it ("The
    learner runs two passes over the input"): one seed pass over every
    entry of every group, then one refine pass over every entry, as
    [GenerateIpNetmaskMap] does for platforms. *)
Definition twoPassFromIpResource `{NetText} (IpNetmaskMap : gmap Z Z)
    (datas : list IpGroupData.t) : gmap Z Z :=
  let maskMap := makeIpNetmaskMap IpNetmaskMap in
  let raws := concat (map IpGroupData.Ips datas) in
  fold_left refineRaw raws (fold_left seedRaw raws maskMap).

(** A row of [FastPolicyMaps] that [FlushAcls] can walk: every slot from
    [TAP_MIN] up to [TAP_MAX] is there and holds a cache. *)
Definition rowShape `{TapTypes} (row : list (option (lru.Cache VlanAndPortMap))) : Prop :=
  ∀ j, tapInRange j -> ∃ c, row !! j = Some (Some c).

(** The row [FlushAcls] leaves: a new cache of the configured size in
    every slot from [TAP_MIN] up to [TAP_MAX], the other slots as they
    were. *)
Definition flushedRow `{TapTypes} (mapSize : nat)
    (row : list (option (lru.Cache VlanAndPortMap)))
    : list (option (lru.Cache VlanAndPortMap)) :=
  imap (fun j slot => if decide (tapInRange j) then Some (lru.New mapSize) else slot) row.

(** A classifier with one entry in the cache of worker 0 and tap type 1. *)
Definition seededLabel : PolicyLabel :=
  setFastPolicyMaps (NewPolicyLabel (H := sampleTaps) 1 8 false)
    [[None; Some (lru.Add (lru.New 8) 5 newVlanAndPortMap);
      Some (lru.New 8); Some (lru.New 8)]].

(** A query and the endpoints resolved for it, used to run the lookups
    on a concrete classifier: tap type 1, worker 0, 10.0.1.5:1000 ->
    10.1.2.7:80 over protocol 6. *)
Definition samplePacket : LookupKey.t :=
  LookupKey.mk 0 11 22 0x0A000105 0x0A010207 1000 80 0 6 1 [] [] 0.

Definition sampleEndpoints : EndpointData :=
  mkEndpointData (mkEndpointInfo [3] 1 0) (mkEndpointInfo [4] 2 0).

(** Every cache of the fast-path array from [TAP_MIN] up to [TAP_MAX] is
    there and empty. *)
Definition cachesEmpty `{TapTypes} (l : PolicyLabel) : Prop :=
  ∀ q row tap, FastPolicyMaps l !! q = Some row -> tapInRange tap ->
    ∃ c, row !! tap = Some (Some c) ∧ lru.Len c = 0%nat.

(** The three loops that [GenerateInterestMaps] runs side by side, one
    per table. *)
Definition protoInterest `{TapTypes} (maps : TapMaps bool) (acl : Acl) : option (TapMaps bool) :=
  if CheckTapType (Type' acl) (Type' acl)
  then tapMapStores maps (Type' acl) setTrue [Proto acl]
  else Some maps.

Definition portInterest `{TapTypes} (maps : TapMaps bool) (acl : Acl) : option (TapMaps bool) :=
  if CheckTapType (Type' acl) (Type' acl)
  then
    _ ← tapMap maps (Type' acl);
    if len (DstPorts acl) <? 0xffff
    then tapMapStores maps (Type' acl) setTrue (map snd (DstPorts acl))
    else Some maps
  else Some maps.

Definition groupInterest `{TapTypes} (maps : TapMaps bool) (acl : Acl) : option (TapMaps bool) :=
  if CheckTapType (Type' acl) (Type' acl)
  then
    groups ← tapMapStores maps (Type' acl) setTrue (map snd (DstGroups acl));
    tapMapStores groups (Type' acl) setTrue (map snd (SrcGroups acl))
  else Some maps.

(** The ports of an ACL that reach the interest table: none when the ACL
    lists 0xffff ports or more. *)
Definition interestPorts (acl : Acl) : list Z :=
  if len (DstPorts acl) <? 0xffff then map snd (DstPorts acl) else [].

(** What the interest filter reads: [maps[tap][key]] on a
    [map[K]bool]. *)
Definition tapInterested (maps : TapMaps bool) (tap : nat) (key : Z) : Prop :=
  ∃ m, tapMap maps tap = Some m ∧ interested m key = true.

Definition isTrue : bool -> Prop := fun v => v = true.

(** The loop body of [GenerateInterestMaps]. *)
Definition interestBody `{TapTypes} (im : InterestMaps) (acl : Acl) : option InterestMaps :=
  if CheckTapType (Type' acl) (Type' acl)
  then
    protos ← tapMapStores (interestProto im) (Type' acl) setTrue [Proto acl];
    _ ← tapMap (interestPort im) (Type' acl);
    ports ← (if len (DstPorts acl) <? 0xffff
             then tapMapStores (interestPort im) (Type' acl) setTrue
                               (map snd (DstPorts acl))
             else Some (interestPort im));
    groups ← tapMapStores (interestGroup im) (Type' acl) setTrue
                          (map snd (DstGroups acl));
    groups ← tapMapStores groups (Type' acl) setTrue (map snd (SrcGroups acl));
    Some (mkInterest protos ports groups)
  else Some im.

(** The ACLs one ACL is compiled as: a copy per tap type from [TAP_MIN]
    up to [TAP_MAX] for [TAP_ANY], itself otherwise. *)
Definition expandOne `{TapTypes} (acl : Acl) : list Acl :=
  if decide (Type' acl = TAP_ANY)
  then map (fun i => mkAcl (Id acl) i (TapId acl) (SrcGroups acl) (DstGroups acl)
                           (DstPorts acl) (Proto acl) (Vlan acl) (Action acl))
           (seq TAP_MIN (TAP_MAX - TAP_MIN))
  else [acl].

(** The tap types an ACL is compiled for. *)
Definition compiledFor `{TapTypes} (acl : Acl) (tap : nat) : Prop :=
  (Type' acl ≠ TAP_ANY ∧ tap = Type' acl) ∨ (Type' acl = TAP_ANY ∧ tapInRange tap).

(** ** The fast path seen from one cache *)

(** Everything of the classifier but the fast-path caches. *)
Definition tablesOf (l : PolicyLabel) : PolicyLabel := setFastPolicyMaps l [].

(** What [getVlanAndPortMap] with [create] does to the cache of the
    query's worker and tap type: the entry of the subnet key is read (and
    becomes the most recent), or a new one is added. *)
Definition openMaps (c : lru.Cache VlanAndPortMap) (key : Z)
    : VlanAndPortMap * lru.Cache VlanAndPortMap :=
  match lru.peek c key with
  | Some maps => (maps, lru.touch c key)
  | None => (newVlanAndPortMap, lru.Add c key newVlanAndPortMap)
  end.

(** The two [addEpcMap] calls that open every seeding. *)
Definition withEpcs (maps : VlanAndPortMap) (endpointData : EndpointData)
    (packet : LookupKey.t) : VlanAndPortMap :=
  snd (addEpcMap (snd (addEpcMap maps (SrcInfo endpointData) (LookupKey.SrcMac packet)))
                 (DstInfo endpointData) (LookupKey.DstMac packet)).

(** The value and the key [addPortFastPolicy] stores. *)
Definition portValue (endpointData : EndpointData) (packet : LookupKey.t)
    (policy : PolicyData) (direction : DirectionType) : FastPathMapValue :=
  mkValue (if decide (direction = BACKWARD) then swapEndpoint endpointData else endpointData)
          (Merge newPolicyData (AclActions policy) (ACLID policy) None)
          (LookupKey.Timestamp packet).

Definition seedPortKey (endpointData : EndpointData) (packet : LookupKey.t)
    (direction : DirectionType) : Z :=
  subKey PortLookup packet direction (epcId (SrcInfo endpointData))
         (epcId (DstInfo endpointData)).

Definition withPort (maps : VlanAndPortMap) (endpointData : EndpointData)
    (packet : LookupKey.t) (policy : PolicyData) (direction : DirectionType)
    : VlanAndPortMap :=
  let maps := withEpcs maps endpointData packet in
  mkMaps (macEpcMap maps) (vlanPolicyMap maps)
         (lru.Add (portPolicyMap maps) (seedPortKey endpointData packet direction)
                  (portValue endpointData packet policy direction)).

(** The values and the keys [addVlanFastPolicy] stores, one per
    direction. *)
Definition vlanValue (endpointData : EndpointData) (packet : LookupKey.t)
    (policy : PolicyData) (direction : DirectionType) : FastPathMapValue :=
  match direction with
  | FORWARD =>
      mkValue endpointData (Merge newPolicyData (AclActions policy) (ACLID policy) None)
              (LookupKey.Timestamp packet)
  | BACKWARD =>
      mkValue (swapEndpoint endpointData)
              (MergeAndSwapDirection newPolicyData (AclActions policy) (ACLID policy))
              (LookupKey.Timestamp packet)
  end.

Definition seedVlanKey (endpointData : EndpointData) (packet : LookupKey.t)
    (direction : DirectionType) : Z :=
  subKey VlanLookup packet direction (epcId (SrcInfo endpointData))
         (epcId (DstInfo endpointData)).

Definition withVlan (maps : VlanAndPortMap) (endpointData : EndpointData)
    (packet : LookupKey.t) (policy : PolicyData) (direction : DirectionType)
    : VlanAndPortMap :=
  let maps := withEpcs maps endpointData packet in
  mkMaps (macEpcMap maps)
         (lru.Add (vlanPolicyMap maps) (seedVlanKey endpointData packet direction)
                  (vlanValue endpointData packet policy direction))
         (portPolicyMap maps).

(** One seeding seen from the cache: open the entry of the subnet key,
    store into the maps it points to. *)
Definition seedWith (c : lru.Cache VlanAndPortMap) (key : Z)
    (store : VlanAndPortMap -> VlanAndPortMap) : lru.Cache VlanAndPortMap :=
  let '(maps, c) := openMaps c key in
  lru.poke c key (store maps).

(** The capacities [getVlanAndPortMap] gives the three caches of a
    [VlanAndPortMap]. *)
Definition innerOk (maps : VlanAndPortMap) : Prop :=
  lru.MaxEntries (macEpcMap maps) = FAST_PATH_EPC_MAP_SIZE_LIMIT
  ∧ lru.MaxEntries (vlanPolicyMap maps) = FAST_PATH_POLICY_MAP_SIZE_LIMIT
  ∧ lru.MaxEntries (portPolicyMap maps) = FAST_PATH_POLICY_MAP_SIZE_LIMIT.

(** A cache of [FastPolicyMaps] all of whose entries were made by
    [getVlanAndPortMap]. *)
Definition entriesOk (c : lru.Cache VlanAndPortMap) : Prop :=
  ∀ key maps, lru.peek c key = Some maps -> innerOk maps.

(** The two MACs of the query can both be kept in the MAC table: they
    differ, or they stand for the same EPC. *)
Definition macsOk (endpointData : EndpointData) (packet : LookupKey.t) : Prop :=
  LookupKey.SrcMac packet ≠ LookupKey.DstMac packet
  ∨ epcId (SrcInfo endpointData) = epcId (DstInfo endpointData).

(** The MAC table of the maps resolves both MACs of the query to the EPC
    ids [addEpcMap] chose. *)
Definition macsIn (maps : VlanAndPortMap) (endpointData : EndpointData)
    (packet : LookupKey.t) : Prop :=
  lru.peek (macEpcMap maps) (LookupKey.SrcMac packet) = Some (epcId (SrcInfo endpointData))
  ∧ lru.peek (macEpcMap maps) (LookupKey.DstMac packet) = Some (epcId (DstInfo endpointData)).

(** The cache holds what [GetPolicyByFirstPath] seeds for a query: under
    the forward subnet key, maps with the forward port entry (and the
    forward vlan entry when the query has a vlan); under the backward
    subnet key, maps with the backward port entry. *)
Definition seededIn (c : lru.Cache VlanAndPortMap) (keyForward keyBackward : Z)
    (endpointData : EndpointData) (packet : LookupKey.t)
    (vlanPolicy forward backward : PolicyData) : Prop :=
  ∃ mapsForward mapsBackward,
    lru.peek c keyForward = Some mapsForward
    ∧ lru.peek c keyBackward = Some mapsBackward
    ∧ macsIn mapsForward endpointData packet
    ∧ macsIn mapsBackward endpointData packet
    ∧ lru.peek (portPolicyMap mapsForward) (seedPortKey endpointData packet FORWARD)
      = Some (portValue endpointData packet forward FORWARD)
    ∧ lru.peek (portPolicyMap mapsBackward) (seedPortKey endpointData packet BACKWARD)
      = Some (portValue endpointData packet backward BACKWARD)
    ∧ (LookupKey.Vlan packet > 0 ->
       lru.peek (vlanPolicyMap mapsForward) (seedVlanKey endpointData packet FORWARD)
       = Some (vlanValue endpointData packet vlanPolicy FORWARD)).

(** The maps a sub-lookup leaves when it hits: the two MACs and the key
    become the most recent entries and the entry takes the timestamp of
    the query. *)
Definition afterHit (kind : SubKind) (maps : VlanAndPortMap) (packet : LookupKey.t)
    (key : Z) (value : FastPathMapValue) : VlanAndPortMap :=
  let macs := lru.touch (lru.touch (macEpcMap maps) (LookupKey.SrcMac packet))
                        (LookupKey.DstMac packet) in
  match kind with
  | PortLookup =>
      mkMaps macs (vlanPolicyMap maps)
             (lru.poke (lru.touch (portPolicyMap maps) key) key (refresh value packet))
  | VlanLookup =>
      mkMaps macs
             (lru.poke (lru.touch (vlanPolicyMap maps) key) key (refresh value packet))
             (portPolicyMap maps)
  end.

(** Two maps that answer every read alike. *)
Definition samePeeks (maps maps' : VlanAndPortMap) : Prop :=
  (∀ k, lru.peek (macEpcMap maps') k = lru.peek (macEpcMap maps) k)
  ∧ (∀ k, lru.peek (vlanPolicyMap maps') k = lru.peek (vlanPolicyMap maps) k)
  ∧ (∀ k, lru.peek (portPolicyMap maps') k = lru.peek (portPolicyMap maps) k).

(** The locals of [GetPolicyByFirstPath]: the policy merged from the
    vlan table with its flag, the forward and the backward policy merged
    from the port table with the flag they share, and the policy
    returned when a flag is set. *)
Definition firstVlan (vlanGroup : gmap Z PolicyData) (packet : LookupKey.t)
    : PolicyData * bool :=
  if LookupKey.Vlan packet >? 0
  then fold_left (lookupKeyStep vlanGroup None)
         (Codec.generateGroupVlanKeys (LookupKey.SrcGroupIds packet)
            (LookupKey.DstGroupIds packet) (LookupKey.Vlan packet))
         (mkPolicy 0 [], false)
  else (mkPolicy 0 [], false).

Definition firstForward (portGroup : gmap Z PolicyData) (packet : LookupKey.t)
    : PolicyData * bool :=
  fold_left (lookupKeyStep portGroup (Some FORWARD))
    (Codec.generateSearchPortKeys (LookupKey.SrcGroupIds packet)
       (LookupKey.DstGroupIds packet) (LookupKey.DstPort packet) (LookupKey.Proto packet))
    (newPolicyData, false).

Definition firstBackward (portGroup : gmap Z PolicyData) (packet : LookupKey.t)
    (portFound : bool) : PolicyData * bool :=
  fold_left (lookupKeyStep portGroup (Some BACKWARD))
    (Codec.generateSearchPortKeys (LookupKey.DstGroupIds packet)
       (LookupKey.SrcGroupIds packet) (LookupKey.SrcPort packet) (LookupKey.Proto packet))
    (newPolicyData, portFound).

Definition mergeIfAny (findPolicy part : PolicyData) (direction : DirectionType)
    : PolicyData :=
  if len (AclActions part) >? 0
  then Merge findPolicy (AclActions part) (ACLID part) (Some direction)
  else findPolicy.

Definition firstMerged (vlanGroup portGroup : gmap Z PolicyData) (packet : LookupKey.t)
    : PolicyData :=
  let forward := fst (firstForward portGroup packet) in
  let backward := fst (firstBackward portGroup packet
                         (snd (firstForward portGroup packet))) in
  mergeIfAny (mergeIfAny (fst (firstVlan vlanGroup packet)) forward FORWARD)
             backward BACKWARD.

(** The cache after the seedings of one [GetPolicyByFirstPath] call. *)
Definition firstSeeds (c : lru.Cache VlanAndPortMap) (keyForward keyBackward : Z)
    (endpointData : EndpointData) (packet : LookupKey.t)
    (vlanPolicy forward backward : PolicyData) : lru.Cache VlanAndPortMap :=
  let c :=
    if LookupKey.Vlan packet >? 0
    then seedWith
           (seedWith c keyForward
              (fun maps => withVlan maps endpointData packet vlanPolicy FORWARD))
           keyBackward
           (fun maps => withVlan maps endpointData packet vlanPolicy BACKWARD)
    else c in
  seedWith
    (seedWith c keyForward
       (fun maps => withPort maps endpointData packet forward FORWARD))
    keyBackward
    (fun maps => withPort maps endpointData packet backward BACKWARD).




(** The query without its ports, protocol and groups: the fields the
    interest filter never rewrites. *)
Definition flowOf (packet : LookupKey.t) : LookupKey.t :=
  setGroupIds (setPorts packet 0 0 0) [] [].

(** What is asked of the cache and of the query for the seeds of one
    [GetPolicyByFirstPath] call to be all there when it returns: the
    cache keeps two entries when the two directions need two, its
    entries were made by [getVlanAndPortMap], the MAC table can hold
    both MACs, and when the two directions share their maps their port
    keys (and vlan keys, for a query with a vlan) differ. *)
Definition seedable (c : lru.Cache VlanAndPortMap) (keyForward keyBackward : Z)
    (endpointData : EndpointData) (packet : LookupKey.t) : Prop :=
  (keyForward ≠ keyBackward -> lru.MaxEntries c ≠ 1%nat)
  ∧ entriesOk c
  ∧ macsOk endpointData packet
  ∧ (keyForward = keyBackward ->
     seedPortKey endpointData packet FORWARD ≠ seedPortKey endpointData packet BACKWARD
     ∧ (LookupKey.Vlan packet > 0 ->
        seedVlanKey endpointData packet FORWARD
        ≠ seedVlanKey endpointData packet BACKWARD)).

(** The part of [seedable] that keeps every seed's key answered: the
    cache keeps two entries when the two directions need two, its
    entries were made by [getVlanAndPortMap], and the MAC table can hold
    both MACs. *)
Definition holdable (c : lru.Cache VlanAndPortMap) (keyForward keyBackward : Z)
    (endpointData : EndpointData) (packet : LookupKey.t) : Prop :=
  (keyForward ≠ keyBackward -> lru.MaxEntries c ≠ 1%nat)
  ∧ entriesOk c
  ∧ macsOk endpointData packet.

(** The cache answers the fast keys of a query: under the forward
    subnet key, maps that resolve both MACs and hold [valueForward] at
    the forward port key (and [valueVlan] at the forward vlan key when
    the query has a vlan); under the backward subnet key, maps that
    resolve both MACs and hold [valueBackward] at the backward port
    key. *)
Definition heldIn (c : lru.Cache VlanAndPortMap) (keyForward keyBackward : Z)
    (endpointData : EndpointData) (packet : LookupKey.t)
    (valueVlan valueForward valueBackward : FastPathMapValue) : Prop :=
  ∃ mapsForward mapsBackward,
    lru.peek c keyForward = Some mapsForward
    ∧ lru.peek c keyBackward = Some mapsBackward
    ∧ macsIn mapsForward endpointData packet
    ∧ macsIn mapsBackward endpointData packet
    ∧ lru.peek (portPolicyMap mapsForward) (seedPortKey endpointData packet FORWARD)
      = Some valueForward
    ∧ lru.peek (portPolicyMap mapsBackward) (seedPortKey endpointData packet BACKWARD)
      = Some valueBackward
    ∧ (LookupKey.Vlan packet > 0 ->
       lru.peek (vlanPolicyMap mapsForward) (seedVlanKey endpointData packet FORWARD)
       = Some valueVlan).

(** The policy [GetPolicyByFastPath] merges from three entries. *)
Definition heldMerged (packet : LookupKey.t)
    (valueVlan valueForward valueBackward : FastPathMapValue) : PolicyData :=
  let policy0 :=
    if LookupKey.Vlan packet >? 0
    then Merge newPolicyData (AclActions (policy valueVlan)) (ACLID (policy valueVlan)) None
    else newPolicyData in
  let policy1 := Merge policy0 (AclActions (policy valueForward))
                       (ACLID (policy valueForward)) (Some FORWARD) in
  Merge policy1 (AclActions (policy valueBackward)) (ACLID (policy valueBackward))
        (Some BACKWARD).

(** An entry that carries the timestamp of the query, as every entry
    its seedings store does. *)
Definition stampedBy (packet : LookupKey.t) (value : FastPathMapValue) : Prop :=
  timestamp value = LookupKey.Timestamp packet.

(** Every entry of every fast-path cache of the classifier was made by
    [getVlanAndPortMap]. *)
Definition cachesOk (l : PolicyLabel) : Prop :=
  ∀ packet c, fastCache l packet = Some c -> entriesOk c.

(** The ids of an endpoint that some rule names: those the group loops
    of [generateInterestKeys] append. *)
Definition interesting (groupMap : gmap Z bool) (ids : list Z) : list Z :=
  filter (fun id => Is_true (interested groupMap id)) ids.

(** The list a group loop of [generateInterestKeys] leaves: what the key
    held, the interesting ids in their order, and the wildcard unless it
    is one of them. *)
Definition withWildcard (groupMap : gmap Z bool) (ids : list Z) (out : list Z) : list Z :=
  out ++ interesting groupMap ids
      ++ (if decide (ANY_GROUP ∈ interesting groupMap ids) then [] else [ANY_GROUP]).

(** No key of the list is in the table. *)
Definition noneOf (group : gmap Z PolicyData) (keys : list Z) : Prop :=
  ∀ key, key ∈ keys -> group !! key = None.


(** The sample query with one MAC for both ends. *)
Definition sameMacPacket : LookupKey.t :=
  LookupKey.mk 0 11 11 0x0A000105 0x0A010207 1000 80 0 6 1 [] [] 0.






(** What the caller of [GetPolicyByFastPath] gets: the classifier the
    call leaves, the endpoints and the policy. *)
Definition fastAnswer (r : option FastResult)
    : option (PolicyLabel * option EndpointData * PolicyRef) :=
  (fun r => (fastLabel r, fastEndpoint r, fastPolicy r)) <$> r.

(** [GetPolicyByFirstPath] and then [GetPolicyByFastPath] on the
    classifier it left: the policy of the first call, then the endpoints
    and the policy of the second call, on the key as the first call left
    it and on the key as the caller built it. *)
Definition firstThenFast (l : option PolicyLabel) (endpointData : EndpointData)
    (packet : LookupKey.t)
    : option (PolicyRef * (option EndpointData * PolicyRef)
              * (option EndpointData * PolicyRef)) :=
  l ← l;
  r ← GetPolicyByFirstPath l endpointData packet;
  r2 ← GetPolicyByFastPath (firstLabel r) (firstPacket r);
  r3 ← GetPolicyByFastPath (firstLabel r) packet;
  Some (firstPolicy r, (fastEndpoint r2, fastPolicy r2), (fastEndpoint r3, fastPolicy r3)).
(** * Part II: properties *)

(** ** Bit-level facts about the codec *)

Section CodecFacts.
Import Codec.

Lemma group_bits_range (x : Z) : 0 <= Z.land x GROUP_MASK < 2 ^ 20.
Proof.
  unfold GROUP_MASK. change 0xfffff with (Z.ones 20).
  rewrite Z.land_ones by lia. apply Z.mod_pos_bound. lia.
Qed.

Lemma testbit_small (n p i : Z) :
  0 <= n < 2 ^ p -> 0 <= p -> p <= i -> Z.testbit n i = false.
Proof.
  intros Hn Hp Hi.
  rewrite <- (Z.mod_small n (2 ^ p)) by assumption.
  apply Z.mod_pow2_bits_high. lia.
Qed.

Lemma HIGH24_bits (i : Z) :
  Z.testbit HIGH24 i = (40 <=? i) && (i <? 64).
Proof.
  change HIGH24 with (Z.shiftl (Z.ones 24) 40).
  destruct (Z.ltb_spec i 0) as [Hneg|Hnn].
  { rewrite Z.testbit_neg_r by lia.
    symmetry. apply andb_false_iff. left. apply Z.leb_gt. lia. }
  rewrite Z.shiftl_spec by lia.
  destruct (Z.leb_spec 40 i) as [Hge|Hlt]; simpl.
  - destruct (Z.ltb_spec i 64).
    + apply Z.ones_spec_low. lia.
    + apply Z.ones_spec_high. lia.
  - apply Z.testbit_neg_r. lia.
Qed.

(** The pair of group ids only touches bits 0..39. *)
Lemma groups_low (srcId dst : Z) (i : Z) :
  0 <= srcId < 2 ^ 20 -> 40 <= i ->
  Z.testbit (Z.lor (Z.shiftl srcId 20) (Z.land dst GROUP_MASK)) i = false.
Proof.
  intros Hs Hi.
  rewrite Z.lor_spec, Z.shiftl_spec by lia.
  rewrite (testbit_small srcId 20 (i - 20)) by lia.
  rewrite (testbit_small _ 20 i (group_bits_range dst)) by lia.
  reflexivity.
Qed.

(** One turn of the inner loop gives the running key back. *)
Lemma reset_key (head srcId dst : Z) :
  Z.land head HIGH24 = head -> 0 <= srcId < 2 ^ 20 ->
  Z.land (Z.lor head (Z.lor (Z.shiftl srcId 20) (Z.land dst GROUP_MASK))) HIGH24 = head.
Proof.
  intros Hh Hs.
  rewrite Z.land_lor_distr_l, Hh.
  replace (Z.land (Z.lor (Z.shiftl srcId 20) (Z.land dst GROUP_MASK)) HIGH24) with 0.
  - apply Z.lor_0_r.
  - symmetry. apply Z.bits_inj'. intros i Hi.
    rewrite Z.land_spec, HIGH24_bits, Z.bits_0.
    destruct (Z.leb_spec 40 i); simpl.
    + rewrite groups_low by lia. reflexivity.
    + apply andb_false_r.
Qed.

Lemma dstLoop_spec (head srcId : Z) (dstGroups : list Z) (acc : list Z) :
  Z.land head HIGH24 = head -> 0 <= srcId < 2 ^ 20 ->
  dstLoop srcId dstGroups (acc, head) =
  (acc ++ map (fun dst => Z.lor head (Z.lor (Z.shiftl srcId 20) (Z.land dst GROUP_MASK)))
              dstGroups,
   head).
Proof.
  intros Hh Hs. revert acc.
  induction dstGroups as [|d ds IH]; intros acc; simpl.
  - unfold dstLoop. simpl. by rewrite app_nil_r.
  - unfold dstLoop in *. simpl. rewrite reset_key by assumption.
    rewrite IH. by rewrite <- app_assoc.
Qed.

Lemma srcLoop_spec (head : Z) (srcGroups dstGroups : list Z) (acc : list Z) :
  Z.land head HIGH24 = head ->
  srcLoop srcGroups dstGroups (acc, head) =
  (acc ++ keysOver head srcGroups dstGroups, head).
Proof.
  intros Hh. revert acc.
  induction srcGroups as [|s ss IH]; intros acc.
  - unfold srcLoop, keysOver. simpl. by rewrite app_nil_r.
  - unfold srcLoop in *. simpl.
    rewrite dstLoop_spec by (auto using group_bits_range).
    rewrite IH. unfold keysOver. simpl. by rewrite <- app_assoc.
Qed.

Lemma port_head_stable (port proto : Z) :
  is_uint16 port -> is_uint8 proto ->
  Z.land (Z.lor (Z.shiftl port 40) (Z.shiftl proto 56)) HIGH24 =
  Z.lor (Z.shiftl port 40) (Z.shiftl proto 56).
Proof.
  unfold is_uint16, is_uint8. intros Hp Hq.
  apply Z.bits_inj'. intros i Hi.
  rewrite Z.land_spec, HIGH24_bits, Z.lor_spec.
  destruct (Z.leb_spec 40 i); simpl.
  - destruct (Z.ltb_spec i 64); simpl; [apply andb_true_r|].
    rewrite andb_false_r. symmetry.
    rewrite !Z.shiftl_spec by lia.
    rewrite (testbit_small port 16) by lia.
    rewrite (testbit_small proto 8) by lia. reflexivity.
  - rewrite andb_false_r. symmetry.
    rewrite !Z.shiftl_spec by lia.
    rewrite !Z.testbit_neg_r by lia. reflexivity.
Qed.

Lemma vlan_head_stable (vlan : Z) :
  is_uint16 vlan -> Z.land (Z.shiftl vlan 48) HIGH24 = Z.shiftl vlan 48.
Proof.
  unfold is_uint16. intros Hv.
  apply Z.bits_inj'. intros i Hi.
  rewrite Z.land_spec, HIGH24_bits.
  destruct (Z.leb_spec 40 i); simpl.
  - destruct (Z.ltb_spec i 64); simpl; [apply andb_true_r|].
    rewrite andb_false_r. symmetry.
    rewrite Z.shiftl_spec by lia.
    apply (testbit_small vlan 16); lia.
  - rewrite andb_false_r. symmetry.
    rewrite Z.shiftl_spec by lia. apply Z.testbit_neg_r. lia.
Qed.

Lemma generateGroupPortKeys_spec (srcGroups dstGroups : list Z) (port proto : Z) :
  is_uint16 port -> is_uint8 proto ->
  generateGroupPortKeys srcGroups dstGroups port proto =
  keysOver (Z.lor (Z.shiftl port 40) (Z.shiftl proto 56))
           (orAny srcGroups) (orAny dstGroups).
Proof.
  intros Hp Hq. unfold generateGroupPortKeys.
  rewrite srcLoop_spec by (by apply port_head_stable). reflexivity.
Qed.

Lemma generateGroupVlanKeys_spec (srcGroups dstGroups : list Z) (vlan : Z) :
  is_uint16 vlan ->
  generateGroupVlanKeys srcGroups dstGroups vlan =
  keysOver (Z.shiftl vlan 48) (orAny srcGroups) (orAny dstGroups).
Proof.
  intros Hv. unfold generateGroupVlanKeys.
  rewrite srcLoop_spec by (by apply vlan_head_stable). reflexivity.
Qed.

Lemma elem_of_keysOver (head : Z) (srcGroups dstGroups : list Z) (k : Z) :
  k ∈ keysOver head srcGroups dstGroups ↔
  ∃ src dst, src ∈ srcGroups ∧ dst ∈ dstGroups ∧
    k = Z.lor head (Z.lor (Z.shiftl (Z.land src GROUP_MASK) 20) (Z.land dst GROUP_MASK)).
Proof.
  unfold keysOver. rewrite list_elem_of_In, in_flat_map. split.
  - intros (src & Hsrc & Hk). apply in_map_iff in Hk as (dst & <- & Hdst).
    exists src, dst. by rewrite !list_elem_of_In.
  - intros (src & dst & Hsrc & Hdst & ->). exists src.
    rewrite <- list_elem_of_In. split; [done|].
    apply in_map_iff. exists dst. by rewrite <- list_elem_of_In.
Qed.

Lemma uint16_zero : is_uint16 0.
Proof. unfold is_uint16. lia. Qed.

Lemma uint8_zero : is_uint8 0.
Proof. unfold is_uint8. lia. Qed.

Lemma uint16_is_uint16 (x : Z) : is_uint16 (uint16 x).
Proof. unfold is_uint16, uint16. apply Z.mod_pos_bound. lia. Qed.

End CodecFacts.
(** ** Search keys of the slow path *)

Section SearchKeys.
Import Codec.

Lemma generateGroupPortKeys_base (srcGroups dstGroups : list Z) (port proto : Z) :
  is_uint16 port -> is_uint8 proto ->
  generateGroupPortKeys srcGroups dstGroups port proto =
  baseKeys srcGroups dstGroups port proto.
Proof.
  intros Hp Hq. by rewrite generateGroupPortKeys_spec.
Qed.

Lemma elem_of_baseKeys (srcGroups dstGroups : list Z) (port proto src dst : Z) :
  src ∈ orAny srcGroups -> dst ∈ orAny dstGroups ->
  portKey proto port src dst ∈ baseKeys srcGroups dstGroups port proto.
Proof.
  intros Hs Hd. unfold baseKeys.
  apply list_elem_of_In, in_flat_map. exists src.
  split; [by apply list_elem_of_In|].
  apply in_map. by apply list_elem_of_In.
Qed.

(** C8.  [generateSearchPortKeys] is the base set followed by the
    wildcarded variants (port=0, proto), (0, 0) and (port, 0), each
    present only when the field it wildcards is non-zero (the last one
    when both are); and whatever the port and the protocol, the list
    holds the key packing proto=0 and port=0 with every pair of groups of
    the wildcard-substituted lists. *)
Theorem generateSearchPortKeys_variants (srcGroups dstGroups : list Z) (port proto : Z) :
  is_uint16 port -> is_uint8 proto ->
  generateSearchPortKeys srcGroups dstGroups port proto =
    baseKeys srcGroups dstGroups port proto
    ++ (if decide (port ≠ 0) then baseKeys srcGroups dstGroups 0 proto else [])
    ++ (if decide (proto ≠ 0) then baseKeys srcGroups dstGroups 0 0 else [])
    ++ (if decide (proto ≠ 0 ∧ port ≠ 0) then baseKeys srcGroups dstGroups port 0 else [])
  ∧ (port ≠ 0 -> proto ≠ 0 ->
     generateSearchPortKeys srcGroups dstGroups port proto =
       baseKeys srcGroups dstGroups port proto ++ baseKeys srcGroups dstGroups 0 proto
       ++ baseKeys srcGroups dstGroups 0 0 ++ baseKeys srcGroups dstGroups port 0)
  ∧ (∀ src dst, src ∈ orAny srcGroups -> dst ∈ orAny dstGroups ->
     portKey 0 0 src dst ∈ generateSearchPortKeys srcGroups dstGroups port proto).
Proof.
  intros Hp Hq.
  assert (Heq : generateSearchPortKeys srcGroups dstGroups port proto =
    baseKeys srcGroups dstGroups port proto
    ++ (if decide (port ≠ 0) then baseKeys srcGroups dstGroups 0 proto else [])
    ++ (if decide (proto ≠ 0) then baseKeys srcGroups dstGroups 0 0 else [])
    ++ (if decide (proto ≠ 0 ∧ port ≠ 0) then baseKeys srcGroups dstGroups port 0 else [])).
  { unfold generateSearchPortKeys, ANY_PORT, ANY_PROTO.
    rewrite !generateGroupPortKeys_base by (auto using uint16_zero, uint8_zero).
    repeat case_decide; rewrite ?app_nil_r, <- ?app_assoc; reflexivity. }
  split; [exact Heq|]. split.
  - intros Hport Hproto. rewrite Heq.
    rewrite !decide_True by auto. reflexivity.
  - intros src dst Hs Hd. rewrite Heq.
    pose proof (elem_of_baseKeys srcGroups dstGroups 0 0 src dst Hs Hd) as Hin.
    destruct (decide (proto = 0)) as [->|Hproto].
    + destruct (decide (port = 0)) as [->|Hport].
      * apply elem_of_app. by left.
      * rewrite (decide_True _ _ Hport).
        apply elem_of_app. right. apply elem_of_app. by left.
    + rewrite (decide_True (P := proto ≠ 0)) by done.
      apply elem_of_app. right. apply elem_of_app. right.
      apply elem_of_app. by left.
Qed.

Lemma generateSearchPortKeys_variants_witness :
  Codec.generateSearchPortKeys [10] [20] 80 6 =
    baseKeys [10] [20] 80 6 ++ baseKeys [10] [20] 0 6
    ++ baseKeys [10] [20] 0 0 ++ baseKeys [10] [20] 80 0.
Proof.
  assert (H16 : is_uint16 80) by (unfold is_uint16; lia).
  assert (H8 : is_uint8 6) by (unfold is_uint8; lia).
  apply (proj1 (proj2 (generateSearchPortKeys_variants [10] [20] 80 6 H16 H8))); lia.
Defined.

End SearchKeys.

(** ** Vlan keys of the rule compiler *)

Section VlanKeys.
Import Codec.

Lemma aclVlanKeys_spec (acl : Acl) (direction : DirectionType) :
  aclVlanKeys acl direction =
  match direction with
  | FORWARD => keysOver (Z.shiftl (uint16 (Vlan acl)) 48)
                 (orAny (mapToSlice (SrcGroups acl))) (orAny (mapToSlice (DstGroups acl)))
  | BACKWARD => keysOver (Z.shiftl (uint16 (Vlan acl)) 48)
                 (orAny (mapToSlice (DstGroups acl))) (orAny (mapToSlice (SrcGroups acl)))
  end.
Proof.
  destruct direction; simpl;
    by rewrite generateGroupVlanKeys_spec by apply uint16_is_uint16.
Qed.

Lemma group_pair_below_48 (src dst : Z) :
  Z.shiftr (Z.lor (Z.shiftl (Z.land src GROUP_MASK) 20) (Z.land dst GROUP_MASK)) 48 = 0.
Proof.
  apply Z.bits_inj'. intros i Hi.
  rewrite Z.shiftr_spec, Z.bits_0 by lia.
  apply groups_low; [apply group_bits_range | lia].
Qed.

Lemma mergeAt_same (acl1 acl2 : Acl) (directions : option DirectionType) :
  Id acl1 = Id acl2 -> Action acl1 = Action acl2 ->
  mergeAt acl1 directions = mergeAt acl2 directions.
Proof. intros Hid Hact. unfold mergeAt. by rewrite Hid, Hact. Qed.

End VlanKeys.
(** ** Facts about the LRU primitive *)

Section LruFacts.
Context {V : Type}.
Implicit Types (c : lru.Cache V) (l : list (Z * V)).

Lemma assoc_without_ne l (k k' : Z) :
  k ≠ k' -> lru.assoc k (lru.without k' l) = lru.assoc k l.
Proof.
  intros Hne. unfold lru.without.
  induction l as [|[k0 v0] l IH]; [done|].
  rewrite filter_cons. simpl.
  destruct (decide (k0 ≠ k')) as [Hk|Hk]; simpl.
  - destruct (decide (k0 = k)); [done|apply IH].
  - destruct (decide (k0 = k)) as [->|]; [|apply IH].
    exfalso. apply Hk. done.
Qed.

Lemma assoc_without_eq l (k : Z) :
  lru.assoc k (lru.without k l) = None.
Proof.
  unfold lru.without.
  induction l as [|[k0 v0] l IH]; [done|].
  rewrite filter_cons. simpl.
  destruct (decide (k0 ≠ k)) as [Hk|Hk]; simpl; [|apply IH].
  destruct (decide (k0 = k)); [done|apply IH].
Qed.

(** The entry just added is found, whatever the capacity. *)
Lemma peek_Add_eq c (k : Z) v :
  lru.peek (lru.Add c k v) k = Some v.
Proof.
  unfold lru.peek, lru.Add.
  destruct (lru.assoc k (lru.ll c)) eqn:Hk; simpl.
  - by rewrite decide_True.
  - case_decide as Hcap; simpl.
    + destruct (lru.ll c) as [|e rest]; simpl in *; [lia|].
      by rewrite decide_True.
    + by rewrite decide_True.
Qed.

Lemma peek_touch c k k' : lru.peek (lru.touch c k) k' = lru.peek c k'.
Proof.
  unfold lru.peek, lru.touch.
  destruct (lru.assoc k (lru.ll c)) as [v|] eqn:Hk; [simpl|done].
  destruct (decide (k = k')) as [<-|Hne]; [done|].
  by apply assoc_without_ne.
Qed.

Lemma peek_Remove c k k' :
  lru.peek (lru.Remove c k) k' = if decide (k = k') then None else lru.peek c k'.
Proof.
  unfold lru.peek, lru.Remove. simpl.
  destruct (decide (k = k')) as [<-|Hne].
  - apply assoc_without_eq.
  - by apply assoc_without_ne.
Qed.

Lemma peek_poke c k v k' :
  lru.peek (lru.poke c k v) k' =
  if decide (k = k') then (fun _ => v) <$> lru.peek c k else lru.peek c k'.
Proof.
  unfold lru.peek, lru.poke. simpl.
  destruct (decide (k = k')) as [<-|Hne].
  - induction (lru.ll c) as [|[k0 v0] l IH]; simpl; [done|].
    destruct (decide (k0 = k)) as [->|Hk0]; simpl.
    + by rewrite decide_True.
    + by rewrite decide_False.
  - induction (lru.ll c) as [|[k0 v0] l IH]; simpl; [done|].
    destruct (decide (k0 = k)) as [->|Hk0]; simpl.
    + by rewrite !decide_False.
    + destruct (decide (k0 = k')); [done|apply IH].
Qed.

Lemma atFront_touch c k : is_Some (lru.peek c k) -> atFront (lru.touch c k) k.
Proof.
  intros [v Hv]. unfold lru.peek in Hv. unfold lru.touch, atFront. rewrite Hv. simpl. eauto.
Qed.

Lemma atFront_Add c k v : atFront (lru.Add c k v) k.
Proof.
  unfold lru.Add, atFront.
  destruct (lru.assoc k (lru.ll c)); simpl; [eauto|].
  case_decide as Hcap; simpl; [|eauto].
  destruct (lru.ll c) as [|e rest]; simpl in *; [lia|eauto].
Qed.

Lemma atFront_poke c k v k' : atFront c k' -> atFront (lru.poke c k v) k'.
Proof.
  intros (v' & rest & Hl). unfold atFront, lru.poke. rewrite Hl. simpl.
  case_decide; simpl in *; subst; eauto.
Qed.

Lemma atFront_peek c k : atFront c k -> is_Some (lru.peek c k).
Proof.
  intros (v & rest & Hl). unfold lru.peek. rewrite Hl. simpl.
  rewrite decide_True by done. eauto.
Qed.

(** Adding or refreshing one key leaves another key alone when the
    added key was already there. *)
Lemma peek_Add_ne_present c k v k' :
  k ≠ k' -> is_Some (lru.peek c k) -> lru.peek (lru.Add c k v) k' = lru.peek c k'.
Proof.
  intros Hne [v0 Hv0]. unfold lru.peek in *. unfold lru.Add. rewrite Hv0. simpl.
  rewrite decide_False by done. by apply assoc_without_ne.
Qed.

(** A new key never evicts the most recently used one, unless the
    capacity is one. *)
Lemma peek_Add_ne_front c k v k' :
  k ≠ k' -> atFront c k' -> lru.MaxEntries c ≠ 1%nat ->
  lru.peek (lru.Add c k v) k' = lru.peek c k'.
Proof.
  intros Hne (v' & rest & Hl) Hcap.
  destruct (lru.peek c k) as [v0|] eqn:Hk.
  { apply peek_Add_ne_present; eauto. }
  unfold lru.peek in *. unfold lru.Add. rewrite Hk, Hl. simpl.
  case_decide as Hfull; simpl.
  - destruct rest as [|e rest]; simpl in *; [lia|].
    rewrite (decide_False (P := k = k')) by done.
    by rewrite !(decide_True (P := k' = k')).
  - by rewrite (decide_False (P := k = k')).
Qed.

Lemma MaxEntries_touch c k : lru.MaxEntries (lru.touch c k) = lru.MaxEntries c.
Proof. unfold lru.touch. by destruct (lru.assoc k (lru.ll c)). Qed.

Lemma MaxEntries_Add c k v : lru.MaxEntries (lru.Add c k v) = lru.MaxEntries c.
Proof.
  unfold lru.Add. destruct (lru.assoc k (lru.ll c)); [done|]. by case_decide.
Qed.

Lemma MaxEntries_poke c k v : lru.MaxEntries (lru.poke c k v) = lru.MaxEntries c.
Proof. done. Qed.

End LruFacts.

(** ** Netmask learner *)

Section Netmask.

Implicit Types m : gmap Z Z.

Lemma maskOf_insert m k v k' :
  maskOf (<[k := v]> m) k' = if decide (k = k') then v else maskOf m k'.
Proof.
  unfold maskOf. rewrite lookup_insert.
  by destruct (decide (k = k')).
Qed.

Lemma maskOf_Some m k v : m !! k = Some v -> maskOf m k = v.
Proof. unfold maskOf. by intros ->. Qed.

Lemma maskOf_range m k :
  maskInRange m -> maskOf m k = 0 ∨ 0xFFFF0000 <= maskOf m k <= 0xFFFFFFFF.
Proof.
  intros Hm. unfold maskOf.
  destruct (m !! k) as [v|] eqn:Hk; simpl; [right|by left].
  exact (Hm k v Hk).
Qed.

(** *** The copy made by [makeIpNetmaskMap] *)

Lemma makeIpNetmaskMap_filter m :
  makeIpNetmaskMap m = filter (fun kv => 0 < snd kv) m.
Proof.
  unfold makeIpNetmaskMap.
  apply (map_fold_weak_ind (fun r m => r = filter (fun kv => 0 < snd kv) m)).
  - by rewrite map_filter_empty.
  - intros k v m' r Hk ->. unfold raiseMask, maskOf.
    rewrite map_lookup_filter, Hk. simpl.
    destruct (Z.ltb_spec 0 v) as [Hpos|Hnpos].
    + by rewrite map_filter_insert_True.
    + rewrite map_filter_insert_False by (simpl; lia).
      by rewrite delete_id.
Qed.

Lemma makeIpNetmaskMap_id m : maskInRange m -> makeIpNetmaskMap m = m.
Proof.
  intros Hm. rewrite makeIpNetmaskMap_filter.
  apply map_filter_id. intros k v Hk. simpl.
  specialize (Hm k v Hk). simpl in Hm. lia.
Qed.

Lemma makeIpNetmaskMap_lookup m k v :
  makeIpNetmaskMap m !! k = Some v ↔ m !! k = Some v ∧ 0 < v.
Proof. rewrite makeIpNetmaskMap_filter. apply map_lookup_filter_Some. Qed.

(** *** One step never lowers a mask and keeps the masks in range *)



Lemma extends_refl m : extends m m.
Proof. intros k. lia. Qed.

Lemma extends_trans m1 m2 m3 : extends m1 m2 -> extends m2 m3 -> extends m1 m3.
Proof. intros H12 H23 k. specialize (H12 k). specialize (H23 k). lia. Qed.

Lemma raiseMask_extends m k v : extends m (raiseMask m k v).
Proof.
  unfold raiseMask. destruct (Z.ltb_spec (maskOf m k) v); [|apply extends_refl].
  intros k'. rewrite maskOf_insert. case_decide; subst; lia.
Qed.

Lemma seedAt_extends m ip mask : extends m (seedAt m ip mask).
Proof.
  unfold seedAt.
  destruct (Z.leb_spec NET16 mask); simpl; [|apply extends_refl].
  apply (raiseMask_extends m (Z.land ip NET16) mask).
Qed.

Lemma refineAt_extends m ip : extends m (refineAt m ip).
Proof. apply raiseMask_extends. Qed.

Lemma seedItem_extends m it : extends m (seedItem m it).
Proof.
  unfold seedItem. destruct (seedOf it) as [[ip mask]|];
    [apply seedAt_extends|apply extends_refl].
Qed.

Lemma refineItem_extends m it : extends m (refineItem m it).
Proof.
  unfold refineItem. destruct (refineOf it);
    [apply refineAt_extends|apply extends_refl].
Qed.

Lemma fold_extends {A} (f : gmap Z Z -> A -> gmap Z Z) (items : list A) m :
  (∀ m a, extends m (f m a)) -> extends m (fold_left f items m).
Proof.
  intros Hf. revert m. induction items as [|a items IH]; intros m; simpl.
  - apply extends_refl.
  - eapply extends_trans; [apply Hf|apply IH].
Qed.

Lemma shl32_range x s : 0 <= shl32 x s < 2 ^ 32.
Proof.
  unfold shl32, uint32. destruct (32 <=? s); [lia|].
  apply Z.mod_pos_bound. lia.
Qed.

Lemma insert_inRange m k v :
  maskInRange m -> 0xFFFF0000 <= v <= 0xFFFFFFFF -> maskInRange (<[k := v]> m).
Proof. intros Hm Hv. by apply map_Forall_insert_2. Qed.

Lemma seedAt_inRange m ip mask :
  0 <= mask < 2 ^ 32 -> maskInRange m -> maskInRange (seedAt m ip mask).
Proof.
  intros Hmask Hm. unfold seedAt, NET16.
  destruct (Z.leb_spec 0xffff0000 mask); simpl; [|done].
  destruct (Z.ltb_spec (maskOf m (Z.land ip 0xffff0000)) mask); [|done].
  apply insert_inRange; [done|lia].
Qed.

Lemma refineAt_inRange m ip : maskInRange m -> maskInRange (refineAt m ip).
Proof.
  intros Hm. unfold refineAt, raiseMask.
  set (mask := maskOf m (Z.land ip NET16)).
  destruct (Z.ltb_spec (maskOf m (Z.land ip mask)) mask) as [Hlt|]; [|done].
  apply insert_inRange; [done|].
  destruct (maskOf_range m (Z.land ip NET16) Hm) as [Hz|Hr]; [|exact Hr].
  destruct (maskOf_range m (Z.land ip mask) Hm); fold mask in Hz; lia.
Qed.

Lemma seedItem_inRange m it :
  typedItem it -> maskInRange m -> maskInRange (seedItem m it).
Proof.
  unfold typedItem, seedItem. destruct (seedOf it) as [[ip mask]|]; [|done].
  apply seedAt_inRange.
Qed.

Lemma refineItem_inRange m it : maskInRange m -> maskInRange (refineItem m it).
Proof.
  unfold refineItem. destruct (refineOf it); [apply refineAt_inRange|done].
Qed.

Lemma fold_inRange {A} (f : gmap Z Z -> A -> gmap Z Z) (Q : A -> Prop)
    (items : list A) m :
  (∀ m a, Q a -> maskInRange m -> maskInRange (f m a)) ->
  Forall Q items -> maskInRange m -> maskInRange (fold_left f items m).
Proof.
  intros Hf Hall. revert m.
  induction Hall as [|a items Ha _ IH]; intros m Hm; simpl; [done|].
  apply IH. by apply Hf.
Qed.

(** *** The learners as two passes over decoded items *)

Lemma seedNetwork_item m network : seedNetwork m network = seedItem m (networkItem network).
Proof. reflexivity. Qed.

Lemma refineNetwork_item m network :
  refineNetwork m network = refineItem m (networkItem network).
Proof. reflexivity. Qed.

Lemma seedRaw_item `{NetText} m raw : seedRaw m raw = seedItem m (rawItem raw).
Proof.
  unfold seedRaw, rawItem, seedItem.
  destruct (splitSlash raw) as [|p0 [|p1 [|p2 rest]]]; try done.
  simpl. by destruct (Atoi p1).
Qed.

Lemma refineRaw_item `{NetText} m raw : refineRaw m raw = refineItem m (rawItem raw).
Proof.
  unfold refineRaw, rawItem, refineItem.
  by destruct (splitSlash raw) as [|p0 [|p1 [|p2 rest]]].
Qed.

Lemma fold_left_ext_eq {A B} (f g : B -> A -> B) (items : list A) (b : B) :
  (∀ b a, f b a = g b a) -> fold_left f items b = fold_left g items b.
Proof.
  intros Hfg. revert b. induction items as [|a items IH]; intros b; simpl; [done|].
  by rewrite Hfg, IH.
Qed.

Lemma fold_left_map_items {A B C} (f : B -> C -> B) (g : A -> C) (items : list A) (b : B) :
  fold_left f (map g items) b = fold_left (fun b a => f b (g a)) items b.
Proof.
  revert b. induction items as [|a items IH]; intros b; simpl; [done|apply IH].
Qed.

Lemma fold_left_nested {A B C} (f : B -> C -> B) (inner : A -> list C)
    (items : list A) (b : B) :
  fold_left (fun b a => fold_left f (inner a) b) items b =
  fold_left f (concat (map inner items)) b.
Proof.
  revert b. induction items as [|a items IH]; intros b; simpl; [done|].
  by rewrite fold_left_app, IH.
Qed.

Lemma GenerateIpNetmaskMap_items m platforms :
  GenerateIpNetmaskMap m platforms =
  learnItems (makeIpNetmaskMap m) (platformItems platforms).
Proof.
  unfold GenerateIpNetmaskMap, learnItems, platformItems.
  rewrite !fold_left_nested, !fold_left_map_items. reflexivity.
Qed.

Lemma GenerateIpNetmaskMapFromIpResource_items `{NetText} m datas :
  GenerateIpNetmaskMapFromIpResource m datas =
  fold_left (fun mm data => learnItems mm (map rawItem (IpGroupData.Ips data)))
            datas (makeIpNetmaskMap m).
Proof.
  unfold GenerateIpNetmaskMapFromIpResource, learnItems.
  apply fold_left_ext_eq. intros mm data.
  rewrite !fold_left_map_items.
  rewrite (fold_left_ext_eq seedRaw (fun b a => seedItem b (rawItem a)))
    by apply seedRaw_item.
  apply fold_left_ext_eq, refineRaw_item.
Qed.

Lemma networkItem_typed network : typedItem (networkItem network).
Proof. unfold typedItem. simpl. apply shl32_range. Qed.

Lemma rawItem_typed `{NetText} raw : typedItem (rawItem raw).
Proof.
  unfold typedItem, rawItem.
  destruct (splitSlash raw) as [|p0 [|p1 [|p2 rest]]]; try done.
  simpl. destruct (Atoi p1); [apply shl32_range|done].
Qed.

Lemma platformItems_typed platforms : Forall typedItem (platformItems platforms).
Proof. apply Forall_forall. intros it Hit. apply list_elem_of_fmap in Hit as (n & -> & _). apply networkItem_typed. Qed.

Lemma rawItems_typed `{NetText} raws : Forall typedItem (map rawItem raws).
Proof. apply Forall_forall. intros it Hit. apply list_elem_of_fmap in Hit as (n & -> & _). apply rawItem_typed. Qed.

Lemma learnItems_extends m items : extends m (learnItems m items).
Proof.
  unfold learnItems.
  apply (extends_trans _ (fold_left seedItem items m)).
  - apply fold_extends, seedItem_extends.
  - apply fold_extends, refineItem_extends.
Qed.

Lemma learnItems_inRange m items :
  Forall typedItem items -> maskInRange m -> maskInRange (learnItems m items).
Proof.
  intros Hty Hm. unfold learnItems.
  apply (fold_inRange refineItem (fun _ => True)).
  - intros m' a _. apply refineItem_inRange.
  - by apply Forall_true.
  - by apply (fold_inRange seedItem typedItem); [apply seedItem_inRange| |].
Qed.

Lemma makeIpNetmaskMap_inRange m : maskInRange m -> maskInRange (makeIpNetmaskMap m).
Proof. intros Hm. by rewrite makeIpNetmaskMap_id. Qed.

Lemma learn_inRange `{NetText} m c : maskInRange m -> maskInRange (learn m c).
Proof.
  intros Hm. destruct c as [platforms|datas]; simpl.
  - rewrite GenerateIpNetmaskMap_items.
    apply learnItems_inRange; [apply platformItems_typed|by apply makeIpNetmaskMap_inRange].
  - rewrite GenerateIpNetmaskMapFromIpResource_items.
    apply (fold_inRange _ (fun _ => True)).
    + intros m' data _. apply learnItems_inRange, rawItems_typed.
    + by apply Forall_true.
    + by apply makeIpNetmaskMap_inRange.
Qed.

Lemma learn_extends_copy `{NetText} m c : extends (makeIpNetmaskMap m) (learn m c).
Proof.
  destruct c as [platforms|datas]; simpl.
  - rewrite GenerateIpNetmaskMap_items. apply learnItems_extends.
  - rewrite GenerateIpNetmaskMapFromIpResource_items.
    apply fold_extends. intros m' data. apply learnItems_extends.
Qed.

Lemma learnAll_snoc `{NetText} history c :
  learnAll (history ++ [c]) = learn (learnAll history) c.
Proof. unfold learnAll. by rewrite fold_left_app. Qed.

Lemma learnAll_inRange `{NetText} history : maskInRange (learnAll history).
Proof.
  induction history as [|c history IH] using rev_ind.
  - unfold learnAll. simpl. apply map_Forall_empty.
  - rewrite learnAll_snoc. by apply learn_inRange.
Qed.

(** A call never lowers a recorded mask, whatever the table it starts
    from. *)
Lemma learn_never_lowers `{NetText} m c k v v' :
  m !! k = Some v -> learn m c !! k = Some v' -> v <= v'.
Proof.
  intros Hk Hk'.
  pose proof (learn_extends_copy m c k) as Hext.
  rewrite (maskOf_Some _ _ _ Hk') in Hext.
  destruct (Z.ltb_spec 0 v) as [Hpos|Hnpos].
  - assert (Hcopy : makeIpNetmaskMap m !! k = Some v)
      by (by apply makeIpNetmaskMap_lookup).
    by rewrite (maskOf_Some _ _ _ Hcopy) in Hext.
  - assert (Hge : 0 <= maskOf (makeIpNetmaskMap m) k).
    { unfold maskOf. destruct (makeIpNetmaskMap m !! k) as [w|] eqn:Hw; simpl; [|lia].
      apply makeIpNetmaskMap_lookup in Hw. lia. }
    lia.
Qed.

Lemma learn_keeps_entries `{NetText} m c k v :
  maskInRange m -> m !! k = Some v -> ∃ v', learn m c !! k = Some v' ∧ v <= v'.
Proof.
  intros Hm Hk.
  pose proof (Hm k v Hk) as Hv. simpl in Hv.
  assert (Hcopy : makeIpNetmaskMap m !! k = Some v)
    by (apply makeIpNetmaskMap_lookup; split; [done|lia]).
  pose proof (learn_extends_copy m c k) as Hext.
  rewrite (maskOf_Some _ _ _ Hcopy) in Hext.
  unfold maskOf in Hext.
  destruct (learn m c !! k) as [v'|]; simpl in Hext; [|lia].
  by exists v'.
Qed.

(** C6.  After any sequence of calls of the two learners, starting from
    the empty table, every recorded mask lies in [0xFFFF0000,
    0xFFFFFFFF]; a further call keeps every recorded key and never
    replaces its mask by a smaller one (and no call does so from any
    table at all). *)
Theorem ip_netmask_range_and_monotone `{NetText} (history : list LearnCall) :
  (∀ k mask, learnAll history !! k = Some mask -> 0xFFFF0000 <= mask <= 0xFFFFFFFF)
  ∧ (∀ c k mask, learnAll history !! k = Some mask ->
       ∃ mask', learnAll (history ++ [c]) !! k = Some mask' ∧ mask <= mask')
  ∧ (∀ m c k mask mask',
       m !! k = Some mask -> learn m c !! k = Some mask' -> mask <= mask').
Proof.
  split; [|split].
  - intros k mask Hk. exact (learnAll_inRange history k mask Hk).
  - intros c k mask Hk. rewrite learnAll_snoc.
    by apply learn_keeps_entries; [apply learnAll_inRange|].
  - intros m c k mask mask'. apply learn_never_lowers.
Qed.

Lemma ip_netmask_range_and_monotone_witness :
  ∃ mask', learnAll (H := dottedQuadText)
             ([FromIpResource [IpGroupData.mk 1 1 ["10.0.0.0/24"%string]]]
              ++ [FromPlatforms [mkPlatformData 1 [mkIpNet 0x0A000105 28 0] 1 0]])
           !! 0x0A000000 = Some mask' ∧ 0xFFFFFF00 <= mask'.
Proof.
  apply (proj1 (proj2 (ip_netmask_range_and_monotone (H := dottedQuadText)
           [FromIpResource [IpGroupData.mk 1 1 ["10.0.0.0/24"%string]]]))).
  vm_compute. reflexivity.
Defined.

(** *** A second pass over the same batch changes nothing *)

Lemma mask_covers_net16 mask :
  0xFFFF0000 <= mask <= 0xFFFFFFFF -> Z.land mask NET16 = NET16.
Proof.
  intros Hmask. unfold NET16.
  change 0xffff0000 with (Z.shiftl (Z.ones 16) 16).
  apply Z.bits_inj'. intros i Hi.
  rewrite Z.land_spec.
  destruct (Z.testbit (Z.shiftl (Z.ones 16) 16) i) eqn:Hbit; [|apply andb_false_r].
  rewrite andb_true_r.
  rewrite Z.shiftl_spec in Hbit by lia.
  destruct (Z.ltb_spec (i - 16) 0) as [Hlow|Hhigh].
  { rewrite Z.testbit_neg_r in Hbit by lia. discriminate. }
  destruct (Z.ltb_spec (i - 16) 16) as [Hin|Hout].
  2: { rewrite Z.ones_spec_high in Hbit by lia. discriminate. }
  replace i with ((i - 16) + 16) by lia.
  rewrite <- Z.shiftr_spec by lia.
  rewrite Z.shiftr_div_pow2 by lia.
  replace (mask / 2 ^ 16) with (Z.ones 16).
  - apply Z.ones_spec_low. lia.
  - change (Z.ones 16) with 65535.
    apply Z.div_unique with (r := mask - 65535 * 2 ^ 16); lia.
Qed.

(** The refine pass never writes the key of a /16 bucket. *)
Lemma refineAt_bucket_stable m ip x :
  maskInRange m ->
  maskOf (refineAt m ip) (Z.land x NET16) = maskOf m (Z.land x NET16).
Proof.
  intros Hm. unfold refineAt, raiseMask.
  set (mask := maskOf m (Z.land ip NET16)).
  destruct (Z.ltb_spec (maskOf m (Z.land ip mask)) mask) as [Hlt|]; [|done].
  rewrite maskOf_insert. case_decide as Heq; [|done].
  exfalso.
  destruct (maskOf_range m (Z.land ip NET16) Hm) as [Hz|Hr].
  - fold mask in Hz. destruct (maskOf_range m (Z.land ip mask) Hm); lia.
  - fold mask in Hr. assert (Hb : Z.land ip mask = Z.land ip NET16).
    { transitivity (Z.land (Z.land ip mask) NET16).
      - rewrite Heq, <- Z.land_assoc, Z.land_diag. reflexivity.
      - rewrite <- Z.land_assoc, mask_covers_net16 by done. reflexivity. }
    rewrite Hb in Hlt. fold mask in Hlt. lia.
Qed.

Lemma refineItem_bucket_stable m it x :
  maskInRange m ->
  maskOf (refineItem m it) (Z.land x NET16) = maskOf m (Z.land x NET16).
Proof.
  intros Hm. unfold refineItem.
  destruct (refineOf it); [by apply refineAt_bucket_stable|done].
Qed.

Lemma seedItem_seeded m it : seeded (seedItem m it) it.
Proof.
  unfold seeded, seedItem, seedAt.
  destruct (seedOf it) as [[ip mask]|]; [|done].
  intros Hge. destruct (Z.leb_spec NET16 mask); [simpl|lia].
  destruct (Z.ltb_spec (maskOf m (Z.land ip NET16)) mask); [|lia].
  rewrite maskOf_insert, decide_True by done. lia.
Qed.

Lemma seeded_extends m m' it : extends m m' -> seeded m it -> seeded m' it.
Proof.
  unfold seeded. intros Hext. destruct (seedOf it) as [[ip mask]|]; [|done].
  intros Hs Hge. specialize (Hs Hge). specialize (Hext (Z.land ip NET16)). lia.
Qed.

Lemma seeded_noop m it : seeded m it -> seedItem m it = m.
Proof.
  unfold seeded, seedItem, seedAt.
  destruct (seedOf it) as [[ip mask]|]; [|done].
  intros Hs. destruct (Z.leb_spec NET16 mask); [simpl|done].
  destruct (Z.ltb_spec (maskOf m (Z.land ip NET16)) mask); [|done].
  specialize (Hs ltac:(done)). lia.
Qed.

Lemma refined_noop m it : refined m it -> refineItem m it = m.
Proof.
  unfold refined, refineItem, refineAt, raiseMask.
  destruct (refineOf it) as [ip|]; [|done].
  intros Hr. destruct (Z.ltb_spec (maskOf m (Z.land ip (maskOf m (Z.land ip NET16))))
                                  (maskOf m (Z.land ip NET16))); [lia|done].
Qed.

Lemma refineItem_refined m it : maskInRange m -> refined (refineItem m it) it.
Proof.
  intros Hm. unfold refined.
  destruct (refineOf it) as [ip|] eqn:Hit; [|done].
  rewrite (refineItem_bucket_stable m it ip Hm).
  unfold refineItem. rewrite Hit. unfold refineAt, raiseMask.
  set (mask := maskOf m (Z.land ip NET16)).
  destruct (Z.ltb_spec (maskOf m (Z.land ip mask)) mask); [|done].
  rewrite maskOf_insert, decide_True by done. lia.
Qed.

Lemma refined_preserved m it it' :
  maskInRange m -> refined m it -> refined (refineItem m it') it.
Proof.
  intros Hm. unfold refined.
  destruct (refineOf it) as [ip|]; [|done].
  rewrite (refineItem_bucket_stable m it' ip Hm). intros Hr.
  pose proof (refineItem_extends m it'
                (Z.land ip (maskOf m (Z.land ip NET16)))). lia.
Qed.

Lemma fold_noop {A} (f : gmap Z Z -> A -> gmap Z Z) (items : list A) m :
  Forall (fun a => f m a = m) items -> fold_left f items m = m.
Proof.
  induction 1 as [|a items Ha _ IH]; simpl; [done|]. by rewrite Ha.
Qed.

(** A pass establishes its "nothing left to do" property for every item
    it has run over. *)
Lemma fold_establishes {A} (f : gmap Z Z -> A -> gmap Z Z)
    (I : gmap Z Z -> Prop) (P : gmap Z Z -> A -> Prop) (items : list A) m :
  (∀ m a, I m -> I (f m a)) ->
  (∀ m a, I m -> P (f m a) a) ->
  (∀ m a b, I m -> P m a -> P (f m b) a) ->
  I m -> Forall (P (fold_left f items m)) items.
Proof.
  intros HI Hnew Hkeep.
  assert (Hfold : ∀ rest m a, I m -> P m a -> P (fold_left f rest m) a).
  { induction rest as [|b rest IH]; intros m' a Hm Ha; simpl; [done|].
    apply IH; [by apply HI|by apply Hkeep]. }
  revert m. induction items as [|a items IH]; intros m Hm; simpl; [done|].
  constructor.
  - apply Hfold; [by apply HI|by apply Hnew].
  - apply IH. by apply HI.
Qed.

Lemma learnItems_idempotent m items :
  maskInRange m -> Forall typedItem items ->
  learnItems (learnItems m items) items = learnItems m items.
Proof.
  intros Hm Hty.
  set (m1 := fold_left seedItem items m).
  assert (Hm1 : maskInRange m1)
    by (by apply (fold_inRange seedItem typedItem); [apply seedItem_inRange| |]).
  assert (Hs1 : Forall (seeded m1) items).
  { apply (fold_establishes seedItem (fun _ => True)); try done.
    - intros m' a _. apply seedItem_seeded.
    - intros m' a b _. apply seeded_extends, seedItem_extends. }
  set (m2 := fold_left refineItem items m1).
  assert (Hs2 : Forall (seeded m2) items).
  { eapply Forall_impl; [exact Hs1|]. intros it.
    apply seeded_extends, fold_extends, refineItem_extends. }
  assert (Hr2 : Forall (refined m2) items).
  { apply (fold_establishes refineItem maskInRange); try done.
    - intros m' a. apply refineItem_inRange.
    - intros m' a. apply refineItem_refined.
    - intros m' a b. apply refined_preserved. }
  change (learnItems m items) with m2.
  unfold learnItems.
  rewrite (fold_noop seedItem items m2).
  - apply fold_noop. eapply Forall_impl; [exact Hr2|]. intros it. apply refined_noop.
  - eapply Forall_impl; [exact Hs2|]. intros it. apply seeded_noop.
Qed.

Lemma GenerateIpNetmaskMap_idempotent m platforms :
  maskInRange m ->
  GenerateIpNetmaskMap (GenerateIpNetmaskMap m platforms) platforms =
  GenerateIpNetmaskMap m platforms.
Proof.
  intros Hm. rewrite !GenerateIpNetmaskMap_items.
  rewrite (makeIpNetmaskMap_id (learnItems _ _)).
  - apply learnItems_idempotent;
      [by apply makeIpNetmaskMap_inRange|apply platformItems_typed].
  - apply learnItems_inRange;
      [apply platformItems_typed|by apply makeIpNetmaskMap_inRange].
Qed.

Lemma GenerateIpNetmaskMapFromIpResource_idempotent `{NetText} m data :
  maskInRange m ->
  GenerateIpNetmaskMapFromIpResource
    (GenerateIpNetmaskMapFromIpResource m [data]) [data] =
  GenerateIpNetmaskMapFromIpResource m [data].
Proof.
  intros Hm. rewrite !GenerateIpNetmaskMapFromIpResource_items. simpl.
  rewrite (makeIpNetmaskMap_id (learnItems _ _)).
  - apply learnItems_idempotent;
      [by apply makeIpNetmaskMap_inRange|apply rawItems_typed].
  - apply learnItems_inRange;
      [apply rawItems_typed|by apply makeIpNetmaskMap_inRange].
Qed.

Lemma twoPassFromIpResource_items `{NetText} m datas :
  twoPassFromIpResource m datas =
  learnItems (makeIpNetmaskMap m) (map rawItem (concat (map IpGroupData.Ips datas))).
Proof.
  unfold twoPassFromIpResource, learnItems.
  rewrite !fold_left_map_items.
  rewrite (fold_left_ext_eq refineRaw (fun b a => refineItem b (rawItem a)))
    by apply refineRaw_item.
  by rewrite (fold_left_ext_eq seedRaw (fun b a => seedItem b (rawItem a)))
    by apply seedRaw_item.
Qed.

Lemma twoPassFromIpResource_idempotent `{NetText} m datas :
  maskInRange m ->
  twoPassFromIpResource (twoPassFromIpResource m datas) datas =
  twoPassFromIpResource m datas.
Proof.
  intros Hm. rewrite !twoPassFromIpResource_items.
  rewrite (makeIpNetmaskMap_id (learnItems _ _)).
  - apply learnItems_idempotent;
      [by apply makeIpNetmaskMap_inRange|apply rawItems_typed].
  - apply learnItems_inRange;
      [apply rawItems_typed|by apply makeIpNetmaskMap_inRange].
Qed.

Lemma one_group_is_two_pass `{NetText} m data :
  GenerateIpNetmaskMapFromIpResource m [data] = twoPassFromIpResource m [data].
Proof.
  unfold GenerateIpNetmaskMapFromIpResource, twoPassFromIpResource. simpl.
  by rewrite app_nil_r.
Qed.

(** The two loop bodies on a well-formed entry, once its address is
    decoded. *)
Lemma seedRaw_decoded `{NetText} m raw part0 part1 maskSize :
  splitSlash raw = [part0; part1] -> Atoi part1 = Some maskSize ->
  seedRaw m raw = seedAt m (IpToUint32 (ParseIP part0))
                          (shl32 MaxUint32 (uint32 (32 - maskSize))).
Proof. intros Hsplit Hlen. unfold seedRaw, seedAt. by rewrite Hsplit, Hlen. Qed.

Lemma refineRaw_decoded `{NetText} m raw part0 part1 :
  splitSlash raw = [part0; part1] ->
  refineRaw m raw = refineAt m (IpToUint32 (ParseIP part0)).
Proof. intros Hsplit. unfold refineRaw, refineAt. by rewrite Hsplit. Qed.

(** With two groups in one /16, the second of which brings the longer
    mask, the first call leaves the first group's network under the
    shorter mask and a second call raises it. *)
Lemma two_groups_second_call_differs `{NetText} :
  IpToUint32 (ParseIP "10.0.1.5") = 0x0A000105 ->
  IpToUint32 (ParseIP "10.0.2.7") = 0x0A000207 ->
  GenerateIpNetmaskMapFromIpResource ∅ twoGroups !! 0x0A000100 = Some 0xFFFFFF00
  ∧ twoPassFromIpResource ∅ twoGroups !! 0x0A000100 = Some 0xFFFFFFF0
  ∧ GenerateIpNetmaskMapFromIpResource
      (GenerateIpNetmaskMapFromIpResource ∅ twoGroups) twoGroups !! 0x0A000100
    = Some 0xFFFFFFF0.
Proof.
  intros Ha Hb.
  assert (Hs1 : ∀ m, seedRaw m "10.0.1.5/24" = seedAt m 0x0A000105 0xFFFFFF00).
  { intros m. rewrite (seedRaw_decoded m _ "10.0.1.5" "24" 24) by reflexivity.
    by rewrite Ha. }
  assert (Hs2 : ∀ m, seedRaw m "10.0.2.7/28" = seedAt m 0x0A000207 0xFFFFFFF0).
  { intros m. rewrite (seedRaw_decoded m _ "10.0.2.7" "28" 28) by reflexivity.
    by rewrite Hb. }
  assert (Hr1 : ∀ m, refineRaw m "10.0.1.5/24" = refineAt m 0x0A000105).
  { intros m. rewrite (refineRaw_decoded m _ "10.0.1.5" "24") by reflexivity.
    by rewrite Ha. }
  assert (Hr2 : ∀ m, refineRaw m "10.0.2.7/28" = refineAt m 0x0A000207).
  { intros m. rewrite (refineRaw_decoded m _ "10.0.2.7" "28") by reflexivity.
    by rewrite Hb. }
  unfold GenerateIpNetmaskMapFromIpResource, twoPassFromIpResource, twoGroups.
  cbn [fold_left IpGroupData.Ips map concat app].
  rewrite !Hs1, !Hs2, !Hr1, !Hr2.
  split; [|split]; vm_compute; reflexivity.
Qed.

(** C7.  [GenerateIpNetmaskMap] keeps the claim: on the table reached by
    any history of learner calls, a second call in succession with the
    same platforms leaves the table of the first.  So does the two-pass
    learner of the specification for IP groups, on every input; and
    [GenerateIpNetmaskMapFromIpResource] is that learner when the input
    holds one group.  With more groups it is not: it seeds and refines
    each group before it seeds the next.  On the empty table and the two
    groups ["10.0.1.5/24"], ["10.0.2.7/28"] (whatever the text decoder,
    as long as it reads the two addresses as 10.0.1.5 and 10.0.2.7) the
    first call leaves 10.0.1.0 under the mask /24, where the two-pass
    learner records /28, and the second call with the same input raises
    it to /28: the two tables differ. *)
Theorem ip_resource_learner_not_idempotent :
  (∀ (N : NetText) (history : list LearnCall) (platforms : list PlatformData),
     GenerateIpNetmaskMap (GenerateIpNetmaskMap (learnAll (H := N) history) platforms)
                          platforms =
     GenerateIpNetmaskMap (learnAll (H := N) history) platforms)
  ∧ (∀ (N : NetText) (history : list LearnCall) (datas : list IpGroupData.t),
       twoPassFromIpResource (H := N)
         (twoPassFromIpResource (H := N) (learnAll (H := N) history) datas) datas =
       twoPassFromIpResource (H := N) (learnAll (H := N) history) datas)
  ∧ (∀ (N : NetText) (m : gmap Z Z) (data : IpGroupData.t),
       GenerateIpNetmaskMapFromIpResource (H := N) m [data] =
       twoPassFromIpResource (H := N) m [data])
  ∧ (∀ (N : NetText),
       IpToUint32 (ParseIP "10.0.1.5") = 0x0A000105 ->
       IpToUint32 (ParseIP "10.0.2.7") = 0x0A000207 ->
       let first := GenerateIpNetmaskMapFromIpResource (H := N)
                      (learnAll (H := N) []) twoGroups in
       let second := GenerateIpNetmaskMapFromIpResource (H := N) first twoGroups in
       first !! 0x0A000100 = Some 0xFFFFFF00
       ∧ twoPassFromIpResource (H := N) (learnAll (H := N) []) twoGroups !! 0x0A000100
         = Some 0xFFFFFFF0
       ∧ second !! 0x0A000100 = Some 0xFFFFFFF0
       ∧ second ≠ first).
Proof.
  split; [|split; [|split]].
  - intros N history platforms.
    apply GenerateIpNetmaskMap_idempotent, learnAll_inRange.
  - intros N history datas.
    apply twoPassFromIpResource_idempotent, learnAll_inRange.
  - intros N m data. apply one_group_is_two_pass.
  - intros N Ha Hb first second.
    destruct (two_groups_second_call_differs (H := N) Ha Hb) as (H1 & Hspec & H2).
    change (learnAll (H := N) []) with (∅ : gmap Z Z) in *.
    split; [exact H1|]. split; [exact Hspec|]. split; [exact H2|].
    intros Heq. subst first second. rewrite Heq in H2. rewrite H1 in H2.
    clear -H2. discriminate H2.
Qed.

Lemma ip_resource_learner_not_idempotent_witness :
  GenerateIpNetmaskMapFromIpResource (H := dottedQuadText)
    (GenerateIpNetmaskMapFromIpResource (H := dottedQuadText)
       (learnAll (H := dottedQuadText) []) twoGroups) twoGroups
  ≠ GenerateIpNetmaskMapFromIpResource (H := dottedQuadText)
      (learnAll (H := dottedQuadText) []) twoGroups.
Proof.
  apply (proj2 (proj2 (proj2 ip_resource_learner_not_idempotent)) dottedQuadText);
    vm_compute; reflexivity.
Defined.

(** *** Malformed CIDR text *)

(** An entry that does not split into exactly two parts is skipped by
    both passes. *)
Lemma wrong_part_count_skipped `{NetText} m raw :
  length (splitSlash raw) ≠ 2%nat -> seedRaw m raw = m ∧ refineRaw m raw = m.
Proof.
  intros Hlen. unfold seedRaw, refineRaw.
  by destruct (splitSlash raw) as [|p0 [|p1 [|p2 rest]]].
Qed.

(** An entry whose length does not parse is skipped by the seed pass. *)
Lemma bad_length_not_seeded `{NetText} m raw part0 part1 :
  splitSlash raw = [part0; part1] -> Atoi part1 = None -> seedRaw m raw = m.
Proof. intros Hsplit Hlen. unfold seedRaw. by rewrite Hsplit, Hlen. Qed.

(** Whatever [IpToUint32] makes of the nil address, an entry whose
    address does not parse is seeded under that value's /16 bucket. *)
Lemma nil_address_seeded `{NetText} :
  ParseIP "x" = [] ->
  GenerateIpNetmaskMapFromIpResource ∅ [IpGroupData.mk 1 1 ["x/24"%string]]
    !! Z.land (IpToUint32 []) NET16 = Some 0xFFFFFF00.
Proof.
  intros Hnil. unfold GenerateIpNetmaskMapFromIpResource, makeIpNetmaskMap.
  rewrite map_fold_empty.
  assert (Hsplit : splitSlash "x/24" = ["x"%string; "24"%string]) by reflexivity.
  assert (Hlen : Atoi "24" = Some 24) by reflexivity.
  assert (Hmask : shl32 MaxUint32 (uint32 (32 - 24)) = 0xFFFFFF00) by reflexivity.
  set (b := Z.land (IpToUint32 []) NET16).
  assert (Hseed : seedRaw ∅ "x/24" = <[b := 0xFFFFFF00]> ∅).
  { unfold seedRaw. rewrite Hsplit, Hlen, Hnil. cbv zeta. rewrite Hmask. fold b.
    assert (Hz : maskOf (∅ : gmap Z Z) b = 0) by (unfold maskOf; by rewrite lookup_empty).
    rewrite Hz. reflexivity. }
  cbn [fold_left IpGroupData.Ips]. rewrite Hseed.
  unfold refineRaw. rewrite Hsplit, Hnil. cbv zeta. fold b.
  rewrite maskOf_insert, decide_True by done.
  unfold raiseMask. rewrite maskOf_insert.
  case_decide as Heq.
  - change (0xFFFFFF00 <? 0xFFFFFF00) with false. cbv iota. apply lookup_insert_eq.
  - destruct (maskOf _ _ <? _).
    + rewrite lookup_insert_ne by done. apply lookup_insert_eq.
    + apply lookup_insert_eq.
Qed.

(** C9, evaluated.  Two malformed entries that are not skipped: the
    text "bad/24", whose address does not parse, records the mask /24
    under bucket 0; and "10.0.2.5/x", whose length does not parse, is
    skipped by the seed pass only: the refine pass records the key
    10.0.2.0 for it, which is absent when the entry is left out. *)
Theorem malformed_entries_reach_table :
  let run := GenerateIpNetmaskMapFromIpResource (H := dottedQuadText) ∅ in
  malformed (H := dottedQuadText) "bad/24"
  ∧ run [IpGroupData.mk 1 1 ["bad/24"%string]] !! 0 = Some 0xFFFFFF00
  ∧ run [IpGroupData.mk 1 1 []] !! 0 = None
  ∧ malformed (H := dottedQuadText) "10.0.2.5/x"
  ∧ run [IpGroupData.mk 1 1 ["10.0.1.0/24"%string; "10.0.2.5/x"%string]] !! 0x0A000200
    = Some 0xFFFFFF00
  ∧ run [IpGroupData.mk 1 1 ["10.0.1.0/24"%string]] !! 0x0A000200 = None.
Proof.
  cbv zeta. split; [right; vm_compute; reflexivity|].
  split; [vm_compute; reflexivity|]. split; [vm_compute; reflexivity|].
  split; [left; vm_compute; reflexivity|].
  split; vm_compute; reflexivity.
Qed.

End Netmask.
(** ** EPC ids of the fast path *)

Section EpcIds.

(** C5 (amended).  [addEpcMap] returns, and records for the MAC, the L2
    EPC id when it is positive; when the L2 id is zero, the L3 id when
    positive, [0xFFFFFFFF] when the L3 id is -1 and the wildcard 0
    otherwise; and the wildcard 0 whenever the L2 id is negative,
    whatever the L3 id. *)
Theorem addEpcMap_id (maps : VlanAndPortMap) (e : EndpointInfo) (mac : Z) :
  is_int32 (L2EpcId e) -> is_int32 (L3EpcId e) ->
  let '(id, maps') := addEpcMap maps e mac in
  lru.peek (macEpcMap maps') mac = Some id
  ∧ vlanPolicyMap maps' = vlanPolicyMap maps
  ∧ portPolicyMap maps' = portPolicyMap maps
  ∧ id = (if L2EpcId e >? 0 then L2EpcId e
          else if L2EpcId e <? 0 then 0
          else if L3EpcId e >? 0 then L3EpcId e
          else if L3EpcId e =? -1 then 0xFFFFFFFF
          else 0)
  ∧ (0 <= L2EpcId e -> id = preferredEpc e).
Proof.
  unfold is_int32. intros H2 H3. unfold addEpcMap. simpl.
  split; [apply peek_Add_eq|]. split; [done|]. split; [done|].
  unfold epcId, preferredEpc, uint32, ANY_GROUP.
  destruct (Z.gtb_spec (L2EpcId e) 0) as [Hpos|Hnpos].
  { rewrite Z.mod_small by lia. done. }
  destruct (Z.eqb_spec (L2EpcId e) 0) as [Hz|Hnz].
  - rewrite Hz. simpl.
    destruct (Z.gtb_spec (L3EpcId e) 0); [rewrite Z.mod_small by lia|]; done.
  - destruct (Z.ltb_spec (L2EpcId e) 0); [|lia].
    split; [done|]. intros. lia.
Qed.

Lemma addEpcMap_id_witness :
  let '(id, maps') :=
    addEpcMap newVlanAndPortMap (mkEndpointInfo [] 0 7) 1 in
  lru.peek (macEpcMap maps') 1 = Some id ∧ id = 7.
Proof.
  assert (H2 : is_int32 0) by (unfold is_int32; lia).
  assert (H3 : is_int32 7) by (unfold is_int32; lia).
  pose proof (addEpcMap_id newVlanAndPortMap (mkEndpointInfo [] 0 7) 1 H2 H3) as H.
  destruct (addEpcMap newVlanAndPortMap (mkEndpointInfo [] 0 7) 1) as [id maps'].
  destruct H as (Hpeek & _ & _ & Hid & _). split; [exact Hpeek|exact Hid].
Defined.

(** C5 as stated fails: with a negative L2 id and a positive L3 id the
    source returns the wildcard, not the L3 id. *)
Lemma addEpcMap_negative_l2 :
  fst (addEpcMap newVlanAndPortMap (mkEndpointInfo [] (-1) 5) 1) = 0
  ∧ preferredEpc (mkEndpointInfo [] (-1) 5) = 5
  ∧ fst (addEpcMap newVlanAndPortMap (mkEndpointInfo [] (-1) 5) 1)
    ≠ preferredEpc (mkEndpointInfo [] (-1) 5).
Proof. vm_compute. split; [done|]. split; [done|]. discriminate. Qed.

End EpcIds.

(** ** Freshness of fast-path entries *)

Section Freshness.

Lemma sub64_exact (a b : Z) :
  0 <= a < 2 ^ 63 -> 0 <= b < 2 ^ 63 -> sub64 a b = a - b.
Proof.
  intros Ha Hb. unfold sub64.
  rewrite Z.mod_small by lia. lia.
Qed.

Lemma stale_spec (value : FastPathMapValue) (packet : LookupKey.t) :
  stale value packet = true ↔
  timestamp value < LookupKey.Timestamp packet
  ∧ sub64 (LookupKey.Timestamp packet) (timestamp value) > POLICY_TIMEOUT.
Proof.
  unfold stale. rewrite andb_true_iff, Z.ltb_lt, Z.gtb_gt. lia.
Qed.

(** What a sub-lookup does once both MACs and the entry are found. *)
Lemma subLookup_found (kind : SubKind) (maps : VlanAndPortMap) (packet : LookupKey.t)
    (direction : DirectionType) (policy0 : PolicyData) (srcEpc dstEpc : Z)
    (value : FastPathMapValue) :
  lru.peek (macEpcMap maps) (LookupKey.SrcMac packet) = Some srcEpc ->
  lru.peek (macEpcMap maps) (LookupKey.DstMac packet) = Some dstEpc ->
  lru.peek (subCache kind maps) (subKey kind packet direction srcEpc dstEpc) = Some value ->
  let key := subKey kind packet direction srcEpc dstEpc in
  let macs := lru.touch (lru.touch (macEpcMap maps) (LookupKey.SrcMac packet))
                        (LookupKey.DstMac packet) in
  subLookup kind maps packet direction policy0 =
  if stale value packet
  then (None,
        match kind with
        | PortLookup => mkMaps macs (vlanPolicyMap maps)
                          (lru.Remove (lru.touch (portPolicyMap maps) key) key)
        | VlanLookup => mkMaps macs (lru.Remove (lru.touch (vlanPolicyMap maps) key) key)
                          (portPolicyMap maps)
        end,
        policy0)
  else (Some (if decide (direction = BACKWARD) then swapEndpoint (endpoint value)
              else endpoint value),
        match kind with
        | PortLookup => mkMaps macs (vlanPolicyMap maps)
                          (lru.poke (lru.touch (portPolicyMap maps) key) key
                                    (refresh value packet))
        | VlanLookup => mkMaps macs
                          (lru.poke (lru.touch (vlanPolicyMap maps) key) key
                                    (refresh value packet))
                          (portPolicyMap maps)
        end,
        Merge policy0 (AclActions (policy value)) (ACLID (policy value))
              match kind with PortLookup => Some direction | VlanLookup => None end).
Proof.
  intros Hsrc Hdst Hval.
  destruct kind; simpl in *.
  - unfold getFastPortPolicy, lru.Get. rewrite Hsrc. simpl.
    rewrite peek_touch, Hdst. simpl.
    destruct direction; simpl in *; rewrite Hval; by destruct (stale value packet).
  - unfold getFastVlanPolicy, lru.Get. rewrite Hsrc. simpl.
    rewrite peek_touch, Hdst. simpl.
    destruct direction; simpl in *; rewrite Hval; by destruct (stale value packet).
Qed.

(** C4.  In a sub-lookup (port or vlan, either direction) that finds
    both MACs and an entry under its key: when the entry's timestamp is
    below the query's and their [int64] difference exceeds
    [POLICY_TIMEOUT], the entry is removed, nil is returned and the
    caller's policy is left alone; when the query's timestamp is not
    above the entry's, the entry stays and the lookup hits; and on every
    hit that is not stale the entry stays with its timestamp set to the
    query's.  (For non-negative timestamps the [int64] difference is the
    mathematical one.) *)
Theorem fast_lookup_freshness (kind : SubKind) (maps : VlanAndPortMap)
    (packet : LookupKey.t) (direction : DirectionType) (policy0 : PolicyData)
    (srcEpc dstEpc : Z) (value : FastPathMapValue) :
  lru.peek (macEpcMap maps) (LookupKey.SrcMac packet) = Some srcEpc ->
  lru.peek (macEpcMap maps) (LookupKey.DstMac packet) = Some dstEpc ->
  lru.peek (subCache kind maps) (subKey kind packet direction srcEpc dstEpc) = Some value ->
  let key := subKey kind packet direction srcEpc dstEpc in
  let '(found, maps', policy1) := subLookup kind maps packet direction policy0 in
  (timestamp value < LookupKey.Timestamp packet ->
   sub64 (LookupKey.Timestamp packet) (timestamp value) > POLICY_TIMEOUT ->
   found = None ∧ lru.peek (subCache kind maps') key = None ∧ policy1 = policy0)
  ∧ (LookupKey.Timestamp packet <= timestamp value ->
     found ≠ None ∧ lru.peek (subCache kind maps') key ≠ None)
  ∧ (¬ (timestamp value < LookupKey.Timestamp packet
        ∧ sub64 (LookupKey.Timestamp packet) (timestamp value) > POLICY_TIMEOUT) ->
     found ≠ None
     ∧ lru.peek (subCache kind maps') key =
       Some (mkValue (endpoint value) (policy value) (LookupKey.Timestamp packet)))
  ∧ (0 <= timestamp value < 2 ^ 63 -> 0 <= LookupKey.Timestamp packet < 2 ^ 63 ->
     sub64 (LookupKey.Timestamp packet) (timestamp value) =
     LookupKey.Timestamp packet - timestamp value).
Proof.
  intros Hsrc Hdst Hval key.
  rewrite (subLookup_found kind maps packet direction policy0 srcEpc dstEpc value)
    by done.
  fold key.
  destruct (stale value packet) eqn:Hstale.
  - apply stale_spec in Hstale.
    split; [|split; [|split]].
    + intros _ _. split; [done|]. split; [|done].
      destruct kind; simpl; rewrite peek_Remove; by rewrite decide_True.
    + intros. lia.
    + intros Hn. by destruct Hn.
    + intros. by apply sub64_exact.
  - assert (Hfresh : ¬ (timestamp value < LookupKey.Timestamp packet
        ∧ sub64 (LookupKey.Timestamp packet) (timestamp value) > POLICY_TIMEOUT)).
    { intros Hs. apply stale_spec in Hs. congruence. }
    assert (Hentry : lru.peek (subCache kind
        match kind with
        | PortLookup =>
            mkMaps (lru.touch (lru.touch (macEpcMap maps) (LookupKey.SrcMac packet))
                              (LookupKey.DstMac packet))
                   (vlanPolicyMap maps)
                   (lru.poke (lru.touch (portPolicyMap maps) key) key (refresh value packet))
        | VlanLookup =>
            mkMaps (lru.touch (lru.touch (macEpcMap maps) (LookupKey.SrcMac packet))
                              (LookupKey.DstMac packet))
                   (lru.poke (lru.touch (vlanPolicyMap maps) key) key (refresh value packet))
                   (portPolicyMap maps)
        end) key = Some (refresh value packet)).
    { destruct kind; simpl in *; rewrite peek_poke, decide_True by done;
        rewrite peek_touch; unfold key; by rewrite Hval. }
    split; [|split; [|split]].
    + intros Hlt Hgt. exfalso. by apply Hfresh.
    + intros _. split; [done|]. by rewrite Hentry.
    + intros _. split; [done|]. exact Hentry.
    + intros. by apply sub64_exact.
Qed.

Lemma fast_lookup_freshness_witness :
  let value := mkValue (mkEndpointData (mkEndpointInfo [] 1 0) (mkEndpointInfo [] 2 0))
                       newPolicyData 0 in
  let packet := LookupKey.mk 120000000000 11 22 0 0 0 80 0 6 1 [] [] 0 in
  let maps :=
    mkMaps (lru.Add (lru.Add (lru.New 128) 11 1) 22 2)
           (lru.New 1024)
           (lru.Add (lru.New 1024) (fastPortKey 1 2 6 80) value) in
  let '(found, maps', policy1) := getFastPortPolicy maps packet FORWARD newPolicyData in
  found = None ∧ lru.peek (portPolicyMap maps') (fastPortKey 1 2 6 80) = None.
Proof.
  pose proof (fast_lookup_freshness PortLookup
    (mkMaps (lru.Add (lru.Add (lru.New 128) 11 1) 22 2)
            (lru.New 1024)
            (lru.Add (lru.New 1024) (fastPortKey 1 2 6 80)
               (mkValue (mkEndpointData (mkEndpointInfo [] 1 0) (mkEndpointInfo [] 2 0))
                        newPolicyData 0)))
    (LookupKey.mk 120000000000 11 22 0 0 0 80 0 6 1 [] [] 0)
    FORWARD newPolicyData 1 2
    (mkValue (mkEndpointData (mkEndpointInfo [] 1 0) (mkEndpointInfo [] 2 0))
             newPolicyData 0)
    eq_refl eq_refl eq_refl) as H.
  cbv zeta in H |- *. unfold subLookup in H.
  destruct (getFastPortPolicy _ _ _ _) as [[found maps'] policy1].
  destruct H as (Hstale & _).
  destruct Hstale as (Hnone & Hgone & _);
    [vm_compute; reflexivity|vm_compute; reflexivity|].
  split; [exact Hnone|exact Hgone].
Defined.

End Freshness.


(** ** The key codec read backwards *)

Section KeyFields.
Import Codec.

Lemma mapToSlice_acc (m : list (Z * Z)) (acc : list Z) :
  fold_left (fun out kv => if decide (snd kv > 0) then out ++ [snd kv] else out) m acc =
  acc ++ filter (fun v => v > 0) (map snd m).
Proof.
  revert acc. induction m as [|[k v] m IH]; intros acc; simpl.
  - by rewrite app_nil_r.
  - rewrite IH. rewrite filter_cons. simpl.
    case_decide; [by rewrite <- app_assoc|done].
Qed.

(** X1.  [mapToSlice] returns exactly the values of the map that are
    greater than zero, in iteration order; the wildcard group 0 is never
    among them. *)
Theorem mapToSlice_positive_values (m : list (Z * Z)) :
  mapToSlice m = filter (fun v => v > 0) (map snd m)
  ∧ ANY_GROUP ∉ mapToSlice m.
Proof.
  assert (Heq : mapToSlice m = filter (fun v => v > 0) (map snd m)).
  { unfold mapToSlice. by rewrite mapToSlice_acc. }
  split; [exact Heq|].
  rewrite Heq. intros Hin. apply list_elem_of_filter in Hin as [Hpos _].
  unfold ANY_GROUP in Hpos. lia.
Qed.

(** *** Reading the fields back *)

Ltac bit_specs :=
  repeat first
    [ rewrite Z.land_spec | rewrite Z.lor_spec
    | rewrite Z.shiftr_spec by lia | rewrite Z.shiftl_spec by lia
    | rewrite Z.testbit_ones_nonneg by lia ].

Ltac small_bits :=
  repeat match goal with
  | H : 0 <= ?n < 2 ^ ?p |- context [Z.testbit ?n ?j] =>
      rewrite (testbit_small n p j H) by lia
  | |- context [Z.testbit ?n ?j] => rewrite (Z.testbit_neg_r n j) by lia
  end.

Section Fields.
Variables head s d : Z.
Hypothesis Hs : 0 <= s < 2 ^ 20.
Hypothesis Hd : 0 <= d < 2 ^ 20.
Hypothesis Hhead : ∀ i, i < 40 -> Z.testbit head i = false.

Let key := Z.lor head (Z.lor (Z.shiftl s 20) d).

Lemma key_dst_field : Z.land key (Z.ones 20) = d.
Proof.
  subst key. apply Z.bits_inj'. intros i Hi. bit_specs.
  destruct (Z.ltb_spec i 20).
  - rewrite Hhead by lia. small_bits. simpl. apply andb_true_r.
  - small_bits. apply andb_false_r.
Qed.

Lemma key_src_field : Z.land (Z.shiftr key 20) (Z.ones 20) = s.
Proof.
  subst key. apply Z.bits_inj'. intros i Hi. bit_specs.
  destruct (Z.ltb_spec i 20).
  - rewrite Hhead by lia. small_bits. simpl.
    rewrite orb_false_r, andb_true_r. f_equal. lia.
  - small_bits. apply andb_false_r.
Qed.

Lemma key_head_field (p : Z) :
  40 <= p -> Z.shiftr key p = Z.shiftr head p.
Proof.
  intros Hp. subst key. apply Z.bits_inj'. intros i Hi. bit_specs.
  small_bits. by rewrite !orb_false_r.
Qed.

End Fields.

Lemma port_head_low (port proto i : Z) :
  i < 40 -> Z.testbit (Z.lor (Z.shiftl port 40) (Z.shiftl proto 56)) i = false.
Proof.
  intros Hi. destruct (Z.ltb_spec i 0); [by apply Z.testbit_neg_r|].
  bit_specs. by small_bits.
Qed.

Lemma port_head_proto (port proto : Z) :
  is_uint16 port -> is_uint8 proto ->
  Z.shiftr (Z.lor (Z.shiftl port 40) (Z.shiftl proto 56)) 56 = proto.
Proof.
  unfold is_uint16, is_uint8. intros Hp Hq.
  apply Z.bits_inj'. intros i Hi. bit_specs. small_bits. simpl. f_equal. lia.
Qed.

Lemma port_head_port (port proto : Z) :
  is_uint16 port -> is_uint8 proto ->
  Z.land (Z.shiftr (Z.lor (Z.shiftl port 40) (Z.shiftl proto 56)) 40) (Z.ones 16) = port.
Proof.
  unfold is_uint16, is_uint8. intros Hp Hq.
  apply Z.bits_inj'. intros i Hi. bit_specs.
  destruct (Z.ltb_spec i 16).
  - small_bits. rewrite orb_false_r, andb_true_r. f_equal. lia.
  - small_bits. apply andb_false_r.
Qed.

Lemma keysOver_fields (head : Z) (srcGroups dstGroups : list Z) (key : Z) :
  (∀ i, i < 40 -> Z.testbit head i = false) ->
  key ∈ keysOver head srcGroups dstGroups ->
  (∀ p, 40 <= p -> Z.shiftr key p = Z.shiftr head p)
  ∧ ∃ src dst, src ∈ srcGroups ∧ dst ∈ dstGroups
      ∧ keySrcGroup key = Z.land src 0xfffff ∧ keyDstGroup key = Z.land dst 0xfffff.
Proof.
  intros Hhead Hkey.
  apply elem_of_keysOver in Hkey as (src & dst & Hsrc & Hdst & ->).
  pose proof (group_bits_range src) as Hs. pose proof (group_bits_range dst) as Hd.
  split.
  - intros p Hp. by apply key_head_field.
  - exists src, dst. split; [done|]. split; [done|].
    unfold keySrcGroup, keyDstGroup. change 0xfffff with (Z.ones 20).
    split; [by apply key_src_field|by apply key_dst_field].
Qed.

(** X2.  The port key is a lossless packing: every key that
    [generateGroupPortKeys] returns for a 16-bit port and an 8-bit
    protocol reads back as that protocol in bits 56..63, that port in
    bits 40..55, and the low 20 bits of one source group and of one
    destination group of the (wildcard-substituted) lists in bits 20..39
    and 0..19. *)
Theorem port_keys_read_back (srcGroups dstGroups : list Z) (port proto key : Z) :
  is_uint16 port -> is_uint8 proto ->
  key ∈ generateGroupPortKeys srcGroups dstGroups port proto ->
  portKeyProto key = proto
  ∧ portKeyPort key = port
  ∧ ∃ src dst, src ∈ orAny srcGroups ∧ dst ∈ orAny dstGroups
      ∧ keySrcGroup key = Z.land src 0xfffff ∧ keyDstGroup key = Z.land dst 0xfffff.
Proof.
  intros Hp Hq Hkey.
  rewrite generateGroupPortKeys_spec in Hkey by done.
  apply keysOver_fields in Hkey as [Hhigh Hgroups]; [|apply port_head_low].
  split; [|split; [|exact Hgroups]].
  - unfold portKeyProto. rewrite Hhigh by lia. by apply port_head_proto.
  - unfold portKeyPort. rewrite Hhigh by lia.
    change 0xffff with (Z.ones 16). by apply port_head_port.
Qed.

Lemma port_keys_read_back_witness :
  portKeyProto 0x0600500000300004 = 6 ∧ portKeyPort 0x0600500000300004 = 80.
Proof.
  pose proof (port_keys_read_back [3] [4] 80 6 0x0600500000300004) as H.
  destruct H as (Hproto & Hport & _).
  - unfold is_uint16. lia.
  - unfold is_uint8. lia.
  - vm_compute. apply list_elem_of_here.
  - split; [exact Hproto|exact Hport].
Defined.

(** X3.  The vlan key is a lossless packing as well: every key that
    [generateGroupVlanKeys] returns for a 16-bit vlan reads back as that
    vlan in bits 48..63 and the low 20 bits of one source and one
    destination group in bits 20..39 and 0..19. *)
Theorem vlan_keys_read_back (srcGroups dstGroups : list Z) (vlan key : Z) :
  is_uint16 vlan ->
  key ∈ generateGroupVlanKeys srcGroups dstGroups vlan ->
  vlanKeyVlan key = vlan
  ∧ ∃ src dst, src ∈ orAny srcGroups ∧ dst ∈ orAny dstGroups
      ∧ keySrcGroup key = Z.land src 0xfffff ∧ keyDstGroup key = Z.land dst 0xfffff.
Proof.
  intros Hv Hkey.
  rewrite generateGroupVlanKeys_spec in Hkey by done.
  apply keysOver_fields in Hkey as [Hhigh Hgroups].
  - split; [|exact Hgroups].
    unfold vlanKeyVlan. rewrite Hhigh by lia.
    rewrite Z.shiftr_shiftl_l by lia. apply Z.shiftl_0_r.
  - intros i Hi. destruct (Z.ltb_spec i 0); [by apply Z.testbit_neg_r|].
    rewrite Z.shiftl_spec by lia. apply Z.testbit_neg_r. lia.
Qed.

Lemma vlan_keys_read_back_witness :
  vlanKeyVlan 0x000a000000300004 = 10.
Proof.
  pose proof (vlan_keys_read_back [3] [4] 10 0x000a000000300004) as H.
  destruct H as (Hvlan & _).
  - unfold is_uint16. lia.
  - vm_compute. apply list_elem_of_here.
  - exact Hvlan.
Defined.

(** *** How many keys an ACL costs *)

Lemma dstLoop_length (srcId : Z) (dstGroups : list Z) (st : list Z * Z) :
  length (fst (dstLoop srcId dstGroups st)) = (length (fst st) + length dstGroups)%nat.
Proof.
  unfold dstLoop. revert st.
  induction dstGroups as [|d ds IH]; intros st; simpl; [lia|].
  rewrite IH. simpl. rewrite length_app. simpl. lia.
Qed.

Lemma srcLoop_length (srcGroups dstGroups : list Z) (st : list Z * Z) :
  length (fst (srcLoop srcGroups dstGroups st)) =
  (length (fst st) + length srcGroups * length dstGroups)%nat.
Proof.
  unfold srcLoop. revert st.
  induction srcGroups as [|s ss IH]; intros st; simpl; [lia|].
  rewrite IH, dstLoop_length. lia.
Qed.

Lemma orAny_length (groups : list Z) :
  length (orAny groups) = Nat.max 1 (length groups).
Proof.
  unfold orAny. case_decide as Hlen.
  - rewrite length_app, Hlen. reflexivity.
  - lia.
Qed.

Lemma generateGroupPortKeys_length (srcGroups dstGroups : list Z) (port proto : Z) :
  length (generateGroupPortKeys srcGroups dstGroups port proto) =
  (Nat.max 1 (length srcGroups) * Nat.max 1 (length dstGroups))%nat.
Proof.
  unfold generateGroupPortKeys. rewrite srcLoop_length, !orAny_length. simpl. lia.
Qed.

Lemma fold_left_app_length {A} (f : A -> list Z) (items : list A) (acc : list Z) (n : nat) :
  (∀ a, length (f a) = n) ->
  length (fold_left (fun keys a => keys ++ f a) items acc) =
  (length acc + length items * n)%nat.
Proof.
  intros Hf. revert acc.
  induction items as [|a items IH]; intros acc; simpl; [lia|].
  rewrite IH, length_app, Hf. lia.
Qed.

Lemma generateGroupPortsKeys_length (acl : Acl) (direction : DirectionType) :
  length (generateGroupPortsKeys acl direction) =
  ((if allPorts acl then 1 else length (DstPorts acl))
   * (Nat.max 1 (length (mapToSlice (SrcGroups acl)))
      * Nat.max 1 (length (mapToSlice (DstGroups acl)))))%nat.
Proof.
  unfold generateGroupPortsKeys, allPorts.
  destruct ((0xffff <=? len (DstPorts acl)) || (len (DstPorts acl) =? 0)).
  - destruct direction; simpl; rewrite generateGroupPortKeys_length; lia.
  - destruct direction; simpl;
      rewrite (fold_left_app_length _ _ _ _
                 (fun kv => generateGroupPortKeys_length _ _ (snd kv) (Proto acl)));
      simpl; lia.
Qed.

Lemma generateGroupPortsKeys_nonempty (acl : Acl) (direction : DirectionType) :
  generateGroupPortsKeys acl direction ≠ [].
Proof.
  pose proof (generateGroupPortsKeys_length acl direction) as Hcount.
  intros Hnil. rewrite Hnil in Hcount. simpl in Hcount.
  unfold allPorts, len in Hcount.
  destruct (Z.eqb_spec (Z.of_nat (length (DstPorts acl))) 0) as [Hz|Hnz].
  - rewrite orb_true_r in Hcount. lia.
  - destruct (0xffff <=? Z.of_nat (length (DstPorts acl))); simpl in Hcount; nia.
Qed.

(** X4.  The number of keys one ACL compiles to: one key per pair of
    its positive source and destination groups (an empty side counts as
    one, the wildcard), times the number of its ports when it lists
    between 1 and 0xfffe of them, and times one otherwise.  The count
    does not depend on the direction, and is never zero. *)
Theorem generateGroupPortsKeys_count (acl : Acl) (direction : DirectionType) :
  length (generateGroupPortsKeys acl direction) =
  ((if allPorts acl then 1 else length (DstPorts acl))
   * (Nat.max 1 (length (mapToSlice (SrcGroups acl)))
      * Nat.max 1 (length (mapToSlice (DstGroups acl)))))%nat
  ∧ generateGroupPortsKeys acl direction ≠ [].
Proof.
  split; [apply generateGroupPortsKeys_length|apply generateGroupPortsKeys_nonempty].
Qed.

End KeyFields.

(** ** The compiled tables *)

Section FoldM.
Context {S A : Type}.
Implicit Types (body : S -> A -> option S) (items : list A).

Lemma foldM_from_None body items :
  fold_left (fun (os : option S) (a : A) => s ← os; body s a) items None = None.
Proof. induction items as [|a items IH]; simpl; [done|apply IH]. Qed.

Lemma foldM_cons body a items s :
  foldM body (a :: items) s = body s a ≫= foldM body items.
Proof.
  unfold foldM. simpl. destruct (body s a) as [s'|]; simpl; [done|].
  apply foldM_from_None.
Qed.

Lemma foldM_app body items1 items2 s :
  foldM body (items1 ++ items2) s = foldM body items1 s ≫= foldM body items2.
Proof.
  revert s. induction items1 as [|a items1 IH]; intros s; [done|].
  rewrite <- app_comm_cons, !foldM_cons.
  destruct (body s a) as [s'|]; simpl; [apply IH|done].
Qed.

End FoldM.

Section TapArrays.
Context `{TapTypes}.

Lemma lookup_map {A B} (f : A -> B) (l : list A) (i : nat) :
  map f l !! i = f <$> l !! i.
Proof.
  revert i. induction l as [|a l IH]; intros [|i]; simpl; auto.
Qed.

Lemma makeTapMaps_lookup (V : Type) (i : nat) :
  makeTapMaps V !! i =
  if decide (i < TAP_MAX)%nat
  then Some (if decide (TAP_MIN <= i)%nat then Some ∅ else None)
  else None.
Proof.
  unfold makeTapMaps, TapMaps. rewrite lookup_map.
  case_decide as Hi.
  - by rewrite lookup_seq_lt by done.
  - by rewrite lookup_seq_ge by lia.
Qed.

Lemma makeTapMaps_shape (V : Type) : tapShape (makeTapMaps V).
Proof.
  split.
  - unfold makeTapMaps. by rewrite length_map, length_seq.
  - intros i slot. rewrite makeTapMaps_lookup.
    case_decide; [|done]. intros [= <-].
    case_decide; split; intros Hs; try done; try lia.
Qed.

Lemma tapShape_lookup {V} (maps : TapMaps V) (tap : nat) :
  tapShape maps ->
  (tapInRange tap -> ∃ m, maps !! tap = Some (Some m))
  ∧ ((tap < TAP_MIN)%nat -> (tap < TAP_MAX)%nat -> maps !! tap = Some None)
  ∧ ((TAP_MAX <= tap)%nat -> maps !! tap = None).
Proof.
  intros [Hlen Hslots]. split; [|split].
  - intros [Hmin Hmax].
    destruct (lookup_lt_is_Some_2 maps tap) as [slot Hslot]; [lia|].
    destruct (proj2 (Hslots tap slot Hslot) Hmin) as [m ->]. eauto.
  - intros Hmin Hmax.
    destruct (lookup_lt_is_Some_2 maps tap) as [slot Hslot]; [lia|].
    destruct slot as [m|]; [|done].
    pose proof (proj1 (Hslots tap _ Hslot) (mk_is_Some _ _ eq_refl)). lia.
  - intros Hmax. apply lookup_ge_None_2. lia.
Qed.

Section Stores.
Context {V : Type} (P : V -> Prop) (store : gmap Z V -> Z -> gmap Z V).
Hypothesis store_holds : ∀ m k k',
  (∃ v, store m k !! k' = Some v ∧ P v) ↔ k' = k ∨ (∃ v, m !! k' = Some v ∧ P v).

Lemma fold_store_holds (items : list Z) (m : gmap Z V) (k' : Z) :
  (∃ v, fold_left store items m !! k' = Some v ∧ P v) ↔
  k' ∈ items ∨ (∃ v, m !! k' = Some v ∧ P v).
Proof.
  revert m. induction items as [|k items IH]; intros m; simpl.
  - split; [by right|]. intros [Hin|Hm]; [|done]. by apply elem_of_nil in Hin.
  - rewrite IH, store_holds, elem_of_cons. tauto.
Qed.

Lemma tapMapStores_in_range (maps : TapMaps V) (tap : nat) (items : list Z) :
  tapShape maps -> tapInRange tap -> is_Some (tapMapStores maps tap store items).
Proof.
  intros Hshape Htap.
  destruct (proj1 (tapShape_lookup maps tap Hshape) Htap) as [m Hm].
  unfold tapMapStores. rewrite Hm. eauto.
Qed.

Lemma tapMapStores_out_of_range (maps : TapMaps V) (tap : nat) (items : list Z) :
  tapShape maps -> ¬ tapInRange tap -> items ≠ [] ->
  tapMapStores maps tap store items = None.
Proof.
  intros Hshape Htap Hitems. unfold tapMapStores, tapInRange in *.
  destruct (decide (tap < TAP_MAX)%nat) as [Hmax|Hmax].
  - rewrite (proj1 (proj2 (tapShape_lookup maps tap Hshape))) by lia.
    by rewrite decide_False.
  - by rewrite (proj2 (proj2 (tapShape_lookup maps tap Hshape))) by lia.
Qed.

Lemma tapMapStores_holds (maps maps' : TapMaps V) (tap : nat) (items : list Z) :
  tapShape maps -> tapMapStores maps tap store items = Some maps' ->
  tapShape maps'
  ∧ ∀ tap' key, tapHolds P maps' tap' key ↔
      tapHolds P maps tap' key ∨ (tap' = tap ∧ key ∈ items).
Proof.
  intros Hshape. unfold tapMapStores, tapShape, TapMaps in *.
  destruct (maps !! tap) as [[m|]|] eqn:Hm; [| |done].
  - intros [= <-]. split.
    + destruct Hshape as [Hlen Hslots]. split; [by rewrite length_insert|].
      intros i slot. destruct (decide (tap = i)) as [<-|Hne].
      * rewrite list_lookup_insert_eq by (by apply lookup_lt_Some in Hm).
        intros [= <-]. pose proof (Hslots tap _ Hm) as Hs.
        split; [intros _; apply Hs; eauto|eauto].
      * rewrite list_lookup_insert_ne by done. apply Hslots.
    + intros tap' key. unfold tapHolds, TapMaps.
      destruct (decide (tap' = tap)) as [->|Hne].
      * rewrite list_lookup_insert_eq by (by apply lookup_lt_Some in Hm).
        split.
        -- intros (m' & v & [= <-] & Hv & HP).
           destruct (proj1 (fold_store_holds items m key)) as [Hin|(v' & Hv' & HP')];
             [eauto| |].
           ++ by right.
           ++ left. exists m, v'. eauto.
        -- intros [(m' & v & Hm' & Hv & HP)|[_ Hin]].
           ++ rewrite Hm in Hm'. injection Hm' as <-.
              destruct (proj2 (fold_store_holds items m key)) as (v' & Hv' & HP');
                [right; eauto|]. eauto.
           ++ destruct (proj2 (fold_store_holds items m key)) as (v' & Hv' & HP');
                [by left|]. eauto.
      * rewrite list_lookup_insert_ne by done. split; [by left|].
        intros [Hh|[Heq _]]; [done|by destruct Hne].
  - case_decide as Hitems; [|done]. intros [= <-]. split; [done|].
    intros tap' key. split; [by left|].
    intros [Hh|[_ Hin]]; [done|]. subst items. by apply elem_of_nil in Hin.
Qed.

End Stores.

End TapArrays.

(** *** The loop shared by the three compilers *)

Section CompileLoop.
Context `{TapTypes} {V : Type} (P : V -> Prop).
Variable body : TapMaps V -> Acl -> option (TapMaps V).
Variable sel : Acl -> bool.
Variable keys : Acl -> list Z.
Hypothesis body_skip : ∀ maps acl, sel acl = false -> body maps acl = Some maps.
Hypothesis body_total : ∀ maps acl,
  sel acl = true -> tapShape maps -> tapInRange (Type' acl) -> is_Some (body maps acl).
Hypothesis body_holds : ∀ maps maps' acl,
  sel acl = true -> tapShape maps -> body maps acl = Some maps' ->
  tapShape maps'
  ∧ ∀ tap key, tapHolds P maps' tap key ↔
      tapHolds P maps tap key ∨ (tap = Type' acl ∧ key ∈ keys acl).

Lemma loop_holds (acls : list Acl) (init maps : TapMaps V) :
  tapShape init -> foldM body acls init = Some maps ->
  tapShape maps
  ∧ ∀ tap key, tapHolds P maps tap key ↔
      tapHolds P init tap key
      ∨ ∃ acl, acl ∈ acls ∧ sel acl = true ∧ Type' acl = tap ∧ key ∈ keys acl.
Proof.
  revert init. induction acls as [|a acls IH]; intros init Hshape.
  - intros [= <-]. split; [done|]. intros tap key. split; [by left|].
    intros [Hh|(acl & Hin & _)]; [done|]. by apply elem_of_nil in Hin.
  - rewrite foldM_cons. destruct (body init a) as [mid|] eqn:Hbody; [simpl|done].
    intros Hfold. destruct (sel a) eqn:Hsel.
    + destruct (body_holds init mid a Hsel Hshape Hbody) as [Hmid Hstep].
      destruct (IH mid Hmid Hfold) as [Hmaps Hrest]. split; [done|].
      intros tap key. rewrite Hrest, Hstep. split.
      * intros [[Hh|[-> Hk]]|(acl & Hin & Hs & Ht & Hk)].
        -- by left.
        -- right. exists a. split; [apply list_elem_of_here|done].
        -- right. exists acl. split; [by apply list_elem_of_further|done].
      * intros [Hh|(acl & Hin & Hs & Ht & Hk)]; [by left; left|].
        apply elem_of_cons in Hin as [->|Hin].
        -- left. right. by subst tap.
        -- right. by exists acl.
    + rewrite body_skip in Hbody by done. injection Hbody as <-.
      destruct (IH init Hshape Hfold) as [Hmaps Hrest]. split; [done|].
      intros tap key. rewrite Hrest. split.
      * intros [Hh|(acl & Hin & Hs & Ht & Hk)]; [by left|].
        right. exists acl. split; [by apply list_elem_of_further|done].
      * intros [Hh|(acl & Hin & Hs & Ht & Hk)]; [by left|].
        apply elem_of_cons in Hin as [->|Hin]; [congruence|].
        right. by exists acl.
Qed.

Lemma loop_total (acls : list Acl) (init : TapMaps V) :
  tapShape init ->
  (∀ acl, acl ∈ acls -> sel acl = true -> tapInRange (Type' acl)) ->
  is_Some (foldM body acls init).
Proof.
  revert init. induction acls as [|a acls IH]; intros init Hshape Hok.
  - by eexists.
  - rewrite foldM_cons. destruct (sel a) eqn:Hsel.
    + destruct (body_total init a Hsel Hshape) as [mid Hmid].
      { apply Hok; [apply list_elem_of_here|done]. }
      rewrite Hmid. simpl. apply IH.
      * by destruct (body_holds init mid a Hsel Hshape Hmid).
      * intros acl Hin. apply Hok. by apply list_elem_of_further.
    + rewrite body_skip by done. simpl. apply IH; [done|].
      intros acl Hin. apply Hok. by apply list_elem_of_further.
Qed.

Lemma loop_fails (acls : list Acl) (init : TapMaps V) :
  (∀ maps acl, sel acl = true -> tapShape maps -> ¬ tapInRange (Type' acl) ->
               body maps acl = None) ->
  tapShape init -> is_Some (foldM body acls init) ->
  ∀ acl, acl ∈ acls -> sel acl = true -> tapInRange (Type' acl).
Proof.
  intros Hfail. revert init. induction acls as [|a acls IH]; intros init Hshape Hsome acl Hin Hs.
  - by apply elem_of_nil in Hin.
  - rewrite foldM_cons in Hsome.
    destruct (body init a) as [mid|] eqn:Hbody; [simpl in Hsome|by destruct Hsome].
    assert (Hmid : tapShape mid).
    { destruct (sel a) eqn:Hsel.
      - by destruct (body_holds init mid a Hsel Hshape Hbody).
      - rewrite body_skip in Hbody by done. by injection Hbody as <-. }
    apply elem_of_cons in Hin as [->|Hin]; [|by apply (IH mid)].
    destruct (decide (tapInRange (Type' a))) as [|Hout]; [done|].
    rewrite (Hfail init a Hs Hshape Hout) in Hbody. done.
Qed.

End CompileLoop.

(** *** The port and the vlan table *)

Section PolicyTables.
Context `{TapTypes}.

Lemma mergeAt_holds (acl : Acl) (directions : option DirectionType)
    (m : gmap Z PolicyData) (k k' : Z) :
  (∃ v, mergeAt acl directions m k !! k' = Some v ∧ anyPolicy v) ↔
  k' = k ∨ (∃ v, m !! k' = Some v ∧ anyPolicy v).
Proof.
  unfold mergeAt, anyPolicy.
  destruct (decide (k' = k)) as [->|Hne].
  - split; [by left|]. intros _.
    destruct (m !! k); rewrite lookup_insert_eq; eauto.
  - destruct (m !! k); rewrite lookup_insert_ne by done;
      (split; [by right|]); by intros [|].
Qed.

Lemma portBody_skip maps acl : portRule acl = false -> portBody maps acl = Some maps.
Proof. unfold portRule, accepted, portBody. by intros ->. Qed.

Lemma portBody_total maps acl :
  portRule acl = true -> tapShape maps -> tapInRange (Type' acl) ->
  is_Some (portBody maps acl).
Proof.
  unfold portRule, accepted, portBody. intros -> Hshape Htap.
  by apply tapMapStores_in_range.
Qed.

Lemma portBody_holds maps maps' acl :
  portRule acl = true -> tapShape maps -> portBody maps acl = Some maps' ->
  tapShape maps'
  ∧ ∀ tap key, tapHolds anyPolicy maps' tap key ↔
      tapHolds anyPolicy maps tap key
      ∨ (tap = Type' acl ∧ key ∈ generateGroupPortsKeys acl FORWARD).
Proof.
  unfold portRule, accepted, portBody. intros -> Hshape Hbody.
  apply (tapMapStores_holds anyPolicy (mergeAt acl None)); [|done..].
  apply mergeAt_holds.
Qed.

Lemma portBody_fails maps acl :
  portRule acl = true -> tapShape maps -> ¬ tapInRange (Type' acl) ->
  portBody maps acl = None.
Proof.
  unfold portRule, accepted, portBody. intros -> Hshape Htap.
  apply tapMapStores_out_of_range; [done..|].
  apply generateGroupPortsKeys_nonempty.
Qed.

Lemma portRule_spec acl : portRule acl = true ↔ accepted acl = true ∧ Vlan acl = 0.
Proof. unfold portRule. by rewrite andb_true_iff, bool_decide_eq_true. Qed.

Lemma not_tapHolds_make (V : Type) (P : V -> Prop) tap key :
  ¬ tapHolds P (makeTapMaps V) tap key.
Proof.
  intros (m & v & Hm & Hv & _). rewrite makeTapMaps_lookup in Hm.
  repeat case_decide; try done. injection Hm as <-. by rewrite lookup_empty in Hv.
Qed.

Lemma port_table_holds (acls : list Acl) (maps : TapMaps PolicyData) :
  GenerateGroupPortMaps acls = Some maps ->
  ∀ tap key,
    tapHolds anyPolicy maps tap key ↔
    ∃ acl, acl ∈ acls ∧ accepted acl = true ∧ Vlan acl = 0 ∧ Type' acl = tap
           ∧ key ∈ generateGroupPortsKeys acl FORWARD.
Proof.
  intros Hgen tap key.
  destruct (loop_holds anyPolicy portBody portRule
              (fun acl => generateGroupPortsKeys acl FORWARD)
              portBody_skip portBody_holds
              acls (makeTapMaps PolicyData) maps (makeTapMaps_shape _) Hgen)
    as [_ Hdom].
  rewrite Hdom. split.
  - intros [Hh|(acl & Hin & Hsel & Htap & Hk)].
    + by apply not_tapHolds_make in Hh.
    + apply portRule_spec in Hsel as [Hacc Hv]. by exists acl.
  - intros (acl & Hin & Hacc & Hv & Htap & Hk). right. exists acl.
    split; [done|]. split; [by apply portRule_spec|done].
Qed.

Lemma port_table_total (acls : list Acl) :
  (∀ acl, acl ∈ acls -> accepted acl = true -> Vlan acl = 0 -> tapInRange (Type' acl)) ->
  is_Some (GenerateGroupPortMaps acls).
Proof.
  intros Hok.
  apply (loop_total anyPolicy portBody portRule
           (fun acl => generateGroupPortsKeys acl FORWARD)
           portBody_skip portBody_total portBody_holds);
    [apply makeTapMaps_shape|].
  intros acl Hin Hsel. apply portRule_spec in Hsel as [Hacc Hv]. by apply Hok.
Qed.

(** X5.  The port table holds a policy under a key for a tap type
    exactly when some ACL of the list that passes [CheckTapType], has
    vlan 0 and that tap type compiles to the key: nothing is lost, and
    nothing is there that no ACL asked for. *)
Theorem GenerateGroupPortMaps_domain (acls : list Acl) (maps : TapMaps PolicyData) :
  GenerateGroupPortMaps acls = Some maps ->
  ∀ tap key,
    tapHolds anyPolicy maps tap key ↔
    ∃ acl, acl ∈ acls ∧ accepted acl = true ∧ Vlan acl = 0 ∧ Type' acl = tap
           ∧ key ∈ generateGroupPortsKeys acl FORWARD.
Proof. apply port_table_holds. Qed.

Lemma vlanBody_skip maps acl : vlanRule acl = false -> vlanBody maps acl = Some maps.
Proof. unfold vlanRule, accepted, vlanBody. by intros ->. Qed.

Lemma vlanBody_total maps acl :
  vlanRule acl = true -> tapShape maps -> tapInRange (Type' acl) ->
  is_Some (vlanBody maps acl).
Proof.
  unfold vlanRule, accepted, vlanBody. intros -> Hshape Htap.
  destruct (tapMapStores_in_range (mergeAt acl (Some FORWARD)) maps (Type' acl)
              (aclVlanKeys acl FORWARD) Hshape Htap) as [mid Hmid].
  rewrite Hmid. simpl. apply tapMapStores_in_range; [|done].
  by destruct (tapMapStores_holds anyPolicy (mergeAt acl (Some FORWARD))
                 (mergeAt_holds acl (Some FORWARD)) maps mid _ _ Hshape Hmid).
Qed.

Lemma vlanBody_holds maps maps' acl :
  vlanRule acl = true -> tapShape maps -> vlanBody maps acl = Some maps' ->
  tapShape maps'
  ∧ ∀ tap key, tapHolds anyPolicy maps' tap key ↔
      tapHolds anyPolicy maps tap key
      ∨ (tap = Type' acl ∧ key ∈ aclVlanKeys acl FORWARD ++ aclVlanKeys acl BACKWARD).
Proof.
  unfold vlanRule, accepted, vlanBody. intros -> Hshape.
  destruct (tapMapStores maps (Type' acl) (mergeAt acl (Some FORWARD))
              (aclVlanKeys acl FORWARD)) as [mid|] eqn:Hmid; [simpl|done].
  intros Hback.
  destruct (tapMapStores_holds anyPolicy (mergeAt acl (Some FORWARD))
              (mergeAt_holds acl (Some FORWARD)) maps mid _ _ Hshape Hmid)
    as [Hshape1 Hfwd].
  destruct (tapMapStores_holds anyPolicy (mergeAt acl (Some BACKWARD))
              (mergeAt_holds acl (Some BACKWARD)) mid maps' _ _ Hshape1 Hback)
    as [Hshape2 Hbwd].
  split; [done|]. intros tap key.
  rewrite Hbwd, Hfwd, elem_of_app. tauto.
Qed.

Lemma generateGroupVlanKeys_nonempty (srcGroups dstGroups : list Z) (vlan : Z) :
  Codec.generateGroupVlanKeys srcGroups dstGroups vlan ≠ [].
Proof.
  intros Hnil.
  assert (Hlen : length (Codec.generateGroupVlanKeys srcGroups dstGroups vlan) =
                 (Nat.max 1 (length srcGroups) * Nat.max 1 (length dstGroups))%nat).
  { unfold Codec.generateGroupVlanKeys. rewrite srcLoop_length, !orAny_length.
    simpl. lia. }
  rewrite Hnil in Hlen. simpl in Hlen. nia.
Qed.

Lemma aclVlanKeys_nonempty (acl : Acl) (direction : DirectionType) :
  aclVlanKeys acl direction ≠ [].
Proof. destruct direction; apply generateGroupVlanKeys_nonempty. Qed.

Lemma vlanBody_fails maps acl :
  vlanRule acl = true -> tapShape maps -> ¬ tapInRange (Type' acl) ->
  vlanBody maps acl = None.
Proof.
  unfold vlanRule, accepted, vlanBody. intros -> Hshape Htap.
  rewrite tapMapStores_out_of_range; [done..|].
  apply aclVlanKeys_nonempty.
Qed.

Lemma vlanRule_spec acl : vlanRule acl = true ↔ accepted acl = true ∧ Vlan acl > 0.
Proof. unfold vlanRule. by rewrite andb_true_iff, bool_decide_eq_true. Qed.

Lemma vlan_table_holds (acls : list Acl) (maps : TapMaps PolicyData) :
  GenerateGroupVlanMaps acls = Some maps ->
  ∀ tap key,
    tapHolds anyPolicy maps tap key ↔
    ∃ acl direction, acl ∈ acls ∧ accepted acl = true ∧ Vlan acl > 0 ∧ Type' acl = tap
                     ∧ key ∈ aclVlanKeys acl direction.
Proof.
  intros Hgen tap key.
  destruct (loop_holds anyPolicy vlanBody vlanRule
              (fun acl => aclVlanKeys acl FORWARD ++ aclVlanKeys acl BACKWARD)
              vlanBody_skip vlanBody_holds
              acls (makeTapMaps PolicyData) maps (makeTapMaps_shape _) Hgen)
    as [_ Hdom].
  rewrite Hdom. split.
  - intros [Hh|(acl & Hin & Hsel & Htap & Hk)].
    + by apply not_tapHolds_make in Hh.
    + apply vlanRule_spec in Hsel as [Hacc Hv].
      apply elem_of_app in Hk as [Hk|Hk]; [by exists acl, FORWARD|by exists acl, BACKWARD].
  - intros (acl & direction & Hin & Hacc & Hv & Htap & Hk). right. exists acl.
    split; [done|]. split; [by apply vlanRule_spec|]. split; [done|].
    apply elem_of_app. destruct direction; [by left|by right].
Qed.

Lemma vlan_table_total (acls : list Acl) :
  (∀ acl, acl ∈ acls -> accepted acl = true -> Vlan acl > 0 -> tapInRange (Type' acl)) ->
  is_Some (GenerateGroupVlanMaps acls).
Proof.
  intros Hok.
  apply (loop_total anyPolicy vlanBody vlanRule
           (fun acl => aclVlanKeys acl FORWARD ++ aclVlanKeys acl BACKWARD)
           vlanBody_skip vlanBody_total vlanBody_holds);
    [apply makeTapMaps_shape|].
  intros acl Hin Hsel. apply vlanRule_spec in Hsel as [Hacc Hv]. by apply Hok.
Qed.

End PolicyTables.

Lemma GenerateGroupPortMaps_domain_witness :
  ∃ maps,
    GenerateGroupPortMaps (H := sampleTaps)
      [mkAcl 7 1 0 [(0, 3)] [(0, 4)] [(0, 80)] 6 0 [mkAction 1 None]] = Some maps
    ∧ tapHolds anyPolicy maps 1 0x0600500000300004.
Proof.
  destruct (GenerateGroupPortMaps (H := sampleTaps)
              [mkAcl 7 1 0 [(0, 3)] [(0, 4)] [(0, 80)] 6 0 [mkAction 1 None]])
    as [maps|] eqn:Hgen; [|vm_compute in Hgen; discriminate Hgen].
  exists maps. split; [reflexivity|].
  apply (GenerateGroupPortMaps_domain (H := sampleTaps) _ maps Hgen).
  exists (mkAcl 7 1 0 [(0, 3)] [(0, 4)] [(0, 80)] 6 0 [mkAction 1 None]).
  split; [apply list_elem_of_here|].
  split; [reflexivity|]. split; [reflexivity|]. split; [reflexivity|].
  vm_compute. apply list_elem_of_here.
Defined.

(** ** The vlan field of the compiled keys *)

Section VlanField.
Context `{TapTypes}.
Import Codec.

Lemma aclVlanKeys_base (acl : Acl) :
  aclVlanKeys acl FORWARD =
    vlanBaseKeys (mapToSlice (SrcGroups acl)) (mapToSlice (DstGroups acl))
                 (Vlan acl mod 2 ^ 16)
  ∧ aclVlanKeys acl BACKWARD =
    vlanBaseKeys (mapToSlice (DstGroups acl)) (mapToSlice (SrcGroups acl))
                 (Vlan acl mod 2 ^ 16).
Proof. split; by rewrite aclVlanKeys_spec. Qed.

Lemma aclVlanKeys_field (acl : Acl) (direction : DirectionType) (key : Z) :
  key ∈ aclVlanKeys acl direction -> vlanKeyVlan key = Vlan acl mod 2 ^ 16.
Proof.
  intros Hkey. rewrite aclVlanKeys_spec in Hkey.
  assert (Hlow : ∀ i, i < 40 -> Z.testbit (Z.shiftl (uint16 (Vlan acl)) 48) i = false).
  { intros i Hi. destruct (Z.ltb_spec i 0); [by apply Z.testbit_neg_r|].
    rewrite Z.shiftl_spec by lia. apply Z.testbit_neg_r. lia. }
  assert (Hhigh : Z.shiftr key 48 = Z.shiftr (Z.shiftl (uint16 (Vlan acl)) 48) 48).
  { destruct direction; apply keysOver_fields in Hkey as [Hhigh _]; try done;
      apply Hhigh; lia. }
  unfold vlanKeyVlan. rewrite Hhigh.
  rewrite Z.shiftr_shiftl_l by lia. apply Z.shiftl_0_r.
Qed.

(** C10.  The vlan compiler keeps only the low 16 bits of [acl.Vlan].
    The keys an ACL compiles to are, in each direction, exactly one
    packed key per pair of its groups with [Vlan mod 2^16] as the vlan;
    there is always at least one, and each reads back [Vlan mod 2^16] in
    its vlan bits (48 and above).  So ACLs with the same groups whose
    [Vlan] are congruent modulo 2^16 get the same key lists in both
    directions; an ACL whose [Vlan] is a non-zero multiple of 2^16
    passes the [Vlan > 0] guard and gets keys whose vlan bits are all
    zero; and a rule base compiled from rules that differ only that way
    yields the same vlan maps.  The compiler succeeds when every ACL it
    compiles has its tap type among the slots, and the table it returns
    holds, per tap type, exactly the keys of the accepted ACLs with a
    vlan above 0: for each such ACL a key with vlan field
    [Vlan mod 2^16] is there. *)
Theorem vlan_keys_truncate_to_16_bits :
  (∀ (acl1 acl2 : Acl) (direction : DirectionType),
     SrcGroups acl1 = SrcGroups acl2 -> DstGroups acl1 = DstGroups acl2 ->
     Vlan acl1 mod 2 ^ 16 = Vlan acl2 mod 2 ^ 16 ->
     aclVlanKeys acl1 direction = aclVlanKeys acl2 direction)
  ∧ (∀ (acl : Acl) (direction : DirectionType) (n key : Z),
       n > 0 -> Vlan acl = n * 2 ^ 16 -> key ∈ aclVlanKeys acl direction ->
       Vlan acl > 0 ∧ Z.shiftr key 48 = 0)
  ∧ (∀ (acls1 acls2 : list Acl),
       Forall2 sameVlanRule acls1 acls2 ->
       GenerateGroupVlanMaps acls1 = GenerateGroupVlanMaps acls2)
  ∧ (∀ (acl : Acl),
       aclVlanKeys acl FORWARD =
         vlanBaseKeys (mapToSlice (SrcGroups acl)) (mapToSlice (DstGroups acl))
                      (Vlan acl mod 2 ^ 16)
       ∧ aclVlanKeys acl BACKWARD =
         vlanBaseKeys (mapToSlice (DstGroups acl)) (mapToSlice (SrcGroups acl))
                      (Vlan acl mod 2 ^ 16))
  ∧ (∀ (acl : Acl) (direction : DirectionType),
       aclVlanKeys acl direction ≠ []
       ∧ ∀ key, key ∈ aclVlanKeys acl direction -> vlanKeyVlan key = Vlan acl mod 2 ^ 16)
  ∧ (∀ (acls : list Acl),
       (∀ acl, acl ∈ acls -> accepted acl = true -> Vlan acl > 0 ->
               tapInRange (Type' acl)) ->
       is_Some (GenerateGroupVlanMaps acls))
  ∧ (∀ (acls : list Acl) (maps : TapMaps PolicyData),
       GenerateGroupVlanMaps acls = Some maps ->
       (∀ tap key,
          tapHolds anyPolicy maps tap key ↔
          ∃ acl direction, acl ∈ acls ∧ accepted acl = true ∧ Vlan acl > 0
                           ∧ Type' acl = tap ∧ key ∈ aclVlanKeys acl direction)
       ∧ (∀ acl, acl ∈ acls -> accepted acl = true -> Vlan acl > 0 ->
            ∃ key, tapHolds anyPolicy maps (Type' acl) key
                   ∧ vlanKeyVlan key = Vlan acl mod 2 ^ 16)
       ∧ (∀ tap key, tapHolds anyPolicy maps tap key ->
            ∃ acl, acl ∈ acls ∧ Vlan acl > 0 ∧ vlanKeyVlan key = Vlan acl mod 2 ^ 16)).
Proof.
  split; [|split; [|split; [|split; [|split; [|split]]]]].
  - intros acl1 acl2 direction Hs Hd Hv.
    unfold aclVlanKeys, uint16. by rewrite Hs, Hd, Hv.
  - intros acl direction n key Hn Hv Hkey. split; [lia|].
    rewrite aclVlanKeys_spec in Hkey.
    assert (Hz : uint16 (Vlan acl) = 0).
    { unfold uint16. rewrite Hv. apply Z.mod_mul. lia. }
    rewrite Hz, Z.shiftl_0_l in Hkey.
    destruct direction; apply elem_of_keysOver in Hkey as (src & dst & _ & _ & ->);
      rewrite Z.lor_0_l; apply group_pair_below_48.
  - intros acls1 acls2 Hall. unfold GenerateGroupVlanMaps, foldM.
    generalize (Some (makeTapMaps PolicyData)).
    induction Hall as [|acl1 acl2 rest1 rest2 Hsame _ IH]; intros start; [done|].
    simpl. destruct Hsame as (Hid & Hty & Hs & Hd & Hact & Hv1 & Hv2 & Hmod).
    rewrite IH. f_equal. destruct start as [vlanMaps|]; [simpl|done].
    rewrite Hty.
    rewrite (bool_decide_eq_true_2 (Vlan acl1 > 0)) by done.
    rewrite (bool_decide_eq_true_2 (Vlan acl2 > 0)) by done.
    destruct (CheckTapType (Type' acl2) (Type' acl2)); [simpl|done].
    assert (Hk : ∀ direction, aclVlanKeys acl1 direction = aclVlanKeys acl2 direction).
    { intros direction. unfold aclVlanKeys, uint16. by rewrite Hs, Hd, Hmod. }
    pose proof (Hk FORWARD) as HkF. pose proof (Hk BACKWARD) as HkB.
    simpl in HkF, HkB.
    rewrite HkF, HkB, !(mergeAt_same acl1 acl2) by done. reflexivity.
  - apply aclVlanKeys_base.
  - intros acl direction. split; [apply aclVlanKeys_nonempty|].
    intros key. apply aclVlanKeys_field.
  - apply vlan_table_total.
  - intros acls maps Hgen.
    pose proof (vlan_table_holds acls maps Hgen) as Hdom.
    split; [exact Hdom|]. split.
    + intros acl Hin Hacc Hv.
      destruct (aclVlanKeys acl FORWARD) as [|key rest] eqn:Hkeys;
        [by apply aclVlanKeys_nonempty in Hkeys|].
      assert (Hkey : key ∈ aclVlanKeys acl FORWARD)
        by (rewrite Hkeys; apply list_elem_of_here).
      exists key. split; [|by apply (aclVlanKeys_field acl FORWARD)].
      apply Hdom. by exists acl, FORWARD.
    + intros tap key Hh. apply Hdom in Hh as (acl & direction & Hin & _ & Hv & _ & Hkey).
      exists acl. split; [done|]. split; [done|].
      by apply (aclVlanKeys_field acl direction).
Qed.

End VlanField.

Lemma vlan_keys_truncate_to_16_bits_witness :
  aclVlanKeys (mkAcl 1 1 0 [(1, 10)] [(2, 20)] [] 0 5 []) FORWARD =
  aclVlanKeys (mkAcl 1 1 0 [(1, 10)] [(2, 20)] [] 0 65541 []) FORWARD.
Proof.
  apply (proj1 (vlan_keys_truncate_to_16_bits (H := sampleTaps))); reflexivity.
Defined.

(** ** Coordinator: update and flush *)

Section Coordinator.
Context `{TapTypes}.

Implicit Types row : list (option (lru.Cache VlanAndPortMap)).

Lemma flush_steps (mapSize : nat) (js : list nat) row :
  (∀ j, j ∈ js -> ∃ c, row !! j = Some (Some c)) ->
  ∃ row',
    foldM (fun row j =>
             match row !! j with
             | Some (Some c) => Some (<[j := Some (lru.New mapSize)]> row)
             | _ => None
             end) js row = Some row'
    ∧ length row' = length row
    ∧ ∀ i, row' !! i = if decide (i ∈ js) then Some (Some (lru.New mapSize)) else row !! i.
Proof.
  revert row. induction js as [|j js IH]; intros row Hjs.
  - exists row. split; [done|]. split; [done|]. intros i.
    rewrite decide_False; [done|]. apply not_elem_of_nil.
  - rewrite foldM_cons.
    destruct (Hjs j) as [c Hc]; [apply list_elem_of_here|]. rewrite Hc. simpl.
    destruct (IH (<[j := Some (lru.New mapSize)]> row)) as (row' & Hfold & Hlen & Hlook).
    { intros j' Hin. destruct (decide (j = j')) as [<-|Hne].
      - rewrite list_lookup_insert_eq by (by apply lookup_lt_Some in Hc). eauto.
      - rewrite list_lookup_insert_ne by done. apply Hjs. by apply list_elem_of_further. }
    exists row'. split; [done|]. split; [by rewrite Hlen, length_insert|].
    intros i. rewrite Hlook.
    destruct (decide (i = j)) as [->|Hne].
    + rewrite (decide_True (P := j ∈ j :: js)) by apply list_elem_of_here.
      case_decide; [done|].
      by rewrite list_lookup_insert_eq by (by apply lookup_lt_Some in Hc).
    + rewrite list_lookup_insert_ne by done.
      destruct (decide (i ∈ js)) as [Hin|Hnin].
      * by rewrite decide_True by (by apply list_elem_of_further).
      * rewrite decide_False; [done|]. intros Hin.
        apply elem_of_cons in Hin as [?|?]; done.
Qed.

Lemma elem_of_tap_seq (j : nat) :
  j ∈ seq TAP_MIN (TAP_MAX - TAP_MIN) ↔ tapInRange j.
Proof. rewrite elem_of_seq. unfold tapInRange. lia. Qed.

Lemma flushedRow_lookup (mapSize : nat) row (i : nat) :
  flushedRow mapSize row !! i =
  (fun slot => if decide (tapInRange i) then Some (lru.New mapSize) else slot) <$> row !! i.
Proof. unfold flushedRow. by rewrite list_lookup_imap. Qed.

Lemma flushRow_shape (mapSize : nat) row :
  rowShape row -> flushRow mapSize row = Some (flushedRow mapSize row).
Proof.
  intros Hrow.
  destruct (flush_steps mapSize (seq TAP_MIN (TAP_MAX - TAP_MIN)) row)
    as (row' & Hfold & Hlen & Hlook).
  { intros j Hj. apply Hrow. by apply elem_of_tap_seq. }
  unfold flushRow. simpl. rewrite Hfold. f_equal.
  apply list_eq. intros i. rewrite Hlook, flushedRow_lookup.
  destruct (decide (tapInRange i)) as [Hi|Hi].
  - rewrite decide_True by (by apply elem_of_tap_seq).
    destruct (Hrow i Hi) as [c ->]. done.
  - rewrite decide_False by (by rewrite elem_of_tap_seq).
    by destruct (row !! i).
Qed.

Lemma flushRow_is_Some (mapSize : nat) row :
  is_Some (flushRow mapSize row) -> rowShape row.
Proof.
  unfold flushRow, rowShape. simpl.
  assert (Hgen : ∀ js row0,
    is_Some (foldM (fun row j =>
                match row !! j with
                | Some (Some c) => Some (<[j := Some (lru.New mapSize)]> row)
                | _ => None
                end) js row0) ->
    ∀ j, j ∈ js -> ∃ c, row0 !! j = Some (Some c)).
  { induction js as [|j0 js IH]; intros row0 Hsome j Hj.
    - by apply elem_of_nil in Hj.
    - rewrite foldM_cons in Hsome.
      destruct (row0 !! j0) as [[c0|]|] eqn:Hj0; simpl in Hsome;
        try (by destruct Hsome).
      destruct (decide (j = j0)) as [->|Hne]; [eauto|].
      apply elem_of_cons in Hj as [?|Hj]; [done|].
      destruct (IH _ Hsome j Hj) as [c Hc].
      rewrite list_lookup_insert_ne in Hc by done. eauto. }
  intros Hsome j Hj. apply (Hgen _ _ Hsome). by apply elem_of_tap_seq.
Qed.

Lemma flushedRow_shape (mapSize : nat) row : rowShape row -> rowShape (flushedRow mapSize row).
Proof.
  intros Hrow j Hj. rewrite flushedRow_lookup. destruct (Hrow j Hj) as [c ->].
  simpl. rewrite decide_True by done. eauto.
Qed.

Lemma flushedRow_idemp (mapSize : nat) row :
  flushedRow mapSize (flushedRow mapSize row) = flushedRow mapSize row.
Proof.
  apply list_eq. intros i. rewrite !flushedRow_lookup.
  destruct (row !! i); simpl; [|done]. by case_decide.
Qed.

Lemma FlushAcls_shape (l : PolicyLabel) :
  Forall rowShape (FastPolicyMaps l) ->
  FlushAcls l = Some (setFastPolicyMaps l (flushedRow (MapSize l) <$> FastPolicyMaps l)).
Proof.
  intros Hshape. unfold FlushAcls.
  rewrite (proj2 (mapM_Some _ _ (flushedRow (MapSize l) <$> FastPolicyMaps l))); [done|].
  apply Forall2_fmap_r, Forall_Forall2_diag.
  eapply Forall_impl; [exact Hshape|]. intros row. apply flushRow_shape.
Qed.

Lemma FlushAcls_is_Some (l : PolicyLabel) :
  is_Some (FlushAcls l) -> Forall rowShape (FastPolicyMaps l).
Proof.
  unfold FlushAcls. intros [l' Hl'].
  destruct (mapM (flushRow (MapSize l)) (FastPolicyMaps l)) as [fast|] eqn:Hfast;
    [|done].
  apply mapM_Some in Hfast. apply Forall_forall. intros row Hrow.
  apply list_elem_of_lookup in Hrow as [i Hi].
  destruct (Forall2_lookup_l _ _ _ _ _ Hfast Hi) as (row' & _ & Hflush).
  apply (flushRow_is_Some (MapSize l)). by rewrite Hflush.
Qed.

Lemma UpdateAcls_frame (l l' : PolicyLabel) (acls : list Acl) :
  UpdateAcls l acls = Some l' ->
  RawAcls l' = acls
  ∧ FastPolicyMaps l' = FastPolicyMaps l
  ∧ IpNetmaskMap l' = IpNetmaskMap l
  ∧ MapSize l' = MapSize l
  ∧ FastPathDisable l' = FastPathDisable l
  ∧ (FirstPathHit l', FastPathHit l', FirstPathHitTick l', FastPathHitTick l', AclHitMax l')
    = (FirstPathHit l, FastPathHit l, FirstPathHitTick l, FastPathHitTick l, AclHitMax l).
Proof.
  unfold UpdateAcls. cbv zeta.
  destruct (GenerateGroupPortMaps _); [simpl|done].
  destruct (GenerateGroupVlanMaps _); [simpl|done].
  destruct (GenerateInterestMaps _); [simpl|done].
  by intros [= <-].
Qed.

Lemma FlushAcls_slots (l l' : PolicyLabel) :
  FlushAcls l = Some l' ->
  length (FastPolicyMaps l') = length (FastPolicyMaps l)
  ∧ ∀ q row tap, FastPolicyMaps l' !! q = Some row -> tapInRange tap ->
      row !! tap = Some (Some (lru.New (MapSize l))).
Proof.
  intros Hflush.
  assert (Hshape : Forall rowShape (FastPolicyMaps l))
    by (apply FlushAcls_is_Some; by rewrite Hflush).
  rewrite (FlushAcls_shape l Hshape) in Hflush. injection Hflush as <-. simpl.
  split; [by rewrite length_fmap|].
  intros q row tap Hrow Htap.
  apply list_lookup_fmap_Some in Hrow as (row0 & -> & Hrow0).
  rewrite flushedRow_lookup.
  pose proof (proj1 (Forall_lookup _ _) Hshape q row0 Hrow0 tap Htap) as [c ->].
  simpl. by rewrite decide_True.
Qed.

Lemma FlushAcls_empties (l l' : PolicyLabel) : FlushAcls l = Some l' -> cachesEmpty l'.
Proof.
  intros Hflush q row tap Hrow Htap.
  destruct (FlushAcls_slots l l' Hflush) as [_ Hslots].
  exists (lru.New (MapSize l)). split; [by apply (Hslots q)|done].
Qed.

(** C2 (amended).  [UpdateAcls] leaves the fast-path caches exactly as
    they were.  It is [FlushAcls] that empties them: when it returns,
    the array has as many rows as before and every cache
    [FastPolicyMaps[q][tap]], [TAP_MIN <= tap < TAP_MAX], is a new empty
    cache of the configured size.  [AddAcl], and [DelAcl] with an id
    within the list, run [UpdateAcls] and then [FlushAcls], so after
    them every cache is empty. *)
Theorem fast_caches_cleared_by_flush :
  (∀ (l l' : PolicyLabel) (acls : list Acl),
     UpdateAcls l acls = Some l' -> FastPolicyMaps l' = FastPolicyMaps l)
  ∧ (∀ (l l' : PolicyLabel),
       FlushAcls l = Some l' ->
       length (FastPolicyMaps l') = length (FastPolicyMaps l)
       ∧ (∀ q row tap, FastPolicyMaps l' !! q = Some row -> tapInRange tap ->
            row !! tap = Some (Some (lru.New (MapSize l))))
       ∧ cachesEmpty l')
  ∧ (∀ (l l' : PolicyLabel) (acl : Acl), AddAcl l acl = Some l' -> cachesEmpty l')
  ∧ (∀ (l l' : PolicyLabel) (id : Z),
       0 < id <= len (RawAcls l) -> DelAcl l id = Some l' -> cachesEmpty l').
Proof.
  split; [|split; [|split]].
  - intros l l' acls Hupd. by destruct (UpdateAcls_frame l l' acls Hupd) as (_ & ? & _).
  - intros l l' Hflush. destruct (FlushAcls_slots l l' Hflush) as [Hlen Hslots].
    split; [done|]. split; [done|]. by apply (FlushAcls_empties l).
  - intros l l' acl. unfold AddAcl. cbv zeta.
    destruct (UpdateAcls l (RawAcls l ++ [acl])) as [l1|]; [simpl|done].
    apply FlushAcls_empties.
  - intros l l' id Hid. unfold DelAcl. cbv zeta.
    destruct (Z.gtb_spec id (len (RawAcls l))); [lia|].
    destruct (Z.leb_spec id 0); [lia|]. simpl.
    destruct (id =? len (RawAcls l)).
    + destruct (UpdateAcls l _) as [l1|]; [simpl|done]. apply FlushAcls_empties.
    + destruct (UpdateAcls l _) as [l1|]; [simpl|done]. apply FlushAcls_empties.
Qed.

(** X6.  [FlushAcls] returns exactly when every row of the fast-path
    array holds a cache in each slot from [TAP_MIN] up to [TAP_MAX] (a
    nil cache or a short row is a panic).  It then changes nothing but
    the caches: the rules, the compiled tables, the netmask table, the
    configuration and the five counters are as before.  Flushing twice
    is flushing once. *)
Theorem FlushAcls_behaviour (l : PolicyLabel) :
  (is_Some (FlushAcls l) ↔ Forall rowShape (FastPolicyMaps l))
  ∧ (∀ l', FlushAcls l = Some l' ->
       l' = setFastPolicyMaps l (FastPolicyMaps l')
       ∧ FlushAcls l' = Some l').
Proof.
  split.
  - split; [apply FlushAcls_is_Some|].
    intros Hshape. rewrite (FlushAcls_shape l Hshape). by eexists.
  - intros l' Hflush.
    assert (Hshape : Forall rowShape (FastPolicyMaps l))
      by (apply FlushAcls_is_Some; by rewrite Hflush).
    rewrite (FlushAcls_shape l Hshape) in Hflush. injection Hflush as <-.
    split; [done|].
    rewrite FlushAcls_shape.
    + simpl. f_equal. unfold setFastPolicyMaps. simpl. f_equal.
      rewrite <- list_fmap_compose. apply list_fmap_ext.
      intros i row _. simpl. apply flushedRow_idemp.
    + simpl. apply Forall_fmap. eapply Forall_impl; [exact Hshape|].
      intros row. apply flushedRow_shape.
Qed.

Lemma newFastRow_lookup (mapSize : nat) (j : nat) :
  newFastRow mapSize !! j =
  if decide (j < TAP_MAX)%nat
  then Some (if decide (TAP_MIN <= j)%nat then Some (lru.New mapSize) else None)
  else None.
Proof.
  unfold newFastRow. rewrite lookup_map.
  case_decide as Hj.
  - by rewrite lookup_seq_lt by done.
  - by rewrite lookup_seq_ge by lia.
Qed.

Lemma newFastRow_shape (mapSize : nat) : rowShape (newFastRow mapSize).
Proof.
  intros j [Hmin Hmax]. rewrite newFastRow_lookup.
  rewrite decide_True by done. rewrite decide_True by done. eauto.
Qed.

Lemma newFastRow_flushed (mapSize : nat) :
  flushedRow mapSize (newFastRow mapSize) = newFastRow mapSize.
Proof.
  apply list_eq. intros j. rewrite flushedRow_lookup, newFastRow_lookup.
  unfold tapInRange. repeat case_decide; simpl; try done; try lia.
Qed.

(** X7.  A classifier as [NewPolicyLabel] builds it is one that
    [FlushAcls] accepts and leaves as it is, whatever the number of
    workers, the cache size and the tap-type constants. *)
Theorem FlushAcls_NewPolicyLabel (queueCount mapSize : nat) (fastPathDisable : bool) :
  FlushAcls (NewPolicyLabel queueCount mapSize fastPathDisable) =
  Some (NewPolicyLabel queueCount mapSize fastPathDisable).
Proof.
  rewrite FlushAcls_shape.
  - f_equal. unfold setFastPolicyMaps, NewPolicyLabel. simpl. f_equal.
    rewrite fmap_replicate. by rewrite newFastRow_flushed.
  - simpl. apply Forall_replicate. apply newFastRow_shape.
Qed.



End Coordinator.

Lemma fast_caches_cleared_by_flush_witness :
  cachesEmpty (H := sampleTaps)
    (default seededLabel
       (AddAcl (H := sampleTaps) seededLabel
          (mkAcl 7 1 0 [(0, 3)] [(0, 4)] [(0, 80)] 6 0 [mkAction 1 None]))).
Proof.
  destruct (AddAcl (H := sampleTaps) seededLabel
              (mkAcl 7 1 0 [(0, 3)] [(0, 4)] [(0, 80)] 6 0 [mkAction 1 None]))
    as [l'|] eqn:Hadd; [|vm_compute in Hadd; discriminate Hadd].
  simpl.
  exact (proj1 (proj2 (proj2 (fast_caches_cleared_by_flush (H := sampleTaps))))
           seededLabel l' _ Hadd).
Defined.

(** C2 as stated fails: a cache entry seeded by a query survives
    [UpdateAcls].  After [GetPolicyByFirstPath] on a new classifier the
    cache of the query's worker and tap type holds two entries (one per
    direction); [UpdateAcls] with an empty rule list returns a
    classifier whose cache still holds both, and the fast path still
    answers the query from them. *)
Lemma UpdateAcls_keeps_seeded_entries :
  ∃ r l2 c r2,
    GetPolicyByFirstPath (NewPolicyLabel (H := sampleTaps) 1 8 false)
                         sampleEndpoints samplePacket = Some r
    ∧ UpdateAcls (H := sampleTaps) (firstLabel r) [] = Some l2
    ∧ fastCache l2 samplePacket = Some c
    ∧ lru.Len c = 2%nat
    ∧ ¬ cachesEmpty (H := sampleTaps) l2
    ∧ GetPolicyByFastPath l2 samplePacket = Some r2
    ∧ fastPolicy r2 ≠ INVALID_POLICY_DATA.
Proof.
  destruct (GetPolicyByFirstPath (NewPolicyLabel (H := sampleTaps) 1 8 false)
              sampleEndpoints samplePacket) as [r|] eqn:Hfirst;
    [|vm_compute in Hfirst; discriminate Hfirst].
  destruct (UpdateAcls (H := sampleTaps) (firstLabel r) []) as [l2|] eqn:Hupd;
    [|vm_compute in Hfirst, Hupd; injection Hfirst as <-; vm_compute in Hupd;
      discriminate Hupd].
  destruct (fastCache l2 samplePacket) as [c|] eqn:Hc.
  2: { exfalso. vm_compute in Hfirst. injection Hfirst as <-.
       vm_compute in Hupd. injection Hupd as <-. vm_compute in Hc. discriminate Hc. }
  destruct (GetPolicyByFastPath l2 samplePacket) as [r2|] eqn:Hfast.
  2: { exfalso. vm_compute in Hfirst. injection Hfirst as <-.
       vm_compute in Hupd. injection Hupd as <-. vm_compute in Hfast. discriminate Hfast. }
  exists r, l2, c, r2.
  vm_compute in Hfirst. injection Hfirst as <-.
  vm_compute in Hupd. injection Hupd as <-.
  vm_compute in Hc. injection Hc as <-.
  vm_compute in Hfast. injection Hfast as <-.
  split; [reflexivity|]. split; [reflexivity|]. split; [reflexivity|].
  split; [reflexivity|]. split; [|split; [reflexivity|discriminate]].
  intros Hempty.
  destruct (Hempty 0%nat _ 1%nat eq_refl) as (c' & Hslot & Hlen).
  { unfold tapInRange. simpl. lia. }
  vm_compute in Hslot. injection Hslot as <-. vm_compute in Hlen. discriminate Hlen.
Qed.


(** ** The interest tables *)

Section InterestTables.
Context `{TapTypes}.



Lemma setTrue_holds (m : gmap Z bool) (k k' : Z) :
  (∃ v, setTrue m k !! k' = Some v ∧ isTrue v) ↔
  k' = k ∨ (∃ v, m !! k' = Some v ∧ isTrue v).
Proof.
  unfold setTrue, isTrue. destruct (decide (k' = k)) as [->|Hne].
  - rewrite lookup_insert_eq. split; [by left|]. eauto.
  - rewrite lookup_insert_ne by done. split; [by right|]. by intros [|].
Qed.

Lemma tapInterested_holds (maps : TapMaps bool) (tap : nat) (key : Z) :
  tapInterested maps tap key ↔ tapHolds isTrue maps tap key.
Proof.
  unfold tapInterested, tapHolds, tapMap, interested, isTrue. split.
  - intros (m & Hm & Hk).
    destruct (maps !! tap) as [[m'|]|]; try done.
    + injection Hm as <-. destruct (m' !! key) as [v|] eqn:Hv; [|done].
      simpl in Hk. subst v. eauto.
    + injection Hm as <-. by rewrite lookup_empty in Hk.
  - intros (m & v & -> & Hv & ->). exists m. by rewrite Hv.
Qed.

Lemma interestBody_split (acls : list Acl) (protos ports groups : TapMaps bool) :
  foldM interestBody acls (mkInterest protos ports groups) =
  (protos' ← foldM protoInterest acls protos;
   ports' ← foldM portInterest acls ports;
   groups' ← foldM groupInterest acls groups;
   Some (mkInterest protos' ports' groups')).
Proof.
  revert protos ports groups.
  induction acls as [|a acls IH]; intros protos ports groups; [done|].
  rewrite !foldM_cons.
  set (FI := foldM interestBody acls) in *.
  set (FP := foldM protoInterest acls) in *.
  set (FQ := foldM portInterest acls) in *.
  set (FG := foldM groupInterest acls) in *.
  unfold interestBody, protoInterest, portInterest, groupInterest. simpl.
  destruct (CheckTapType (Type' a) (Type' a)); [|simpl; apply IH].
  destruct (tapMapStores protos (Type' a) setTrue [Proto a]) as [protos1|]; [simpl|done].
  destruct (tapMap ports (Type' a)) as [m|]; simpl.
  2: { by destruct (FP protos1). }
  destruct (if len (DstPorts a) <? 0xffff
            then tapMapStores ports (Type' a) setTrue (map snd (DstPorts a))
            else Some ports) as [ports1|]; simpl.
  2: { by destruct (FP protos1). }
  destruct (tapMapStores groups (Type' a) setTrue (map snd (DstGroups a)))
    as [groups1|]; simpl.
  2: { destruct (FP protos1); [simpl|done]. by destruct (FQ ports1). }
  destruct (tapMapStores groups1 (Type' a) setTrue (map snd (SrcGroups a)))
    as [groups2|]; simpl.
  2: { destruct (FP protos1); [simpl|done]. by destruct (FQ ports1). }
  apply IH.
Qed.

Lemma GenerateInterestMaps_split (acls : list Acl) :
  GenerateInterestMaps acls =
  (protos ← foldM protoInterest acls (makeTapMaps bool);
   ports ← foldM portInterest acls (makeTapMaps bool);
   groups ← foldM groupInterest acls (makeTapMaps bool);
   Some (mkInterest protos ports groups)).
Proof. apply interestBody_split. Qed.

Lemma protoInterest_skip maps acl : accepted acl = false -> protoInterest maps acl = Some maps.
Proof. unfold accepted, protoInterest. by intros ->. Qed.

Lemma protoInterest_total maps acl :
  accepted acl = true -> tapShape maps -> tapInRange (Type' acl) ->
  is_Some (protoInterest maps acl).
Proof.
  unfold accepted, protoInterest. intros -> Hshape Htap.
  by apply tapMapStores_in_range.
Qed.

Lemma protoInterest_holds maps maps' acl :
  accepted acl = true -> tapShape maps -> protoInterest maps acl = Some maps' ->
  tapShape maps'
  ∧ ∀ tap key, tapHolds isTrue maps' tap key ↔
      tapHolds isTrue maps tap key ∨ (tap = Type' acl ∧ key ∈ [Proto acl]).
Proof.
  unfold accepted, protoInterest. intros -> Hshape Hbody.
  apply (tapMapStores_holds isTrue setTrue); [apply setTrue_holds|done..].
Qed.

Lemma protoInterest_fails maps acl :
  accepted acl = true -> tapShape maps -> ¬ tapInRange (Type' acl) ->
  protoInterest maps acl = None.
Proof.
  unfold accepted, protoInterest. intros -> Hshape Htap.
  by apply tapMapStores_out_of_range.
Qed.

Lemma portInterest_skip maps acl : accepted acl = false -> portInterest maps acl = Some maps.
Proof. unfold accepted, portInterest. by intros ->. Qed.

Lemma tapMap_in_range {V} (maps : TapMaps V) (tap : nat) :
  tapShape maps -> tapInRange tap -> is_Some (tapMap maps tap).
Proof.
  intros Hshape Htap. unfold tapMap.
  destruct (proj1 (tapShape_lookup maps tap Hshape) Htap) as [m ->]. eauto.
Qed.

Lemma portInterest_total maps acl :
  accepted acl = true -> tapShape maps -> tapInRange (Type' acl) ->
  is_Some (portInterest maps acl).
Proof.
  unfold accepted, portInterest. intros -> Hshape Htap.
  destruct (tapMap_in_range maps (Type' acl) Hshape Htap) as [m ->]. simpl.
  destruct (len (DstPorts acl) <? 0xffff); [|by eexists].
  by apply tapMapStores_in_range.
Qed.

Lemma portInterest_holds maps maps' acl :
  accepted acl = true -> tapShape maps -> portInterest maps acl = Some maps' ->
  tapShape maps'
  ∧ ∀ tap key, tapHolds isTrue maps' tap key ↔
      tapHolds isTrue maps tap key ∨ (tap = Type' acl ∧ key ∈ interestPorts acl).
Proof.
  unfold accepted, portInterest, interestPorts. intros -> Hshape.
  destruct (tapMap maps (Type' acl)); [simpl|done].
  destruct (len (DstPorts acl) <? 0xffff).
  - intros Hbody.
    apply (tapMapStores_holds isTrue setTrue); [apply setTrue_holds|done..].
  - intros [= <-]. split; [done|]. intros tap key. split; [by left|].
    intros [Hh|[_ Hin]]; [done|]. by apply elem_of_nil in Hin.
Qed.

Lemma groupInterest_skip maps acl : accepted acl = false -> groupInterest maps acl = Some maps.
Proof. unfold accepted, groupInterest. by intros ->. Qed.

Lemma groupInterest_total maps acl :
  accepted acl = true -> tapShape maps -> tapInRange (Type' acl) ->
  is_Some (groupInterest maps acl).
Proof.
  unfold accepted, groupInterest. intros -> Hshape Htap.
  destruct (tapMapStores_in_range setTrue maps (Type' acl)
              (map snd (DstGroups acl)) Hshape Htap) as [mid Hmid].
  rewrite Hmid. simpl. apply tapMapStores_in_range; [|done].
  by destruct (tapMapStores_holds isTrue setTrue setTrue_holds maps mid _ _ Hshape Hmid).
Qed.

Lemma groupInterest_holds maps maps' acl :
  accepted acl = true -> tapShape maps -> groupInterest maps acl = Some maps' ->
  tapShape maps'
  ∧ ∀ tap key, tapHolds isTrue maps' tap key ↔
      tapHolds isTrue maps tap key
      ∨ (tap = Type' acl ∧ key ∈ map snd (DstGroups acl) ++ map snd (SrcGroups acl)).
Proof.
  unfold accepted, groupInterest. intros -> Hshape.
  destruct (tapMapStores maps (Type' acl) setTrue (map snd (DstGroups acl)))
    as [mid|] eqn:Hmid; [simpl|done].
  intros Hsrc.
  destruct (tapMapStores_holds isTrue setTrue setTrue_holds maps mid _ _ Hshape Hmid)
    as [Hshape1 Hdst].
  destruct (tapMapStores_holds isTrue setTrue setTrue_holds mid maps' _ _ Hshape1 Hsrc)
    as [Hshape2 Hsrc'].
  split; [done|]. intros tap key. rewrite Hsrc', Hdst, elem_of_app. tauto.
Qed.

Lemma interest_tables_hold (acls : list Acl) (im : InterestMaps) :
  GenerateInterestMaps acls = Some im ->
  ∀ tap key,
    (tapInterested (interestProto im) tap key ↔
     ∃ acl, acl ∈ acls ∧ accepted acl = true ∧ Type' acl = tap ∧ Proto acl = key)
    ∧ (tapInterested (interestPort im) tap key ↔
       ∃ acl, acl ∈ acls ∧ accepted acl = true ∧ Type' acl = tap
              ∧ len (DstPorts acl) < 0xffff ∧ key ∈ map snd (DstPorts acl))
    ∧ (tapInterested (interestGroup im) tap key ↔
       ∃ acl, acl ∈ acls ∧ accepted acl = true ∧ Type' acl = tap
              ∧ (key ∈ map snd (SrcGroups acl) ∨ key ∈ map snd (DstGroups acl))).
Proof.
  rewrite GenerateInterestMaps_split.
  destruct (foldM protoInterest acls (makeTapMaps bool)) as [protos|] eqn:Hp; [simpl|done].
  destruct (foldM portInterest acls (makeTapMaps bool)) as [ports|] eqn:Hq; [simpl|done].
  destruct (foldM groupInterest acls (makeTapMaps bool)) as [groups|] eqn:Hg; [simpl|done].
  intros [= <-] tap key. simpl. rewrite !tapInterested_holds.
  destruct (loop_holds isTrue protoInterest accepted (fun acl => [Proto acl])
              protoInterest_skip protoInterest_holds
              acls _ protos (makeTapMaps_shape _) Hp) as [_ Hprotos].
  destruct (loop_holds isTrue portInterest accepted interestPorts
              portInterest_skip portInterest_holds
              acls _ ports (makeTapMaps_shape _) Hq) as [_ Hports].
  destruct (loop_holds isTrue groupInterest accepted
              (fun acl => map snd (DstGroups acl) ++ map snd (SrcGroups acl))
              groupInterest_skip groupInterest_holds
              acls _ groups (makeTapMaps_shape _) Hg) as [_ Hgroups].
  rewrite Hprotos, Hports, Hgroups. split; [|split].
  - split.
    + intros [Hh|(acl & Hin & Hacc & Htap & Hk)]; [by apply not_tapHolds_make in Hh|].
      apply list_elem_of_singleton in Hk. by exists acl.
    + intros (acl & Hin & Hacc & Htap & Hk). right. exists acl.
      split; [done|]. split; [done|]. split; [done|]. by apply list_elem_of_singleton.
  - unfold interestPorts. split.
    + intros [Hh|(acl & Hin & Hacc & Htap & Hk)]; [by apply not_tapHolds_make in Hh|].
      exists acl. destruct (Z.ltb_spec (len (DstPorts acl)) 0xffff);
        [done|by apply elem_of_nil in Hk].
    + intros (acl & Hin & Hacc & Htap & Hlen & Hk). right. exists acl.
      split; [done|]. split; [done|]. split; [done|].
      by destruct (Z.ltb_spec (len (DstPorts acl)) 0xffff); [|lia].
  - split.
    + intros [Hh|(acl & Hin & Hacc & Htap & Hk)]; [by apply not_tapHolds_make in Hh|].
      exists acl. apply elem_of_app in Hk. tauto.
    + intros (acl & Hin & Hacc & Htap & Hk). right. exists acl.
      split; [done|]. split; [done|]. split; [done|]. apply elem_of_app. tauto.
Qed.

(** X9.  What the interest tables hold after [GenerateInterestMaps]: a
    protocol is of interest for a tap type exactly when an ACL of that
    tap type that passes [CheckTapType] names it; a port exactly when
    such an ACL lists it among fewer than 0xffff ports (an ACL with
    0xffff ports or more adds none); a group exactly when such an ACL
    has it among its source or destination groups. *)
Theorem GenerateInterestMaps_contents (acls : list Acl) (im : InterestMaps) :
  GenerateInterestMaps acls = Some im ->
  ∀ tap key,
    (tapInterested (interestProto im) tap key ↔
     ∃ acl, acl ∈ acls ∧ accepted acl = true ∧ Type' acl = tap ∧ Proto acl = key)
    ∧ (tapInterested (interestPort im) tap key ↔
       ∃ acl, acl ∈ acls ∧ accepted acl = true ∧ Type' acl = tap
              ∧ len (DstPorts acl) < 0xffff ∧ key ∈ map snd (DstPorts acl))
    ∧ (tapInterested (interestGroup im) tap key ↔
       ∃ acl, acl ∈ acls ∧ accepted acl = true ∧ Type' acl = tap
              ∧ (key ∈ map snd (SrcGroups acl) ∨ key ∈ map snd (DstGroups acl))).
Proof. apply interest_tables_hold. Qed.

End InterestTables.

Lemma GenerateInterestMaps_contents_witness :
  ∃ im,
    GenerateInterestMaps (H := sampleTaps)
      [mkAcl 7 1 0 [(0, 3)] [(0, 4)] [(0, 80)] 6 0 [mkAction 1 None]] = Some im
    ∧ tapInterested (interestPort im) 1 80.
Proof.
  destruct (GenerateInterestMaps (H := sampleTaps)
              [mkAcl 7 1 0 [(0, 3)] [(0, 4)] [(0, 80)] 6 0 [mkAction 1 None]])
    as [im|] eqn:Hgen; [|vm_compute in Hgen; discriminate Hgen].
  exists im. split; [reflexivity|].
  apply (GenerateInterestMaps_contents (H := sampleTaps) _ im Hgen 1%nat 80).
  exists (mkAcl 7 1 0 [(0, 3)] [(0, 4)] [(0, 80)] 6 0 [mkAction 1 None]).
  split; [apply list_elem_of_here|].
  split; [reflexivity|]. split; [reflexivity|]. split; [reflexivity|].
  apply list_elem_of_here.
Defined.

(** ** UpdateAcls as a whole *)

Section Update.
Context `{TapTypes}.

Lemma expandAcls_acc (acls acc : list Acl) :
  fold_left
    (fun generateAcls acl =>
       if decide (Type' acl = TAP_ANY)
       then generateAcls ++
            map (fun i => mkAcl (Id acl) i (TapId acl) (SrcGroups acl) (DstGroups acl)
                                (DstPorts acl) (Proto acl) (Vlan acl) (Action acl))
                (seq TAP_MIN (TAP_MAX - TAP_MIN))
       else generateAcls ++ [acl])
    acls acc = acc ++ flat_map expandOne acls.
Proof.
  revert acc. induction acls as [|a acls IH]; intros acc; simpl.
  - by rewrite app_nil_r.
  - rewrite IH. unfold expandOne at 2. case_decide; by rewrite <- app_assoc.
Qed.

Lemma expandAcls_flat (acls : list Acl) : expandAcls acls = flat_map expandOne acls.
Proof. unfold expandAcls. by rewrite expandAcls_acc. Qed.

Lemma elem_of_expandAcls (acls : list Acl) (acl' : Acl) :
  acl' ∈ expandAcls acls ↔
  ∃ acl tap, acl ∈ acls ∧ compiledFor acl tap
         ∧ acl' = mkAcl (Id acl) tap (TapId acl) (SrcGroups acl) (DstGroups acl)
                        (DstPorts acl) (Proto acl) (Vlan acl) (Action acl).
Proof.
  rewrite expandAcls_flat, list_elem_of_In, in_flat_map. unfold expandOne, compiledFor.
  split.
  - intros (acl & Hin & Hexp). exists acl. apply list_elem_of_In in Hin.
    case_decide as Hany.
    + apply in_map_iff in Hexp as (i & <- & Hi). exists i. split; [done|].
      apply list_elem_of_In, elem_of_seq in Hi. split; [|done].
      right. split; [done|]. unfold tapInRange. lia.
    + destruct Hexp as [<-|[]]. exists (Type' acl). split; [done|].
      split; [by left|]. by destruct acl.
  - intros (acl & tap & Hin & Hfor & ->). exists acl. rewrite <- list_elem_of_In.
    split; [done|].
    destruct Hfor as [[Hne ->]|[Hany Hr]].
    + rewrite decide_False by done. left. by destruct acl.
    + rewrite decide_True by done. apply in_map_iff. exists tap.
      split; [done|]. apply list_elem_of_In, elem_of_seq. unfold tapInRange in Hr. lia.
Qed.

Lemma UpdateAcls_tables (l l' : PolicyLabel) (acls : list Acl) :
  UpdateAcls l acls = Some l' ->
  GenerateGroupPortMaps (expandAcls acls) = Some (GroupPortPolicyMaps l')
  ∧ GenerateGroupVlanMaps (expandAcls acls) = Some (GroupVlanPolicyMaps l')
  ∧ GenerateInterestMaps (expandAcls acls) =
    Some (mkInterest (InterestProtoMaps l') (InterestPortMaps l') (InterestGroupMaps l')).
Proof.
  unfold UpdateAcls. cbv zeta.
  destruct (GenerateGroupPortMaps _) as [portMaps|]; [simpl|done].
  destruct (GenerateGroupVlanMaps _) as [vlanMaps|]; [simpl|done].
  destruct (GenerateInterestMaps _) as [[protos ports groups]|]; [simpl|done].
  by intros [= <-].
Qed.

Lemma interest_tables_total (acls : list Acl) :
  (∀ acl, acl ∈ acls -> accepted acl = true -> tapInRange (Type' acl)) ->
  is_Some (GenerateInterestMaps acls).
Proof.
  intros Hok. rewrite GenerateInterestMaps_split.
  destruct (loop_total isTrue protoInterest accepted (fun acl => [Proto acl])
              protoInterest_skip protoInterest_total protoInterest_holds
              acls _ (makeTapMaps_shape _) Hok) as [protos ->].
  destruct (loop_total isTrue portInterest accepted interestPorts
              portInterest_skip portInterest_total portInterest_holds
              acls _ (makeTapMaps_shape _) Hok) as [ports ->].
  destruct (loop_total isTrue groupInterest accepted
              (fun acl => map snd (DstGroups acl) ++ map snd (SrcGroups acl))
              groupInterest_skip groupInterest_total groupInterest_holds
              acls _ (makeTapMaps_shape _) Hok) as [groups ->].
  by eexists.
Qed.

Lemma interest_tables_need_range (acls : list Acl) :
  is_Some (GenerateInterestMaps acls) ->
  ∀ acl, acl ∈ acls -> accepted acl = true -> tapInRange (Type' acl).
Proof.
  rewrite GenerateInterestMaps_split. intros Hsome.
  apply (loop_fails isTrue protoInterest accepted (fun acl => [Proto acl])
           protoInterest_skip protoInterest_holds _ (makeTapMaps bool)
           protoInterest_fails (makeTapMaps_shape _)).
  destruct (foldM protoInterest acls (makeTapMaps bool)); [by eexists|].
  by destruct Hsome.
Qed.

Lemma expanded_in_range (acls : list Acl) :
  (∀ acl, acl ∈ expandAcls acls -> accepted acl = true -> tapInRange (Type' acl)) ↔
  (∀ acl, acl ∈ acls -> Type' acl ≠ TAP_ANY -> accepted acl = true ->
          tapInRange (Type' acl)).
Proof.
  split.
  - intros Hexp acl Hin Hne Hacc. apply Hexp; [|done].
    apply elem_of_expandAcls. exists acl, (Type' acl). split; [done|].
    split; [by left|]. by destruct acl.
  - intros Hacls acl' Hin Hacc.
    apply elem_of_expandAcls in Hin as (acl & tap & Hin & [[Hne ->]|[Hany Hr]] & ->);
      [|done].
    simpl. by apply Hacls.
Qed.

(** X10.  [UpdateAcls] returns exactly when every ACL of the list whose
    tap type is not [TAP_ANY] and passes [CheckTapType] has that tap
    type within [TAP_MIN, TAP_MAX): an accepted tap type outside the
    slots that were made is a panic, and an ACL for [TAP_ANY] never is,
    since it is compiled for the slots only. *)
Theorem UpdateAcls_returns_iff (l : PolicyLabel) (acls : list Acl) :
  is_Some (UpdateAcls l acls) ↔
  ∀ acl, acl ∈ acls -> Type' acl ≠ TAP_ANY -> accepted acl = true ->
         tapInRange (Type' acl).
Proof.
  rewrite <- expanded_in_range. split.
  - intros [l' Hupd]. destruct (UpdateAcls_tables l l' acls Hupd) as (_ & _ & Him).
    apply interest_tables_need_range. by rewrite Him.
  - intros Hok. unfold UpdateAcls. cbv zeta.
    destruct (port_table_total (expandAcls acls)) as [portMaps ->];
      [intros acl Hin Hacc _; by apply Hok|].
    destruct (vlan_table_total (expandAcls acls)) as [vlanMaps ->];
      [intros acl Hin Hacc _; by apply Hok|].
    destruct (interest_tables_total (expandAcls acls) Hok) as [im ->].
    by eexists.
Qed.

(** X11.  What the two policy tables hold after [UpdateAcls]: a key is
    present for a tap type exactly when some ACL of the list is compiled
    for that tap type (its own, or any tap type from [TAP_MIN] up to
    [TAP_MAX] for a [TAP_ANY] ACL), the tap type passes [CheckTapType],
    and the ACL compiles to the key: as a port key when its vlan is 0,
    as a vlan key of either direction when its vlan is above 0. *)
Theorem UpdateAcls_rule_round_trip (l l' : PolicyLabel) (acls : list Acl) :
  UpdateAcls l acls = Some l' ->
  ∀ tap key,
    (tapHolds anyPolicy (GroupPortPolicyMaps l') tap key ↔
     ∃ acl, acl ∈ acls ∧ compiledFor acl tap ∧ CheckTapType tap tap = true
            ∧ Vlan acl = 0 ∧ key ∈ generateGroupPortsKeys acl FORWARD)
    ∧ (tapHolds anyPolicy (GroupVlanPolicyMaps l') tap key ↔
       ∃ acl direction, acl ∈ acls ∧ compiledFor acl tap ∧ CheckTapType tap tap = true
                        ∧ Vlan acl > 0 ∧ key ∈ aclVlanKeys acl direction).
Proof.
  intros Hupd tap key.
  destruct (UpdateAcls_tables l l' acls Hupd) as (Hport & Hvlan & _).
  rewrite (port_table_holds _ _ Hport), (vlan_table_holds _ _ Hvlan).
  split; split.
  - intros (acl' & Hin & Hacc & Hv & Htap & Hk).
    apply elem_of_expandAcls in Hin as (acl & tap' & Hin & Hfor & ->). simpl in *.
    subst tap'. by exists acl.
  - intros (acl & Hin & Hfor & Hacc & Hv & Hk).
    exists (mkAcl (Id acl) tap (TapId acl) (SrcGroups acl) (DstGroups acl)
                  (DstPorts acl) (Proto acl) (Vlan acl) (Action acl)).
    split; [|done]. apply elem_of_expandAcls. by exists acl, tap.
  - intros (acl' & direction & Hin & Hacc & Hv & Htap & Hk).
    apply elem_of_expandAcls in Hin as (acl & tap' & Hin & Hfor & ->). simpl in *.
    subst tap'. exists acl, direction. by destruct direction.
  - intros (acl & direction & Hin & Hfor & Hacc & Hv & Hk).
    exists (mkAcl (Id acl) tap (TapId acl) (SrcGroups acl) (DstGroups acl)
                  (DstPorts acl) (Proto acl) (Vlan acl) (Action acl)), direction.
    split; [apply elem_of_expandAcls; by exists acl, tap|].
    by destruct direction.
Qed.

End Update.

Lemma UpdateAcls_rule_round_trip_witness :
  ∃ l',
    UpdateAcls (H := sampleTaps) (NewPolicyLabel (H := sampleTaps) 1 8 false)
      [mkAcl 7 0 0 [(0, 3)] [(0, 4)] [(0, 80)] 6 0 [mkAction 1 None]] = Some l'
    ∧ tapHolds anyPolicy (GroupPortPolicyMaps l') 3 0x0600500000300004.
Proof.
  destruct (UpdateAcls (H := sampleTaps) (NewPolicyLabel (H := sampleTaps) 1 8 false)
              [mkAcl 7 0 0 [(0, 3)] [(0, 4)] [(0, 80)] 6 0 [mkAction 1 None]])
    as [l'|] eqn:Hupd; [|vm_compute in Hupd; discriminate Hupd].
  exists l'. split; [reflexivity|].
  apply (UpdateAcls_rule_round_trip (H := sampleTaps) _ l' _ Hupd 3%nat).
  exists (mkAcl 7 0 0 [(0, 3)] [(0, 4)] [(0, 80)] 6 0 [mkAction 1 None]).
  split; [apply list_elem_of_here|].
  split; [right; split; [reflexivity|unfold tapInRange; simpl; lia]|].
  split; [reflexivity|]. split; [reflexivity|].
  vm_compute. apply list_elem_of_here.
Defined.

(** ** The fast-path cache of one worker and tap type *)

Section FastCache.

Implicit Types (l : PolicyLabel) (packet : LookupKey.t) (c : lru.Cache VlanAndPortMap).

Lemma tablesOf_setFastPolicyMaps l fast : tablesOf (setFastPolicyMaps l fast) = tablesOf l.
Proof. done. Qed.

Lemma tablesOf_setFastCache l packet c : tablesOf (setFastCache l packet c) = tablesOf l.
Proof. done. Qed.

Lemma subnetKey_tables l l' packet direction :
  tablesOf l' = tablesOf l -> subnetKey l' packet direction = subnetKey l packet direction.
Proof.
  intros Ht. unfold subnetKey.
  change (IpNetmaskMap l') with (IpNetmaskMap (tablesOf l')).
  change (IpNetmaskMap l) with (IpNetmaskMap (tablesOf l)). by rewrite Ht.
Qed.

Lemma fastCache_setFastCache l packet c0 c :
  fastCache l packet = Some c0 -> fastCache (setFastCache l packet c) packet = Some c.
Proof.
  unfold fastCache, setFastCache. simpl.
  destruct (FastPolicyMaps l !! LookupKey.FastIndex packet) as [row|] eqn:Hrow;
    [simpl|done].
  destruct (row !! LookupKey.Tap packet) as [slot|] eqn:Hslot; [simpl|done].
  intros _. rewrite list_lookup_alter_eq, Hrow. simpl.
  by rewrite list_lookup_insert_eq by (by apply lookup_lt_Some in Hslot).
Qed.

Lemma getVlanAndPortMap_create l packet direction c :
  fastCache l packet = Some c ->
  ∃ l',
    getVlanAndPortMap l packet direction true =
      Some (Some (fst (openMaps c (subnetKey l packet direction))), l')
    ∧ fastCache l' packet = Some (snd (openMaps c (subnetKey l packet direction)))
    ∧ tablesOf l' = tablesOf l.
Proof.
  intros Hc. unfold getVlanAndPortMap, openMaps, lru.Get. rewrite Hc. simpl.
  destruct (lru.peek c (subnetKey l packet direction)) as [maps|]; simpl.
  - eexists. split; [done|]. split; [by apply (fastCache_setFastCache _ _ c)|done].
  - eexists. split; [done|]. split; [by apply (fastCache_setFastCache _ _ c)|done].
Qed.

Lemma getVlanAndPortMap_read l packet direction c :
  fastCache l packet = Some c ->
  match lru.peek c (subnetKey l packet direction) with
  | Some maps =>
      ∃ l', getVlanAndPortMap l packet direction false = Some (Some maps, l')
            ∧ fastCache l' packet = Some (lru.touch c (subnetKey l packet direction))
            ∧ tablesOf l' = tablesOf l
  | None => getVlanAndPortMap l packet direction false = Some (None, l)
  end.
Proof.
  intros Hc. unfold getVlanAndPortMap, lru.Get. rewrite Hc. simpl.
  destruct (lru.peek c (subnetKey l packet direction)) as [maps|]; simpl; [|done].
  eexists. split; [done|]. split; [by apply (fastCache_setFastCache _ _ c)|done].
Qed.

Lemma storeMaps_cache l packet direction maps c :
  fastCache l packet = Some c ->
  fastCache (storeMaps l packet direction maps) packet =
    Some (lru.poke c (subnetKey l packet direction) maps)
  ∧ tablesOf (storeMaps l packet direction maps) = tablesOf l.
Proof.
  intros Hc. unfold storeMaps. rewrite Hc.
  split; [by apply (fastCache_setFastCache _ _ c)|done].
Qed.

Lemma addPortFastPolicy_cache l endpointData packet policy direction c :
  fastCache l packet = Some c ->
  ∃ l',
    addPortFastPolicy l endpointData packet policy direction = Some l'
    ∧ fastCache l' packet =
      Some (seedWith c (subnetKey l packet direction)
              (fun maps => withPort maps endpointData packet policy direction))
    ∧ tablesOf l' = tablesOf l.
Proof.
  intros Hc.
  destruct (getVlanAndPortMap_create l packet direction c Hc) as (l1 & Hget & Hc1 & Ht1).
  destruct (storeMaps_cache l1 packet direction
              (withPort (fst (openMaps c (subnetKey l packet direction)))
                        endpointData packet policy direction) _ Hc1) as [Hc2 Ht2].
  rewrite (subnetKey_tables l l1) in Hc2 by done.
  exists (storeMaps l1 packet direction
            (withPort (fst (openMaps c (subnetKey l packet direction)))
                      endpointData packet policy direction)).
  split; [|split].
  - unfold addPortFastPolicy. rewrite Hget. destruct direction; reflexivity.
  - unfold seedWith. by destruct (openMaps c (subnetKey l packet direction)).
  - by rewrite Ht2.
Qed.

Lemma addVlanFastPolicy_cache l endpointData packet policy c :
  fastCache l packet = Some c ->
  ∃ l',
    addVlanFastPolicy l endpointData packet policy = Some l'
    ∧ fastCache l' packet =
      Some (seedWith
              (seedWith c (subnetKey l packet FORWARD)
                 (fun maps => withVlan maps endpointData packet policy FORWARD))
              (subnetKey l packet BACKWARD)
              (fun maps => withVlan maps endpointData packet policy BACKWARD))
    ∧ tablesOf l' = tablesOf l.
Proof.
  intros Hc.
  destruct (getVlanAndPortMap_create l packet FORWARD c Hc) as (l1 & Hget1 & Hc1 & Ht1).
  destruct (storeMaps_cache l1 packet FORWARD
              (withVlan (fst (openMaps c (subnetKey l packet FORWARD)))
                        endpointData packet policy FORWARD) _ Hc1) as [Hc2 Ht2].
  rewrite (subnetKey_tables l l1) in Hc2 by done.
  set (l2 := storeMaps l1 packet FORWARD
               (withVlan (fst (openMaps c (subnetKey l packet FORWARD)))
                         endpointData packet policy FORWARD)) in *.
  assert (Ht02 : tablesOf l2 = tablesOf l) by (by rewrite Ht2).
  destruct (getVlanAndPortMap_create l2 packet BACKWARD _ Hc2)
    as (l3 & Hget3 & Hc3 & Ht3).
  rewrite (subnetKey_tables l l2) in Hget3, Hc3 by done.
  set (c2 := lru.poke (snd (openMaps c (subnetKey l packet FORWARD)))
               (subnetKey l packet FORWARD)
               (withVlan (fst (openMaps c (subnetKey l packet FORWARD)))
                         endpointData packet policy FORWARD)) in *.
  destruct (storeMaps_cache l3 packet BACKWARD
              (withVlan (fst (openMaps c2 (subnetKey l packet BACKWARD)))
                        endpointData packet policy BACKWARD) _ Hc3) as [Hc4 Ht4].
  rewrite (subnetKey_tables l l3) in Hc4 by (by rewrite Ht3).
  exists (storeMaps l3 packet BACKWARD
            (withVlan (fst (openMaps c2 (subnetKey l packet BACKWARD)))
                      endpointData packet policy BACKWARD)).
  split; [|split].
  - unfold addVlanFastPolicy. rewrite Hget1. cbn [mbind option_bind].
    unfold addEpcMap. cbv beta iota zeta.
    match goal with
    | |- context [getVlanAndPortMap ?x packet BACKWARD true] => change x with l2
    end.
    rewrite Hget3. reflexivity.
  - rewrite Hc4. f_equal. unfold seedWith.
    destruct (openMaps c (subnetKey l packet FORWARD)) as [m1 c1]. simpl in *.
    fold c2. by destruct (openMaps c2 (subnetKey l packet BACKWARD)).
  - by rewrite Ht4, Ht3.
Qed.

End FastCache.

(** ** What a seeding leaves in the maps *)

Section SeedMaps.

Implicit Types (maps : VlanAndPortMap) (endpointData : EndpointData)
  (packet : LookupKey.t).

Lemma innerOk_new : innerOk newVlanAndPortMap.
Proof. done. Qed.

Lemma withEpcs_macs maps endpointData packet :
  macEpcMap (withEpcs maps endpointData packet) =
  lru.Add (lru.Add (macEpcMap maps) (LookupKey.SrcMac packet) (epcId (SrcInfo endpointData)))
          (LookupKey.DstMac packet) (epcId (DstInfo endpointData)).
Proof. done. Qed.

Lemma withEpcs_peek maps endpointData packet :
  lru.MaxEntries (macEpcMap maps) ≠ 1%nat -> macsOk endpointData packet ->
  lru.peek (macEpcMap (withEpcs maps endpointData packet)) (LookupKey.SrcMac packet)
    = Some (epcId (SrcInfo endpointData))
  ∧ lru.peek (macEpcMap (withEpcs maps endpointData packet)) (LookupKey.DstMac packet)
    = Some (epcId (DstInfo endpointData)).
Proof.
  intros Hcap Hmacs. rewrite withEpcs_macs. split; [|apply peek_Add_eq].
  destruct (decide (LookupKey.SrcMac packet = LookupKey.DstMac packet)) as [Heq|Hne].
  - destruct Hmacs as [Hne|Hepc]; [done|]. rewrite Heq, Hepc. apply peek_Add_eq.
  - rewrite peek_Add_ne_front.
    + apply peek_Add_eq.
    + done.
    + apply atFront_Add.
    + by rewrite MaxEntries_Add.
Qed.

Lemma withEpcs_innerOk maps endpointData packet :
  innerOk maps -> innerOk (withEpcs maps endpointData packet).
Proof.
  intros (Hm & Hv & Hp). split; [|done].
  rewrite withEpcs_macs. by rewrite !MaxEntries_Add.
Qed.

Lemma withPort_innerOk maps endpointData packet policy direction :
  innerOk maps -> innerOk (withPort maps endpointData packet policy direction).
Proof.
  intros Hok. apply (withEpcs_innerOk _ endpointData packet) in Hok.
  destruct Hok as (Hm & Hv & Hp). unfold withPort. cbv zeta.
  split; [done|]. split; [done|]. simpl. by rewrite MaxEntries_Add.
Qed.

Lemma withVlan_innerOk maps endpointData packet policy direction :
  innerOk maps -> innerOk (withVlan maps endpointData packet policy direction).
Proof.
  intros Hok. apply (withEpcs_innerOk _ endpointData packet) in Hok.
  destruct Hok as (Hm & Hv & Hp). unfold withVlan. cbv zeta.
  split; [done|]. split; [|done]. simpl. by rewrite MaxEntries_Add.
Qed.

Lemma innerOk_cap maps :
  innerOk maps ->
  lru.MaxEntries (macEpcMap maps) ≠ 1%nat
  ∧ lru.MaxEntries (vlanPolicyMap maps) ≠ 1%nat
  ∧ lru.MaxEntries (portPolicyMap maps) ≠ 1%nat.
Proof. intros (-> & -> & ->). done. Qed.

End SeedMaps.

(** ** What a seeding leaves in the cache *)

Section SeedCache.

Implicit Types (c : lru.Cache VlanAndPortMap) (store : VlanAndPortMap -> VlanAndPortMap).

Lemma assoc_removelast_Some {V} (l : list (Z * V)) (k : Z) (v : V) :
  lru.assoc k (removelast l) = Some v -> lru.assoc k l = Some v.
Proof.
  induction l as [|[k0 v0] l IH]; [done|].
  destruct l as [|e l']; [done|].
  change (removelast ((k0, v0) :: e :: l')) with ((k0, v0) :: removelast (e :: l')).
  cbn [lru.assoc]. case_decide; [done|]. apply IH.
Qed.

Lemma peek_Add_ne_Some {V} (c : lru.Cache V) (k k' : Z) (v v' : V) :
  k ≠ k' -> lru.peek (lru.Add c k v) k' = Some v' -> lru.peek c k' = Some v'.
Proof.
  intros Hne. unfold lru.peek, lru.Add.
  destruct (lru.assoc k (lru.ll c)) as [v0|] eqn:Hk.
  - cbn [lru.ll lru.assoc]. rewrite decide_False by done.
    by rewrite assoc_without_ne by done.
  - cbv zeta. case_decide.
    + unfold lru.RemoveOldest. cbn [lru.ll]. intros Hv.
      apply assoc_removelast_Some in Hv. cbn [lru.assoc] in Hv.
      by rewrite decide_False in Hv by done.
    + cbn [lru.ll lru.assoc]. by rewrite decide_False by done.
Qed.

Lemma seedWith_peek_eq c key store :
  lru.peek (seedWith c key store) key =
  Some (store (default newVlanAndPortMap (lru.peek c key))).
Proof.
  unfold seedWith, openMaps.
  destruct (lru.peek c key) as [maps|] eqn:Hk; simpl.
  - rewrite peek_poke, decide_True by done. by rewrite peek_touch, Hk.
  - rewrite peek_poke, decide_True by done. by rewrite peek_Add_eq.
Qed.

Lemma seedWith_atFront c key store : atFront (seedWith c key store) key.
Proof.
  unfold seedWith, openMaps.
  destruct (lru.peek c key) as [maps|] eqn:Hk; simpl; apply atFront_poke.
  - apply atFront_touch. by rewrite Hk.
  - apply atFront_Add.
Qed.

Lemma seedWith_MaxEntries c key store :
  lru.MaxEntries (seedWith c key store) = lru.MaxEntries c.
Proof.
  unfold seedWith, openMaps.
  destruct (lru.peek c key); simpl; [apply MaxEntries_touch|apply MaxEntries_Add].
Qed.

Lemma seedWith_peek_ne c key store key' :
  key ≠ key' ->
  is_Some (lru.peek c key) ∨ (atFront c key' ∧ lru.MaxEntries c ≠ 1%nat) ->
  lru.peek (seedWith c key store) key' = lru.peek c key'.
Proof.
  intros Hne Hkeep. unfold seedWith, openMaps.
  destruct (lru.peek c key) as [maps|] eqn:Hk; simpl.
  - rewrite peek_poke, decide_False by done. apply peek_touch.
  - rewrite peek_poke, decide_False by done.
    destruct Hkeep as [[? ?]|[Hfront Hcap]]; [done|].
    by apply peek_Add_ne_front.
Qed.

Lemma seedWith_entriesOk c key store :
  entriesOk c -> (∀ maps, innerOk maps -> innerOk (store maps)) ->
  entriesOk (seedWith c key store).
Proof.
  intros Hc Hstore key' maps'.
  destruct (decide (key = key')) as [<-|Hne].
  - rewrite seedWith_peek_eq. intros [= <-]. apply Hstore.
    destruct (lru.peek c key) as [maps|] eqn:Hk; simpl; [by apply (Hc key)|done].
  - unfold seedWith, openMaps.
    destruct (lru.peek c key) as [maps|] eqn:Hk; simpl;
      rewrite peek_poke, decide_False by done.
    + rewrite peek_touch. apply Hc.
    + intros Hv. apply peek_Add_ne_Some in Hv; [|done]. by apply (Hc key').
Qed.

End SeedCache.

(** ** GetPolicyByFirstPath, seen from the cache *)

Section FirstPath.

Implicit Types (l : PolicyLabel) (packet : LookupKey.t) (c : lru.Cache VlanAndPortMap).

Lemma firstPathLookups_cache l endpointData packet0 packet portGroup vlanGroup c :
  generateInterestKeys l endpointData packet0 = Some packet ->
  tapMap (GroupPortPolicyMaps l) (LookupKey.Tap packet) = Some portGroup ->
  tapMap (GroupVlanPolicyMaps l) (LookupKey.Tap packet) = Some vlanGroup ->
  fastCache l packet = Some c ->
  ∃ l',
    firstPathLookups l endpointData packet0 =
      Some (mkFirstLocals l' packet (firstMerged vlanGroup portGroup packet)
              (snd (firstVlan vlanGroup packet))
              (snd (firstBackward portGroup packet (snd (firstForward portGroup packet)))))
    ∧ fastCache l' packet =
      Some (firstSeeds c (subnetKey l packet FORWARD) (subnetKey l packet BACKWARD)
              endpointData packet (fst (firstVlan vlanGroup packet))
              (fst (firstForward portGroup packet))
              (fst (firstBackward portGroup packet (snd (firstForward portGroup packet)))))
    ∧ tablesOf l' = tablesOf l.
Proof.
  intros Hkeys Hport Hvlan Hc.
  unfold firstPathLookups. rewrite Hkeys. cbn [mbind option_bind].
  rewrite Hport. cbn [mbind option_bind]. rewrite Hvlan. cbn [mbind option_bind].
  cbv zeta.
  match goal with |- ∃ l', (_ ≫= ?k) = _ ∧ _ => set (K := k) end.
  assert (HK : ∀ findV vlanFound l0 c0,
    fastCache l0 packet = Some c0 -> tablesOf l0 = tablesOf l ->
    ∃ l',
      K (findV, vlanFound, l0) =
        Some (mkFirstLocals l' packet
                (mergeIfAny (mergeIfAny findV (fst (firstForward portGroup packet)) FORWARD)
                   (fst (firstBackward portGroup packet
                           (snd (firstForward portGroup packet)))) BACKWARD)
                vlanFound
                (snd (firstBackward portGroup packet (snd (firstForward portGroup packet)))))
      ∧ fastCache l' packet =
        Some (seedWith
                (seedWith c0 (subnetKey l packet FORWARD)
                   (fun maps => withPort maps endpointData packet
                                  (fst (firstForward portGroup packet)) FORWARD))
                (subnetKey l packet BACKWARD)
                (fun maps => withPort maps endpointData packet
                               (fst (firstBackward portGroup packet
                                       (snd (firstForward portGroup packet)))) BACKWARD))
      ∧ tablesOf l' = tablesOf l).
  { intros findV vlanFound l0 c0 Hc0 Ht0. subst K. cbv beta iota.
    unfold firstBackward, firstForward.
    destruct (fold_left (lookupKeyStep portGroup (Some FORWARD)) _ _)
      as [forward portFound].
    destruct (addPortFastPolicy_cache l0 endpointData packet forward FORWARD c0 Hc0)
      as (l1 & Hadd1 & Hc1 & Ht1).
    rewrite Hadd1. cbn [mbind option_bind fst snd].
    destruct (fold_left (lookupKeyStep portGroup (Some BACKWARD)) _ _)
      as [backward portFound'].
    destruct (addPortFastPolicy_cache l1 endpointData packet backward BACKWARD _ Hc1)
      as (l2 & Hadd2 & Hc2 & Ht2).
    rewrite Hadd2. cbn [mbind option_bind fst snd].
    exists l2. split; [reflexivity|]. split; [|by rewrite Ht2, Ht1].
    rewrite Hc2. rewrite (subnetKey_tables l l0) by done.
    rewrite (subnetKey_tables l l1) by (by rewrite Ht1). reflexivity. }
  unfold firstMerged, firstSeeds, firstVlan.
  destruct (LookupKey.Vlan packet >? 0).
  - destruct (fold_left (lookupKeyStep vlanGroup None) _ _) as [findV vlanFound].
    destruct (addVlanFastPolicy_cache l endpointData packet findV c Hc)
      as (l1 & Hadd & Hc1 & Ht1).
    rewrite Hadd. cbn [mbind option_bind fst snd].
    apply (HK findV vlanFound l1 _ Hc1 Ht1).
  - cbn [mbind option_bind fst snd]. by apply HK.
Qed.

End FirstPath.

(** ** The seeds are in the cache when the call returns *)

Section Seeded.

Implicit Types (maps : VlanAndPortMap) (endpointData : EndpointData)
  (packet : LookupKey.t) (c : lru.Cache VlanAndPortMap).

Lemma withPort_port_peek maps endpointData packet policy direction :
  lru.peek (portPolicyMap (withPort maps endpointData packet policy direction))
           (seedPortKey endpointData packet direction)
  = Some (portValue endpointData packet policy direction).
Proof. apply peek_Add_eq. Qed.

Lemma withPort_port_front maps endpointData packet policy direction :
  atFront (portPolicyMap (withPort maps endpointData packet policy direction))
          (seedPortKey endpointData packet direction).
Proof. apply atFront_Add. Qed.

Lemma withPort_port_keep maps endpointData packet policy direction key :
  innerOk maps -> seedPortKey endpointData packet direction ≠ key ->
  atFront (portPolicyMap maps) key ->
  lru.peek (portPolicyMap (withPort maps endpointData packet policy direction)) key
  = lru.peek (portPolicyMap maps) key.
Proof.
  intros Hok Hne Hfront.
  apply (peek_Add_ne_front (portPolicyMap maps)); [done..|].
  by destruct (innerOk_cap maps Hok) as (_ & _ & ?).
Qed.

Lemma withPort_vlan maps endpointData packet policy direction :
  vlanPolicyMap (withPort maps endpointData packet policy direction) = vlanPolicyMap maps.
Proof. done. Qed.

Lemma withPort_macsIn maps endpointData packet policy direction :
  innerOk maps -> macsOk endpointData packet ->
  macsIn (withPort maps endpointData packet policy direction) endpointData packet.
Proof.
  intros Hok Hmacs. apply (withEpcs_peek maps); [|done].
  by destruct (innerOk_cap maps Hok).
Qed.

Lemma withVlan_vlan_peek maps endpointData packet policy direction :
  lru.peek (vlanPolicyMap (withVlan maps endpointData packet policy direction))
           (seedVlanKey endpointData packet direction)
  = Some (vlanValue endpointData packet policy direction).
Proof. apply peek_Add_eq. Qed.

Lemma withVlan_vlan_front maps endpointData packet policy direction :
  atFront (vlanPolicyMap (withVlan maps endpointData packet policy direction))
          (seedVlanKey endpointData packet direction).
Proof. apply atFront_Add. Qed.

Lemma withVlan_vlan_keep maps endpointData packet policy direction key :
  innerOk maps -> seedVlanKey endpointData packet direction ≠ key ->
  atFront (vlanPolicyMap maps) key ->
  lru.peek (vlanPolicyMap (withVlan maps endpointData packet policy direction)) key
  = lru.peek (vlanPolicyMap maps) key.
Proof.
  intros Hok Hne Hfront.
  apply (peek_Add_ne_front (vlanPolicyMap maps)); [done..|].
  by destruct (innerOk_cap maps Hok) as (_ & ? & _).
Qed.

Lemma entryOr_new c key :
  entriesOk c -> innerOk (default newVlanAndPortMap (lru.peek c key)).
Proof.
  intros Hc. destruct (lru.peek c key) as [maps|] eqn:Hk; simpl; [by apply (Hc key)|done].
Qed.

(** The vlan seedings: the forward entry is there afterwards and holds
    the forward vlan value. *)
Lemma vlan_seeds c keyForward keyBackward endpointData packet policy :
  (keyForward ≠ keyBackward -> lru.MaxEntries c ≠ 1%nat) -> entriesOk c ->
  (keyForward = keyBackward ->
   seedVlanKey endpointData packet FORWARD ≠ seedVlanKey endpointData packet BACKWARD) ->
  let c' := seedWith
              (seedWith c keyForward
                 (fun maps => withVlan maps endpointData packet policy FORWARD))
              keyBackward
              (fun maps => withVlan maps endpointData packet policy BACKWARD) in
  lru.MaxEntries c' = lru.MaxEntries c ∧ entriesOk c'
  ∧ ∃ maps, lru.peek c' keyForward = Some maps
            ∧ lru.peek (vlanPolicyMap maps) (seedVlanKey endpointData packet FORWARD)
              = Some (vlanValue endpointData packet policy FORWARD).
Proof.
  intros Hcap Hok Hkeys c'. subst c'.
  set (c1 := seedWith c keyForward
               (fun maps => withVlan maps endpointData packet policy FORWARD)).
  assert (Hok1 : entriesOk c1).
  { apply seedWith_entriesOk; [done|]. intros maps. apply withVlan_innerOk. }
  assert (Hcap1 : lru.MaxEntries c1 = lru.MaxEntries c) by apply seedWith_MaxEntries.
  split; [by rewrite seedWith_MaxEntries|].
  split; [apply seedWith_entriesOk; [done|]; intros maps; apply withVlan_innerOk|].
  assert (H1 : lru.peek c1 keyForward =
               Some (withVlan (default newVlanAndPortMap (lru.peek c keyForward))
                              endpointData packet policy FORWARD))
    by apply seedWith_peek_eq.
  destruct (decide (keyForward = keyBackward)) as [Heq|Hne].
  - rewrite <- Heq. rewrite seedWith_peek_eq, H1. simpl.
    eexists. split; [done|].
    rewrite withVlan_vlan_keep.
    + apply withVlan_vlan_peek.
    + apply withVlan_innerOk. by apply entryOr_new.
    + intros Hk. by apply Hkeys.
    + apply withVlan_vlan_front.
  - rewrite seedWith_peek_ne.
    + rewrite H1. eexists. split; [done|]. apply withVlan_vlan_peek.
    + done.
    + right. split; [apply seedWith_atFront|]. rewrite Hcap1. by apply Hcap.
Qed.

(** The port seedings: both entries are there afterwards, each with the
    two MACs and its port value; the vlan table of the forward entry is
    the one it had. *)
Lemma port_seeds c keyForward keyBackward endpointData packet forward backward :
  (keyForward ≠ keyBackward -> lru.MaxEntries c ≠ 1%nat) -> entriesOk c ->
  macsOk endpointData packet ->
  (keyForward = keyBackward ->
   seedPortKey endpointData packet FORWARD ≠ seedPortKey endpointData packet BACKWARD) ->
  let c' := seedWith
              (seedWith c keyForward
                 (fun maps => withPort maps endpointData packet forward FORWARD))
              keyBackward
              (fun maps => withPort maps endpointData packet backward BACKWARD) in
  ∃ mapsForward mapsBackward,
    lru.peek c' keyForward = Some mapsForward
    ∧ lru.peek c' keyBackward = Some mapsBackward
    ∧ macsIn mapsForward endpointData packet
    ∧ macsIn mapsBackward endpointData packet
    ∧ lru.peek (portPolicyMap mapsForward) (seedPortKey endpointData packet FORWARD)
      = Some (portValue endpointData packet forward FORWARD)
    ∧ lru.peek (portPolicyMap mapsBackward) (seedPortKey endpointData packet BACKWARD)
      = Some (portValue endpointData packet backward BACKWARD)
    ∧ vlanPolicyMap mapsForward =
      vlanPolicyMap (default newVlanAndPortMap (lru.peek c keyForward)).
Proof.
  intros Hcap Hok Hmacs Hkeys c'. subst c'.
  set (c1 := seedWith c keyForward
               (fun maps => withPort maps endpointData packet forward FORWARD)).
  set (m0 := default newVlanAndPortMap (lru.peek c keyForward)).
  assert (Hm0 : innerOk m0) by (by apply entryOr_new).
  assert (Hok1 : entriesOk c1).
  { apply seedWith_entriesOk; [done|]. intros maps. apply withPort_innerOk. }
  assert (Hcap1 : lru.MaxEntries c1 = lru.MaxEntries c) by apply seedWith_MaxEntries.
  assert (H1 : lru.peek c1 keyForward =
               Some (withPort m0 endpointData packet forward FORWARD))
    by apply seedWith_peek_eq.
  destruct (decide (keyForward = keyBackward)) as [Heq|Hne].
  - rewrite <- Heq. rewrite seedWith_peek_eq, H1. simpl.
    set (m1 := withPort m0 endpointData packet forward FORWARD).
    assert (Hm1 : innerOk m1) by (by apply withPort_innerOk).
    exists (withPort m1 endpointData packet backward BACKWARD),
           (withPort m1 endpointData packet backward BACKWARD).
    split; [done|]. split; [done|].
    split; [by apply withPort_macsIn|]. split; [by apply withPort_macsIn|].
    split; [|split; [apply withPort_port_peek|done]].
    rewrite withPort_port_keep.
    + apply withPort_port_peek.
    + done.
    + intros Hk. by apply Hkeys.
    + apply withPort_port_front.
  - exists (withPort m0 endpointData packet forward FORWARD),
           (withPort (default newVlanAndPortMap (lru.peek c1 keyBackward))
                     endpointData packet backward BACKWARD).
    split.
    { rewrite seedWith_peek_ne; [done..|].
      right. split; [apply seedWith_atFront|]. rewrite Hcap1. by apply Hcap. }
    split; [apply seedWith_peek_eq|].
    split; [by apply withPort_macsIn|].
    split; [apply withPort_macsIn; [by apply entryOr_new|done]|].
    split; [apply withPort_port_peek|]. split; [apply withPort_port_peek|done].
Qed.

(** What [GetPolicyByFirstPath] leaves in the cache of the query. *)
Lemma firstSeeds_seededIn c keyForward keyBackward endpointData packet
    vlanPolicy forward backward :
  (keyForward ≠ keyBackward -> lru.MaxEntries c ≠ 1%nat) -> entriesOk c ->
  macsOk endpointData packet ->
  (keyForward = keyBackward ->
   seedPortKey endpointData packet FORWARD ≠ seedPortKey endpointData packet BACKWARD
   ∧ (LookupKey.Vlan packet > 0 ->
      seedVlanKey endpointData packet FORWARD ≠ seedVlanKey endpointData packet BACKWARD)) ->
  seededIn (firstSeeds c keyForward keyBackward endpointData packet
              vlanPolicy forward backward)
           keyForward keyBackward endpointData packet vlanPolicy forward backward.
Proof.
  intros Hcap Hok Hmacs Hkeys. unfold firstSeeds, seededIn.
  destruct (Z.gtb_spec (LookupKey.Vlan packet) 0) as [Hv|Hv].
  - destruct (vlan_seeds c keyForward keyBackward endpointData packet vlanPolicy
                Hcap Hok) as (Hcap' & Hok' & mV & HmV & Hvlan).
    { intros Heq. apply (Hkeys Heq). lia. }
    cbv zeta in Hcap', Hok', HmV.
    destruct (port_seeds _ keyForward keyBackward endpointData packet forward backward
                (fun Hne => eq_ind_r (fun n => n ≠ 1%nat) (Hcap Hne) Hcap') Hok' Hmacs
                (fun Heq => proj1 (Hkeys Heq)))
      as (mF & mB & HF & HB & HmacF & HmacB & HpF & HpB & HvF).
    exists mF, mB. repeat (split; [done|]).
    intros _. rewrite HvF, HmV. exact Hvlan.
  - destruct (port_seeds c keyForward keyBackward endpointData packet forward backward
                Hcap Hok Hmacs (fun Heq => proj1 (Hkeys Heq)))
      as (mF & mB & HF & HB & HmacF & HmacB & HpF & HpB & HvF).
    exists mF, mB. repeat (split; [done|]). intros. lia.
Qed.

(** Without the hypothesis on the fast keys the forward entries may be
    overwritten by the backward ones, but every key is still answered
    by an entry of this query. *)
Lemma vlan_seeds_held c keyForward keyBackward endpointData packet policy :
  (keyForward ≠ keyBackward -> lru.MaxEntries c ≠ 1%nat) -> entriesOk c ->
  let c' := seedWith
              (seedWith c keyForward
                 (fun maps => withVlan maps endpointData packet policy FORWARD))
              keyBackward
              (fun maps => withVlan maps endpointData packet policy BACKWARD) in
  lru.MaxEntries c' = lru.MaxEntries c ∧ entriesOk c'
  ∧ ∃ maps value, lru.peek c' keyForward = Some maps
      ∧ lru.peek (vlanPolicyMap maps) (seedVlanKey endpointData packet FORWARD)
        = Some value
      ∧ stampedBy packet value.
Proof.
  intros Hcap Hok c'.
  destruct (decide (keyForward = keyBackward
                    ∧ seedVlanKey endpointData packet FORWARD
                      = seedVlanKey endpointData packet BACKWARD)) as [[Heq Hk]|Hn].
  - subst c'. split; [by rewrite !seedWith_MaxEntries|].
    split.
    { apply seedWith_entriesOk; [|intros maps; apply withVlan_innerOk].
      apply seedWith_entriesOk; [done|]. intros maps. apply withVlan_innerOk. }
    rewrite <- Heq, seedWith_peek_eq, seedWith_peek_eq. simpl.
    eexists _, _. split; [done|]. rewrite Hk.
    split; [apply withVlan_vlan_peek|done].
  - destruct (vlan_seeds c keyForward keyBackward endpointData packet policy Hcap Hok)
      as (H1 & H2 & maps & H3 & H4).
    { intros Heq Hk. by apply Hn. }
    split; [done|]. split; [done|].
    by exists maps, (vlanValue endpointData packet policy FORWARD).
Qed.

Lemma port_seeds_held c keyForward keyBackward endpointData packet forward backward :
  (keyForward ≠ keyBackward -> lru.MaxEntries c ≠ 1%nat) -> entriesOk c ->
  macsOk endpointData packet ->
  let c' := seedWith
              (seedWith c keyForward
                 (fun maps => withPort maps endpointData packet forward FORWARD))
              keyBackward
              (fun maps => withPort maps endpointData packet backward BACKWARD) in
  ∃ mapsForward mapsBackward valueForward,
    lru.peek c' keyForward = Some mapsForward
    ∧ lru.peek c' keyBackward = Some mapsBackward
    ∧ macsIn mapsForward endpointData packet
    ∧ macsIn mapsBackward endpointData packet
    ∧ lru.peek (portPolicyMap mapsForward) (seedPortKey endpointData packet FORWARD)
      = Some valueForward
    ∧ stampedBy packet valueForward
    ∧ lru.peek (portPolicyMap mapsBackward) (seedPortKey endpointData packet BACKWARD)
      = Some (portValue endpointData packet backward BACKWARD)
    ∧ vlanPolicyMap mapsForward =
      vlanPolicyMap (default newVlanAndPortMap (lru.peek c keyForward)).
Proof.
  intros Hcap Hok Hmacs c'.
  destruct (decide (keyForward = keyBackward
                    ∧ seedPortKey endpointData packet FORWARD
                      = seedPortKey endpointData packet BACKWARD)) as [[Heq Hk]|Hn].
  - subst c'. rewrite <- Heq, seedWith_peek_eq, seedWith_peek_eq. simpl.
    set (m0 := default newVlanAndPortMap (lru.peek c keyForward)).
    assert (Hm0 : innerOk m0) by (by apply entryOr_new).
    set (m1 := withPort m0 endpointData packet forward FORWARD).
    assert (Hm1 : innerOk m1) by (by apply withPort_innerOk).
    exists (withPort m1 endpointData packet backward BACKWARD),
           (withPort m1 endpointData packet backward BACKWARD),
           (portValue endpointData packet backward BACKWARD).
    split; [done|]. split; [done|].
    split; [by apply withPort_macsIn|]. split; [by apply withPort_macsIn|].
    split; [rewrite Hk; apply withPort_port_peek|]. split; [done|].
    split; [apply withPort_port_peek|done].
  - destruct (port_seeds c keyForward keyBackward endpointData packet forward backward
                Hcap Hok Hmacs)
      as (mF & mB & HF & HB & HmacF & HmacB & HpF & HpB & HvF).
    { intros Heq Hk. by apply Hn. }
    exists mF, mB, (portValue endpointData packet forward FORWARD).
    repeat (split; [done|]). done.
Qed.

(** What [GetPolicyByFirstPath] leaves in the cache of the query when
    the cache and the MAC table can hold it: every fast key of the query
    is answered by an entry with the query's timestamp, and the backward
    port key by the backward seed. *)
Lemma firstSeeds_heldIn c keyForward keyBackward endpointData packet
    vlanPolicy forward backward :
  holdable c keyForward keyBackward endpointData packet ->
  ∃ valueVlan valueForward,
    heldIn (firstSeeds c keyForward keyBackward endpointData packet
              vlanPolicy forward backward)
           keyForward keyBackward endpointData packet valueVlan valueForward
           (portValue endpointData packet backward BACKWARD)
    ∧ stampedBy packet valueForward
    ∧ (LookupKey.Vlan packet > 0 -> stampedBy packet valueVlan).
Proof.
  intros (Hcap & Hok & Hmacs). unfold firstSeeds, heldIn.
  destruct (Z.gtb_spec (LookupKey.Vlan packet) 0) as [Hv|Hv].
  - destruct (vlan_seeds_held c keyForward keyBackward endpointData packet vlanPolicy
                Hcap Hok) as (Hcap' & Hok' & mV & vV & HmV & Hvlan & Hstamp).
    cbv zeta in Hcap', Hok', HmV.
    destruct (port_seeds_held _ keyForward keyBackward endpointData packet forward
                backward
                (fun Hne => eq_ind_r (fun n => n ≠ 1%nat) (Hcap Hne) Hcap') Hok' Hmacs)
      as (mF & mB & vF & HF & HB & HmacF & HmacB & HpF & HsF & HpB & HvF).
    exists vV, vF. split; [|done].
    exists mF, mB. repeat (split; [done|]).
    intros _. rewrite HvF, HmV. exact Hvlan.
  - destruct (port_seeds_held c keyForward keyBackward endpointData packet forward
                backward Hcap Hok Hmacs)
      as (mF & mB & vF & HF & HB & HmacF & HmacB & HpF & HsF & HpB & HvF).
    exists vF, vF. split; [|split; [done|intros; lia]].
    exists mF, mB. repeat (split; [done|]). intros. lia.
Qed.

End Seeded.

(** ** GetPolicyByFastPath on a seeded cache *)

Section FastPathReads.

Implicit Types (maps : VlanAndPortMap) (packet : LookupKey.t)
  (value : FastPathMapValue) (c : lru.Cache VlanAndPortMap).

Lemma refresh_same value packet :
  timestamp value = LookupKey.Timestamp packet -> refresh value packet = value.
Proof. intros Hts. unfold refresh. rewrite <- Hts. by destruct value. Qed.

Lemma not_stale_same value packet :
  timestamp value = LookupKey.Timestamp packet -> stale value packet = false.
Proof. intros Hts. unfold stale. by rewrite Hts, Z.ltb_irrefl. Qed.

Lemma peek_poke_same {V} (cache : lru.Cache V) (key : Z) (v : V) (k : Z) :
  lru.peek cache key = Some v ->
  lru.peek (lru.poke (lru.touch cache key) key v) k = lru.peek cache k.
Proof.
  intros Hv. rewrite peek_poke. case_decide as Hk.
  - subst k. by rewrite peek_touch, Hv.
  - apply peek_touch.
Qed.

Lemma samePeeks_refl maps : samePeeks maps maps.
Proof. done. Qed.

Lemma samePeeks_trans maps1 maps2 maps3 :
  samePeeks maps1 maps2 -> samePeeks maps2 maps3 -> samePeeks maps1 maps3.
Proof.
  intros (Ha & Hb & Hc) (Ha' & Hb' & Hc').
  split; [|split]; intros k; [by rewrite Ha', Ha|by rewrite Hb', Hb|by rewrite Hc', Hc].
Qed.

Lemma afterHit_samePeeks kind maps packet key value :
  lru.peek (subCache kind maps) key = Some value ->
  timestamp value = LookupKey.Timestamp packet ->
  samePeeks maps (afterHit kind maps packet key value).
Proof.
  intros Hv Hts. unfold afterHit. rewrite (refresh_same _ _ Hts).
  destruct kind; simpl in *; (split; [|split]); intros k; simpl;
    rewrite ?peek_touch; try done; by apply peek_poke_same.
Qed.

Lemma subLookup_hit kind maps packet direction policy0 srcEpc dstEpc value :
  lru.peek (macEpcMap maps) (LookupKey.SrcMac packet) = Some srcEpc ->
  lru.peek (macEpcMap maps) (LookupKey.DstMac packet) = Some dstEpc ->
  lru.peek (subCache kind maps) (subKey kind packet direction srcEpc dstEpc) = Some value ->
  timestamp value = LookupKey.Timestamp packet ->
  subLookup kind maps packet direction policy0 =
  (Some (if decide (direction = BACKWARD) then swapEndpoint (endpoint value)
         else endpoint value),
   afterHit kind maps packet (subKey kind packet direction srcEpc dstEpc) value,
   Merge policy0 (AclActions (policy value)) (ACLID (policy value))
         match kind with PortLookup => Some direction | VlanLookup => None end).
Proof.
  intros Hsrc Hdst Hval Hts.
  rewrite (subLookup_found kind maps packet direction policy0 srcEpc dstEpc value)
    by done.
  rewrite (not_stale_same _ _ Hts). unfold afterHit. by destruct kind.
Qed.

(** One turn of the direction loop on maps that hold what the turn
    reads. *)
Lemma fastDirection_hit packet (st : FastLoop) direction c maps endpointData
    portValue0 vlanValue0 :
  fastCache (loopLabel st) packet = Some c ->
  lru.peek c (subnetKey (loopLabel st) packet direction) = Some maps ->
  macsIn maps endpointData packet ->
  lru.peek (portPolicyMap maps) (seedPortKey endpointData packet direction)
    = Some portValue0 ->
  timestamp portValue0 = LookupKey.Timestamp packet ->
  (LookupKey.Vlan packet > 0 -> direction = FORWARD ->
   lru.peek (vlanPolicyMap maps) (seedVlanKey endpointData packet FORWARD)
     = Some vlanValue0
   ∧ timestamp vlanValue0 = LookupKey.Timestamp packet) ->
  let vlanTurn := (LookupKey.Vlan packet >? 0) && bool_decide (direction = FORWARD) in
  ∃ st' maps',
    fastDirection packet st direction = Some st'
    ∧ fastCache (loopLabel st') packet =
      Some (lru.poke (lru.touch c (subnetKey (loopLabel st) packet direction))
                     (subnetKey (loopLabel st) packet direction) maps')
    ∧ samePeeks maps maps'
    ∧ tablesOf (loopLabel st') = tablesOf (loopLabel st)
    ∧ loopPolicy st' =
      Merge (if vlanTurn
             then Merge (loopPolicy st) (AclActions (policy vlanValue0))
                        (ACLID (policy vlanValue0)) None
             else loopPolicy st)
            (AclActions (policy portValue0)) (ACLID (policy portValue0)) (Some direction)
    ∧ loopEndpoint st' =
      Some (if decide (direction = BACKWARD) then swapEndpoint (endpoint portValue0)
            else endpoint portValue0)
    ∧ portForwardFound st' =
      (if decide (direction = FORWARD) then true else portForwardFound st)
    ∧ portBackwardFound st' =
      (if decide (direction = FORWARD) then portBackwardFound st else true)
    ∧ vlanFound st' = (if vlanTurn then true else vlanFound st).
Proof.
  intros Hc Hmaps [Hsrc Hdst] Hport HportTs Hvlan vlanTurn.
  pose proof (getVlanAndPortMap_read (loopLabel st) packet direction c Hc) as Hget.
  rewrite Hmaps in Hget. destruct Hget as (l1 & Hget & Hc1 & Ht1).
  unfold fastDirection. rewrite Hget. cbn [mbind option_bind].
  change getFastVlanPolicy with (subLookup VlanLookup).
  change getFastPortPolicy with (subLookup PortLookup).
  fold vlanTurn.
  destruct vlanTurn eqn:Hturn.
  - apply andb_true_iff in Hturn as [Hv Hd].
    apply Z.gtb_gt in Hv. apply bool_decide_eq_true in Hd. subst direction.
    destruct (Hvlan Hv eq_refl) as [Hvl HvlTs].
    rewrite (subLookup_hit VlanLookup maps packet FORWARD (loopPolicy st) _ _ vlanValue0
               Hsrc Hdst Hvl HvlTs).
    set (maps1 := afterHit VlanLookup maps packet _ vlanValue0).
    assert (Hsame1 : samePeeks maps maps1) by (by apply afterHit_samePeeks).
    destruct Hsame1 as (Hm1 & Hv1 & Hp1).
    assert (Hport1 : lru.peek (subCache PortLookup maps1)
                       (subKey PortLookup packet FORWARD (epcId (SrcInfo endpointData))
                               (epcId (DstInfo endpointData))) = Some portValue0).
    { cbn [subCache]. rewrite Hp1. exact Hport. }
    rewrite (subLookup_hit PortLookup maps1 packet FORWARD _ _ _ portValue0
               (eq_trans (Hm1 _) Hsrc) (eq_trans (Hm1 _) Hdst) Hport1 HportTs).
    set (maps2 := afterHit PortLookup maps1 packet _ portValue0).
    assert (Hsame2 : samePeeks maps1 maps2) by (by apply afterHit_samePeeks).
    destruct (storeMaps_cache l1 packet FORWARD maps2 _ Hc1) as [Hc2 Ht2].
    rewrite (subnetKey_tables (loopLabel st) l1) in Hc2 by done.
    eexists _, maps2. split; [reflexivity|]. simpl.
    split; [exact Hc2|].
    split; [by apply (samePeeks_trans _ maps1)|].
    split; [by rewrite Ht2|]. done.
  - assert (Hport1 : lru.peek (subCache PortLookup maps)
                       (subKey PortLookup packet direction (epcId (SrcInfo endpointData))
                               (epcId (DstInfo endpointData))) = Some portValue0)
      by done.
    rewrite (subLookup_hit PortLookup maps packet direction _ _ _ portValue0
               Hsrc Hdst Hport1 HportTs).
    set (maps2 := afterHit PortLookup maps packet _ portValue0).
    assert (Hsame2 : samePeeks maps maps2) by (by apply afterHit_samePeeks).
    destruct (storeMaps_cache l1 packet direction maps2 _ Hc1) as [Hc2 Ht2].
    rewrite (subnetKey_tables (loopLabel st) l1) in Hc2 by done.
    eexists _, maps2. split; [reflexivity|]. simpl.
    split; [exact Hc2|]. split; [done|].
    split; [by rewrite Ht2|]. by destruct direction.
Qed.

Lemma swapEndpoint_involutive (endpointData : EndpointData) :
  swapEndpoint (swapEndpoint endpointData) = endpointData.
Proof. by destruct endpointData. Qed.

(** The fast path on a cache that answers every fast key of the query
    with an entry of the query's timestamp: both directions hit, the
    policy is merged from the three entries, and the endpoints are those
    of the backward port entry, swapped back. *)
Lemma fast_path_reads_held (l : PolicyLabel) packet endpointData c
    valueVlan valueForward valueBackward :
  FastPathDisable l = false ->
  getFastInterestKeys l packet = Some packet ->
  fastCache l packet = Some c ->
  heldIn c (subnetKey l packet FORWARD) (subnetKey l packet BACKWARD)
         endpointData packet valueVlan valueForward valueBackward ->
  stampedBy packet valueForward -> stampedBy packet valueBackward ->
  (LookupKey.Vlan packet > 0 -> stampedBy packet valueVlan) ->
  ∃ r,
    GetPolicyByFastPath l packet = Some r
    ∧ fastPacket r = packet
    ∧ fastEndpoint r = Some (swapEndpoint (endpoint valueBackward))
    ∧ fastPolicy r = PolicyAt (heldMerged packet valueVlan valueForward valueBackward)
    ∧ FastPathHit (fastLabel r) = uint64 (FastPathHit l + 1)
    ∧ FirstPathHit (fastLabel r) = FirstPathHit l.
Proof.
  intros Hdis Hkeys Hc (mF & mB & HF & HB & HmacF & HmacB & HpF & HpB & HvF)
         HsF HsB HsV.
  set (st0 := mkFastLoop l newPolicyData None false false true).
  destruct (fastDirection_hit packet st0 FORWARD c mF endpointData
              valueForward valueVlan Hc HF HmacF HpF HsF)
    as (st1 & mF' & Hstep1 & Hc1 & Hsame & Ht1 & Hpol1 & _ & Hfwd1 & Hbwd1 & Hvf1).
  { intros Hv _. split; [by apply HvF|by apply HsV]. }
  simpl in Hc1, Ht1, Hpol1, Hfwd1, Hbwd1, Hvf1.
  assert (HkB : subnetKey (loopLabel st1) packet BACKWARD = subnetKey l packet BACKWARD)
    by (by apply subnetKey_tables).
  assert (Hback : ∃ maps,
    lru.peek (lru.poke (lru.touch c (subnetKey l packet FORWARD))
                       (subnetKey l packet FORWARD) mF')
             (subnetKey (loopLabel st1) packet BACKWARD) = Some maps
    ∧ macsIn maps endpointData packet
    ∧ lru.peek (portPolicyMap maps) (seedPortKey endpointData packet BACKWARD)
      = Some valueBackward).
  { rewrite HkB, peek_poke. case_decide as Hk.
    - rewrite Hk in HF. rewrite HF in HB. injection HB as <-.
      exists mF'. rewrite peek_touch, Hk, HF. split; [done|].
      destruct Hsame as (Hm & _ & Hp). destruct HmacF as [Hs Hd].
      split; [split; by rewrite Hm|]. by rewrite Hp.
    - exists mB. by rewrite peek_touch. }
  destruct Hback as (mB1 & HB1 & HmacB1 & HpB1).
  destruct (fastDirection_hit packet st1 BACKWARD _ mB1 endpointData
              valueBackward valueBackward Hc1 HB1 HmacB1 HpB1 HsB)
    as (st2 & mB' & Hstep2 & Hc2 & _ & Ht2 & Hpol2 & Hend2 & Hfwd2 & Hbwd2 & Hvf2).
  { intros _ Hd. discriminate Hd. }
  rewrite andb_false_r in Hpol2, Hvf2.
  simpl in Hend2, Hfwd2, Hbwd2.
  unfold GetPolicyByFastPath. rewrite Hdis, Hkeys. cbn [mbind option_bind].
  rewrite foldM_cons. fold st0. rewrite Hstep1. cbn [mbind option_bind].
  rewrite foldM_cons, Hstep2. cbn [mbind option_bind]. unfold foldM. cbn [fold_left].
  cbn [mbind option_bind].
  rewrite Hfwd2, Hbwd2, Hvf2, Hfwd1, Hvf1.
  assert (Hflag : (if (LookupKey.Vlan packet >? 0) && true then true else true) = true)
    by (by destruct (_ && _)).
  rewrite Hflag. cbn [andb negb].
  eexists. split; [reflexivity|]. cbn [fastPacket fastEndpoint fastPolicy fastLabel].
  split; [done|]. split; [by rewrite Hend2|].
  split.
  - f_equal. rewrite Hpol2, Hpol1. unfold heldMerged. cbv zeta.
    by rewrite andb_true_r.
  - unfold bumpFastPath. cbn [FastPathHit FirstPathHit].
    change (FastPathHit (loopLabel st2)) with (FastPathHit (tablesOf (loopLabel st2))).
    change (FirstPathHit (loopLabel st2)) with (FirstPathHit (tablesOf (loopLabel st2))).
    by rewrite Ht2, Ht1.
Qed.


End FastPathReads.

(** ** Merging a policy that was merged before *)

Section MergeTwice.

Implicit Types (tag : AclAction -> AclAction) (actions acc : list AclAction).


















End MergeTwice.

(** ** The two tiers together *)

Section Tiers.

Implicit Types (l : PolicyLabel) (packet : LookupKey.t) (c : lru.Cache VlanAndPortMap).

Lemma setPorts_same packet :
  setPorts packet (LookupKey.SrcPort packet) (LookupKey.DstPort packet)
           (LookupKey.Proto packet) = packet.
Proof. by destruct packet. Qed.

Lemma interested_or_any (m : gmap Z bool) (x : Z) :
  (if interested m (if interested m x then x else 0)
   then (if interested m x then x else 0) else 0)
  = (if interested m x then x else 0).
Proof.
  destruct (interested m x) eqn:Hx; [by rewrite Hx|].
  by destruct (interested m 0).
Qed.

Lemma getFastInterestKeys_fixed l packet packet' :
  getFastInterestKeys l packet = Some packet' ->
  getFastInterestKeys l packet' = Some packet' ∧ flowOf packet' = flowOf packet.
Proof.
  unfold getFastInterestKeys.
  destruct (tapMap (InterestPortMaps l) (LookupKey.Tap packet)) as [ports|] eqn:Hports;
    [simpl|done].
  destruct (tapMap (InterestProtoMaps l) (LookupKey.Tap packet)) as [protos|] eqn:Hprotos;
    [simpl|done].
  intros [= <-]. split; [|by destruct packet].
  unfold ANY_PORT, ANY_PROTO. simpl. rewrite Hports, Hprotos. simpl.
  rewrite !interested_or_any. f_equal.
Qed.

Lemma getFastInterestKeys_tables l l' packet :
  tablesOf l' = tablesOf l -> getFastInterestKeys l' packet = getFastInterestKeys l packet.
Proof.
  intros Ht. unfold getFastInterestKeys.
  change (InterestPortMaps l') with (InterestPortMaps (tablesOf l')).
  change (InterestProtoMaps l') with (InterestProtoMaps (tablesOf l')).
  by rewrite Ht.
Qed.

Lemma generateInterestKeys_fixed l endpointData packet packet' :
  generateInterestKeys l endpointData packet = Some packet' ->
  getFastInterestKeys l packet' = Some packet' ∧ flowOf packet' = flowOf packet.
Proof.
  unfold generateInterestKeys.
  destruct (tapMap (InterestGroupMaps l) (LookupKey.Tap packet)) as [groups|];
    [simpl|done].
  intros Hkeys. apply getFastInterestKeys_fixed in Hkeys as [Hfix Hflow].
  split; [done|]. rewrite Hflow. by destruct packet.
Qed.

Lemma getVlanAndPortMap_no_cache l packet direction create :
  fastCache l packet = None -> getVlanAndPortMap l packet direction create = None.
Proof. intros Hc. unfold getVlanAndPortMap. by rewrite Hc. Qed.

Lemma firstPathLookups_no_cache l endpointData packet0 packet :
  generateInterestKeys l endpointData packet0 = Some packet ->
  fastCache l packet = None ->
  firstPathLookups l endpointData packet0 = None.
Proof.
  intros Hkeys Hc. unfold firstPathLookups. rewrite Hkeys. cbn [mbind option_bind].
  destruct (tapMap (GroupPortPolicyMaps l) _); [cbn [mbind option_bind]|done].
  destruct (tapMap (GroupVlanPolicyMaps l) _); [cbn [mbind option_bind]|done].
  cbv zeta. destruct (LookupKey.Vlan packet >? 0).
  - destruct (fold_left (lookupKeyStep _ None) _ _) as [findV vlanFound].
    unfold addVlanFastPolicy.
    by rewrite (getVlanAndPortMap_no_cache l packet FORWARD true Hc).
  - cbn [mbind option_bind].
    destruct (fold_left (lookupKeyStep _ (Some FORWARD)) _ _) as [forward portFound].
    unfold addPortFastPolicy.
    by rewrite (getVlanAndPortMap_no_cache l packet FORWARD true Hc).
Qed.

(** Everything a returning [GetPolicyByFirstPath] call did. *)
Lemma GetPolicyByFirstPath_inv l endpointData packet0 (r : FirstResult) :
  GetPolicyByFirstPath l endpointData packet0 = Some r ->
  ∃ packet portGroup vlanGroup c,
    generateInterestKeys l endpointData packet0 = Some packet
    ∧ tapMap (GroupPortPolicyMaps l) (LookupKey.Tap packet) = Some portGroup
    ∧ tapMap (GroupVlanPolicyMaps l) (LookupKey.Tap packet) = Some vlanGroup
    ∧ fastCache l packet = Some c
    ∧ firstPacket r = packet
    ∧ fastCache (firstLabel r) packet =
      Some (firstSeeds c (subnetKey l packet FORWARD) (subnetKey l packet BACKWARD)
              endpointData packet (fst (firstVlan vlanGroup packet))
              (fst (firstForward portGroup packet))
              (fst (firstBackward portGroup packet (snd (firstForward portGroup packet)))))
    ∧ tablesOf (firstLabel r) = bumpFirstPath (tablesOf l)
    ∧ firstPolicy r =
      (if negb (snd (firstBackward portGroup packet (snd (firstForward portGroup packet))))
          && negb (snd (firstVlan vlanGroup packet))
       then INVALID_POLICY_DATA
       else PolicyAt (firstMerged vlanGroup portGroup packet)).
Proof.
  intros Hfirst. unfold GetPolicyByFirstPath in Hfirst.
  destruct (generateInterestKeys l endpointData packet0) as [packet|] eqn:Hkeys.
  2: { unfold firstPathLookups in Hfirst. by rewrite Hkeys in Hfirst. }
  destruct (tapMap (GroupPortPolicyMaps l) (LookupKey.Tap packet)) as [portGroup|]
    eqn:Hport.
  2: { unfold firstPathLookups in Hfirst. rewrite Hkeys in Hfirst.
       cbn [mbind option_bind] in Hfirst. by rewrite Hport in Hfirst. }
  destruct (tapMap (GroupVlanPolicyMaps l) (LookupKey.Tap packet)) as [vlanGroup|]
    eqn:Hvlan.
  2: { unfold firstPathLookups in Hfirst. rewrite Hkeys in Hfirst.
       cbn [mbind option_bind] in Hfirst. rewrite Hport in Hfirst.
       cbn [mbind option_bind] in Hfirst. by rewrite Hvlan in Hfirst. }
  destruct (fastCache l packet) as [c|] eqn:Hc.
  2: { by rewrite (firstPathLookups_no_cache l endpointData packet0 packet) in Hfirst. }
  destruct (firstPathLookups_cache l endpointData packet0 packet portGroup vlanGroup c
              Hkeys Hport Hvlan Hc) as (l' & Hlook & Hc' & Ht').
  rewrite Hlook in Hfirst. cbn [mbind option_bind] in Hfirst.
  injection Hfirst as <-. cbn [firstLabel firstPacket firstPolicy localLabel localPacket
    localFind localPortFound localVlanFound].
  exists packet, portGroup, vlanGroup, c.
  repeat (split; [done|]). split; [|done].
  change (tablesOf (bumpFirstPath l')) with (bumpFirstPath (tablesOf l')).
  by rewrite Ht'.
Qed.

(** The fast path never reads the group ids of the key. *)
Lemma fastDirection_groups packet src dst (st : FastLoop) direction :
  fastDirection (setGroupIds packet src dst) st direction = fastDirection packet st direction.
Proof. by destruct packet. Qed.

Lemma getFastInterestKeys_groups l packet src dst :
  getFastInterestKeys l (setGroupIds packet src dst)
  = (fun packet' => setGroupIds packet' src dst) <$> getFastInterestKeys l packet.
Proof.
  unfold getFastInterestKeys. destruct packet. cbn [setGroupIds LookupKey.Tap].
  destruct (tapMap (InterestPortMaps l) _); [cbn [mbind option_bind]|done].
  by destruct (tapMap (InterestProtoMaps l) _).
Qed.

Lemma GetPolicyByFastPath_groups l packet src dst :
  fastAnswer (GetPolicyByFastPath l (setGroupIds packet src dst))
  = fastAnswer (GetPolicyByFastPath l packet).
Proof.
  unfold GetPolicyByFastPath. destruct (FastPathDisable l); [done|].
  rewrite getFastInterestKeys_groups.
  destruct (getFastInterestKeys l packet) as [packet'|]; [|done].
  cbn [fmap option_fmap option_map mbind option_bind].
  rewrite !foldM_cons, !fastDirection_groups.
  destruct (fastDirection packet' _ FORWARD) as [st1|]; [|done].
  cbn [mbind option_bind]. rewrite !foldM_cons, !fastDirection_groups.
  destruct (fastDirection packet' st1 BACKWARD) as [st2|]; [|done].
  cbn [mbind option_bind]. unfold foldM. cbn [fold_left mbind option_bind].
  by destruct (negb _).
Qed.

(** Nor does it matter whether the key went through the interest filter
    before the call. *)
Lemma GetPolicyByFastPath_filtered l packet packet' :
  getFastInterestKeys l packet = Some packet' ->
  getFastInterestKeys l packet' = Some packet' ->
  fastAnswer (GetPolicyByFastPath l packet) = fastAnswer (GetPolicyByFastPath l packet').
Proof.
  intros Hkeys Hfix. unfold GetPolicyByFastPath.
  destruct (FastPathDisable l); [done|]. by rewrite Hkeys, Hfix.
Qed.

(** After [GetPolicyByFirstPath] the fast path answers the key the
    caller built as it answers the key the first call left. *)
Lemma fast_path_either_key l endpointData packet0 (r : FirstResult) :
  GetPolicyByFirstPath l endpointData packet0 = Some r ->
  fastAnswer (GetPolicyByFastPath (firstLabel r) packet0)
  = fastAnswer (GetPolicyByFastPath (firstLabel r) (firstPacket r)).
Proof.
  intros Hfirst.
  destruct (GetPolicyByFirstPath_inv l endpointData packet0 r Hfirst)
    as (packet & portGroup & vlanGroup & c & Hgen & _ & _ & _ & Hpacket & _ & Ht1 & _).
  rewrite Hpacket.
  destruct (generateInterestKeys_fixed l endpointData packet0 packet Hgen) as [Hfix _].
  assert (Htab : ∀ p, getFastInterestKeys (firstLabel r) p = getFastInterestKeys l p).
  { intros p. unfold getFastInterestKeys.
    change (InterestPortMaps (firstLabel r))
      with (InterestPortMaps (tablesOf (firstLabel r))).
    change (InterestProtoMaps (firstLabel r))
      with (InterestProtoMaps (tablesOf (firstLabel r))).
    by rewrite Ht1. }
  unfold generateInterestKeys in Hgen.
  destruct (tapMap (InterestGroupMaps l) (LookupKey.Tap packet0)) as [groupMap|];
    [cbn [mbind option_bind] in Hgen|done].
  cbv zeta in Hgen.
  rewrite <- (GetPolicyByFastPath_groups (firstLabel r) packet0
                (interestGroups groupMap (GroupIds (SrcInfo endpointData))
                   (LookupKey.SrcGroupIds packet0))
                (interestGroups groupMap (GroupIds (DstInfo endpointData))
                   (LookupKey.DstGroupIds packet0))).
  apply GetPolicyByFastPath_filtered; by rewrite Htab.
Qed.


(** The same without the hypothesis on the fast keys: the fast path
    still answers, from entries of this query, with the endpoints of the
    first call. *)
Lemma first_then_fast_held l endpointData packet0 (r : FirstResult) c :
  GetPolicyByFirstPath l endpointData packet0 = Some r ->
  FastPathDisable l = false ->
  fastCache l (firstPacket r) = Some c ->
  holdable c (subnetKey l (firstPacket r) FORWARD) (subnetKey l (firstPacket r) BACKWARD)
           endpointData (firstPacket r) ->
  ∃ r2 policy2,
    GetPolicyByFastPath (firstLabel r) (firstPacket r) = Some r2
    ∧ fastPacket r2 = firstPacket r
    ∧ fastEndpoint r2 = Some endpointData
    ∧ fastPolicy r2 = PolicyAt policy2
    ∧ FastPathHit (fastLabel r2) = uint64 (FastPathHit (firstLabel r) + 1)
    ∧ FirstPathHit (fastLabel r2) = FirstPathHit (firstLabel r).
Proof.
  intros Hfirst Hdis Hc0 Hhold.
  destruct (GetPolicyByFirstPath_inv l endpointData packet0 r Hfirst)
    as (packet & portGroup & vlanGroup & c' & Hgen & Hport & Hvlan & Hc & Hpacket
        & Hc1 & Ht1 & Hpol).
  rewrite Hpacket in *. rewrite Hc in Hc0. injection Hc0 as ->.
  destruct (generateInterestKeys_fixed l endpointData packet0 packet Hgen) as [Hfix _].
  assert (Hdis1 : FastPathDisable (firstLabel r) = false).
  { change (FastPathDisable (firstLabel r)) with (FastPathDisable (tablesOf (firstLabel r))).
    by rewrite Ht1. }
  assert (Hfix1 : getFastInterestKeys (firstLabel r) packet = Some packet).
  { unfold getFastInterestKeys in *.
    change (InterestPortMaps (firstLabel r))
      with (InterestPortMaps (tablesOf (firstLabel r))).
    change (InterestProtoMaps (firstLabel r))
      with (InterestProtoMaps (tablesOf (firstLabel r))).
    by rewrite Ht1. }
  assert (Hkey1 : ∀ direction,
            subnetKey (firstLabel r) packet direction = subnetKey l packet direction).
  { intros direction. unfold subnetKey.
    change (IpNetmaskMap (firstLabel r)) with (IpNetmaskMap (tablesOf (firstLabel r))).
    by rewrite Ht1. }
  destruct (firstSeeds_heldIn c _ _ endpointData packet
              (fst (firstVlan vlanGroup packet)) (fst (firstForward portGroup packet))
              (fst (firstBackward portGroup packet (snd (firstForward portGroup packet))))
              Hhold) as (vV & vF & Hheld & HsF & HsV).
  destruct (fast_path_reads_held (firstLabel r) packet endpointData _ vV vF
              (portValue endpointData packet
                 (fst (firstBackward portGroup packet
                         (snd (firstForward portGroup packet)))) BACKWARD)
              Hdis1 Hfix1 Hc1) as (r2 & Hfast & Hp2 & He2 & Hpol2 & Hhit & Hfirst2);
    [by rewrite !Hkey1|done..|].
  eexists r2, _. split; [exact Hfast|]. split; [done|].
  split; [by rewrite He2; destruct endpointData|]. split; [exact Hpol2|done].
Qed.

Lemma lookupKeyStep_flag (group : gmap Z PolicyData) directions keys
    (st : PolicyData * bool) :
  snd (fold_left (lookupKeyStep group directions) keys st) = false ↔
  snd st = false ∧ noneOf group keys.
Proof.
  revert st. induction keys as [|k keys IH]; intros st.
  - split; [|by intros [? _]]. intros Hst. split; [done|].
    intros key Hin. by apply elem_of_nil in Hin.
  - cbn [fold_left]. rewrite IH. unfold lookupKeyStep, noneOf.
    destruct (group !! k) as [policy|] eqn:Hk; cbn [snd].
    + split; [by intros [? _]|]. intros [_ Hnone].
      specialize (Hnone k (list_elem_of_here _ _)). congruence.
    + split.
      * intros [Hst Hnone]. split; [done|]. intros key Hin.
        apply elem_of_cons in Hin as [->|Hin]; [done|by apply Hnone].
      * intros [Hst Hnone]. split; [done|]. intros key Hin.
        apply Hnone. by apply list_elem_of_further.
Qed.

Lemma first_flags (vlanGroup portGroup : gmap Z PolicyData) packet :
  negb (snd (firstBackward portGroup packet (snd (firstForward portGroup packet))))
  && negb (snd (firstVlan vlanGroup packet)) = true ↔
  noneOf portGroup
    (Codec.generateSearchPortKeys (LookupKey.SrcGroupIds packet)
       (LookupKey.DstGroupIds packet) (LookupKey.DstPort packet) (LookupKey.Proto packet))
  ∧ noneOf portGroup
      (Codec.generateSearchPortKeys (LookupKey.DstGroupIds packet)
         (LookupKey.SrcGroupIds packet) (LookupKey.SrcPort packet) (LookupKey.Proto packet))
  ∧ (LookupKey.Vlan packet > 0 ->
     noneOf vlanGroup
       (Codec.generateGroupVlanKeys (LookupKey.SrcGroupIds packet)
          (LookupKey.DstGroupIds packet) (LookupKey.Vlan packet))).
Proof.
  rewrite andb_true_iff, !negb_true_iff.
  unfold firstBackward, firstForward, firstVlan.
  rewrite (lookupKeyStep_flag portGroup (Some BACKWARD)). cbn [snd].
  rewrite (lookupKeyStep_flag portGroup (Some FORWARD)). cbn [snd].
  destruct (Z.gtb_spec (LookupKey.Vlan packet) 0) as [Hv|Hv].
  - rewrite (lookupKeyStep_flag vlanGroup None). cbn [snd].
    assert (Hv' : LookupKey.Vlan packet > 0) by lia. split.
    + intros [[[_ H1] H2] [_ H3]]. auto.
    + intros (H1 & H2 & H3). repeat split; auto.
  - cbn [snd]. split.
    + intros [[[_ H1] H2] _]. split; [done|]. split; [done|]. intros; lia.
    + intros (H1 & H2 & _). repeat split; auto.
Qed.


(** C3 (amended).  A returning [GetPolicyByFirstPath] returns
    [INVALID_POLICY_DATA] exactly when no forward search key and no
    backward search key of the query is in the port table of its tap
    type and, for a query with a vlan, none of its vlan keys is in the
    vlan table.  Match or not, the cache of the query's worker and tap
    type is, when the call returns, the cache it found with the seeds of
    the query stored: the vlan entries of both directions when the query
    has a vlan, then the forward and the backward port entry.  When that
    cache keeps two entries where the two directions need two, its
    entries were made by [getVlanAndPortMap], and the two MACs differ or
    stand for one EPC, every fast key of the query is answered there by
    an entry with the query's timestamp, and, the fast path being
    enabled, [GetPolicyByFastPath] called next on what the first call
    left hits: it returns the endpoints of the first call and a policy,
    not [INVALID_POLICY_DATA], counts a fast-path hit and leaves the
    first-path counter alone; called on the key as the caller built it,
    it does the same.  When moreover the fast keys of the two
    directions differ where they share their maps, the entries are the
    seeds themselves. *)
Theorem first_path_invalid_iff_no_match l endpointData packet0 (r : FirstResult) :
  GetPolicyByFirstPath l endpointData packet0 = Some r ->
  ∃ portGroup vlanGroup c,
    let packet := firstPacket r in
    let keyForward := subnetKey l packet FORWARD in
    let keyBackward := subnetKey l packet BACKWARD in
    let vlanPolicy := fst (firstVlan vlanGroup packet) in
    let forward := fst (firstForward portGroup packet) in
    let backward :=
      fst (firstBackward portGroup packet (snd (firstForward portGroup packet))) in
    let seeds :=
      firstSeeds c keyForward keyBackward endpointData packet vlanPolicy forward
                 backward in
    tapMap (GroupPortPolicyMaps l) (LookupKey.Tap packet) = Some portGroup
    ∧ tapMap (GroupVlanPolicyMaps l) (LookupKey.Tap packet) = Some vlanGroup
    ∧ fastCache l packet = Some c
    ∧ (firstPolicy r = INVALID_POLICY_DATA ↔
       noneOf portGroup
         (Codec.generateSearchPortKeys (LookupKey.SrcGroupIds packet)
            (LookupKey.DstGroupIds packet) (LookupKey.DstPort packet)
            (LookupKey.Proto packet))
       ∧ noneOf portGroup
           (Codec.generateSearchPortKeys (LookupKey.DstGroupIds packet)
              (LookupKey.SrcGroupIds packet) (LookupKey.SrcPort packet)
              (LookupKey.Proto packet))
       ∧ (LookupKey.Vlan packet > 0 ->
          noneOf vlanGroup
            (Codec.generateGroupVlanKeys (LookupKey.SrcGroupIds packet)
               (LookupKey.DstGroupIds packet) (LookupKey.Vlan packet))))
    ∧ fastCache (firstLabel r) packet = Some seeds
    ∧ (holdable c keyForward keyBackward endpointData packet ->
       (∃ valueVlan valueForward,
          heldIn seeds keyForward keyBackward endpointData packet valueVlan
                 valueForward (portValue endpointData packet backward BACKWARD)
          ∧ stampedBy packet valueForward
          ∧ (LookupKey.Vlan packet > 0 -> stampedBy packet valueVlan))
       ∧ (FastPathDisable l = false ->
          ∃ r2 policy2,
            GetPolicyByFastPath (firstLabel r) packet = Some r2
            ∧ fastPolicy r2 = PolicyAt policy2
            ∧ fastEndpoint r2 = Some endpointData
            ∧ FastPathHit (fastLabel r2) = uint64 (FastPathHit (firstLabel r) + 1)
            ∧ FirstPathHit (fastLabel r2) = FirstPathHit (firstLabel r)
            ∧ fastAnswer (GetPolicyByFastPath (firstLabel r) packet0)
              = fastAnswer (Some r2)))
    ∧ (seedable c keyForward keyBackward endpointData packet ->
       seededIn seeds keyForward keyBackward endpointData packet vlanPolicy forward
                backward).
Proof.
  intros Hfirst.
  destruct (GetPolicyByFirstPath_inv l endpointData packet0 r Hfirst)
    as (packet & portGroup & vlanGroup & c & Hgen & Hport & Hvlan & Hc & Hpacket
        & Hc1 & Ht1 & Hpol).
  exists portGroup, vlanGroup, c. cbv zeta. rewrite Hpacket.
  split; [done|]. split; [done|]. split; [done|]. split.
  { rewrite Hpol, <- first_flags.
    destruct (negb _ && negb _); split; done. }
  split; [done|]. split.
  - intros Hhold. split; [by apply firstSeeds_heldIn|].
    intros Hdis. rewrite <- Hpacket in Hc, Hhold.
    destruct (first_then_fast_held l endpointData packet0 r c Hfirst Hdis Hc Hhold)
      as (r2 & policy2 & Hfast & _ & Hend & Hpol2 & Hhit & Hhit1).
    exists r2, policy2. rewrite <- Hpacket. repeat (split; [done|]).
    rewrite <- Hfast. by apply (fast_path_either_key l endpointData).
  - intros (Hcap & Hok & Hmacs & Hkeys). by apply firstSeeds_seededIn.
Qed.

End Tiers.
(** ** The two tiers on sample classifiers *)



Lemma first_path_invalid_iff_no_match_witness :
  ∃ r r2 policy2,
    GetPolicyByFirstPath (NewPolicyLabel (H := sampleTaps) 1 8 false)
                         sampleEndpoints samplePacket = Some r
    ∧ firstPolicy r = INVALID_POLICY_DATA
    ∧ GetPolicyByFastPath (firstLabel r) (firstPacket r) = Some r2
    ∧ fastPolicy r2 = PolicyAt policy2
    ∧ fastEndpoint r2 = Some sampleEndpoints
    ∧ FirstPathHit (fastLabel r2) = FirstPathHit (firstLabel r).
Proof.
  destruct (GetPolicyByFirstPath (NewPolicyLabel (H := sampleTaps) 1 8 false)
              sampleEndpoints samplePacket) as [r|] eqn:Hr;
    [|vm_compute in Hr; discriminate Hr].
  destruct (first_path_invalid_iff_no_match _ _ _ r Hr)
    as (portGroup & vlanGroup & c & Hport & Hvlan & Hc & Hiff & Hseeds & Hheld & _).
  cbv zeta in Hheld, Hiff, Hc.
  assert (Hpol : firstPolicy r = INVALID_POLICY_DATA).
  { vm_compute in Hr. injection Hr as <-. reflexivity. }
  destruct Hheld as [_ Hfast].
  { vm_compute in Hr. injection Hr as <-. vm_compute in Hc. injection Hc as <-.
    split; [intros _; vm_compute; discriminate|].
    split; [intros key maps Hk; vm_compute in Hk; discriminate Hk|].
    left. vm_compute. discriminate. }
  destruct (Hfast eq_refl) as (r2 & policy2 & H1 & H2 & H3 & _ & H4 & _).
  exists r, r2, policy2. repeat (split; [done|]). done.
Defined.

(** C3 as stated fails: the query seeded by [GetPolicyByFirstPath] is
    not answered by the [GetPolicyByFastPath] call that follows.  On a
    classifier without rules the first call returns
    [INVALID_POLICY_DATA], and the second call, with the key the first
    call left or with the key as the caller built it, misses, returning
    no endpoints and [INVALID_POLICY_DATA], when the fast path is
    disabled, when the caches keep one entry and the two directions need
    two, and when the two ends have one MAC and two EPCs. *)
Lemma fast_path_misses_after_first_path :
  firstThenFast (Some (NewPolicyLabel (H := sampleTaps) 1 8 true))
                sampleEndpoints samplePacket
  = Some (INVALID_POLICY_DATA, (None, INVALID_POLICY_DATA), (None, INVALID_POLICY_DATA))
  ∧ firstThenFast (Some (NewPolicyLabel (H := sampleTaps) 1 1 false))
                  sampleEndpoints samplePacket
    = Some (INVALID_POLICY_DATA, (None, INVALID_POLICY_DATA),
            (None, INVALID_POLICY_DATA))
  ∧ firstThenFast (Some (NewPolicyLabel (H := sampleTaps) 1 8 false))
                  sampleEndpoints sameMacPacket
    = Some (INVALID_POLICY_DATA, (None, INVALID_POLICY_DATA),
            (None, INVALID_POLICY_DATA)).
Proof.
  split; [vm_compute; reflexivity|]. split; vm_compute; reflexivity.
Qed.

(** ** The entries of the fast-path caches keep their capacities *)

Section Invariant.
Context `{TapTypes}.

Implicit Types (l : PolicyLabel) (packet : LookupKey.t) (c : lru.Cache VlanAndPortMap)
  (maps : VlanAndPortMap).

Lemma entriesOk_New (n : nat) : entriesOk (lru.New n).
Proof. intros key maps Hk. discriminate Hk. Qed.

Lemma entriesOk_touch c key : entriesOk c -> entriesOk (lru.touch c key).
Proof. intros Hc key' maps. rewrite peek_touch. apply Hc. Qed.

Lemma entriesOk_Add c key maps : entriesOk c -> innerOk maps -> entriesOk (lru.Add c key maps).
Proof.
  intros Hc Hmaps key' maps'. destruct (decide (key = key')) as [<-|Hne].
  - rewrite peek_Add_eq. by intros [= <-].
  - intros Hk. apply peek_Add_ne_Some in Hk; [|done]. by apply (Hc key').
Qed.

Lemma entriesOk_poke c key maps : entriesOk c -> innerOk maps -> entriesOk (lru.poke c key maps).
Proof.
  intros Hc Hmaps key' maps'. rewrite peek_poke. case_decide.
  - destruct (lru.peek c key); [|done]. by intros [= <-].
  - apply Hc.
Qed.

Lemma fastCache_setFastCache_cases l packet c packet' c' :
  fastCache (setFastCache l packet c) packet' = Some c' ->
  c' = c ∨ fastCache l packet' = Some c'.
Proof.
  unfold fastCache, setFastCache. cbn [FastPolicyMaps setFastPolicyMaps].
  destruct (decide (LookupKey.FastIndex packet = LookupKey.FastIndex packet')) as [Hq|Hq].
  - rewrite <- Hq, list_lookup_alter_eq.
    destruct (FastPolicyMaps l !! LookupKey.FastIndex packet) as [row|]; [simpl|done].
    destruct (decide (LookupKey.Tap packet = LookupKey.Tap packet')) as [Ht|Ht].
    + rewrite <- Ht. intros Hrow. left.
      destruct (decide (LookupKey.Tap packet < length row)%nat) as [Hlt|Hge].
      * rewrite list_lookup_insert_eq in Hrow by done. simpl in Hrow. congruence.
      * rewrite lookup_ge_None_2 in Hrow; [done|]. rewrite length_insert. lia.
    + rewrite list_lookup_insert_ne by done. by right.
  - rewrite list_lookup_alter_ne by done. by right.
Qed.

Lemma cachesOk_setFastCache l packet c :
  cachesOk l -> entriesOk c -> cachesOk (setFastCache l packet c).
Proof.
  intros Hl Hc packet' c' Hc'.
  apply fastCache_setFastCache_cases in Hc' as [->|Hc']; [done|by apply (Hl packet')].
Qed.

Lemma cachesOk_same_caches l l' :
  FastPolicyMaps l' = FastPolicyMaps l -> cachesOk l -> cachesOk l'.
Proof.
  intros Hfast Hl packet c Hc. apply (Hl packet). unfold fastCache in *.
  by rewrite <- Hfast.
Qed.

Lemma getVlanAndPortMap_ok l packet direction create omaps l' :
  getVlanAndPortMap l packet direction create = Some (omaps, l') ->
  cachesOk l ->
  cachesOk l' ∧ ∀ maps, omaps = Some maps -> innerOk maps.
Proof.
  unfold getVlanAndPortMap, lru.Get. intros Hget Hl.
  destruct (fastCache l packet) as [c|] eqn:Hc; [simpl in Hget|done].
  pose proof (Hl packet c Hc) as Hok.
  destruct (lru.peek c (subnetKey l packet direction)) as [maps0|] eqn:Hk.
  - injection Hget as <- <-. split.
    + apply cachesOk_setFastCache; [done|]. by apply entriesOk_touch.
    + intros maps [= <-]. by apply (Hok _ _ Hk).
  - destruct create; injection Hget as <- <-.
    + split; [|by intros maps [= <-]].
      apply cachesOk_setFastCache; [done|]. by apply entriesOk_Add.
    + split; [done|]. by intros maps.
Qed.

Lemma storeMaps_ok l packet direction maps :
  cachesOk l -> innerOk maps -> cachesOk (storeMaps l packet direction maps).
Proof.
  intros Hl Hmaps. unfold storeMaps.
  destruct (fastCache l packet) as [c|] eqn:Hc; [|done].
  apply cachesOk_setFastCache; [done|]. apply entriesOk_poke; [|done]. by apply (Hl packet).
Qed.

Lemma addPortFastPolicy_ok l endpointData packet policy direction l' :
  addPortFastPolicy l endpointData packet policy direction = Some l' ->
  cachesOk l -> cachesOk l'.
Proof.
  unfold addPortFastPolicy. intros Hadd Hl.
  destruct (getVlanAndPortMap l packet direction true) as [[omaps l1]|] eqn:Hget;
    [cbn [mbind option_bind] in Hadd|done].
  destruct (getVlanAndPortMap_ok _ _ _ _ _ _ Hget Hl) as [Hl1 Hmaps].
  destruct omaps as [maps|]; [cbn [mbind option_bind] in Hadd|done].
  assert (Hstored : l' = storeMaps l1 packet direction
                           (withPort maps endpointData packet policy direction)).
  { destruct direction; injection Hadd as <-; reflexivity. }
  rewrite Hstored. apply storeMaps_ok; [done|]. apply withPort_innerOk. by apply Hmaps.
Qed.

Lemma addVlanFastPolicy_ok l endpointData packet policy l' :
  addVlanFastPolicy l endpointData packet policy = Some l' ->
  cachesOk l -> cachesOk l'.
Proof.
  unfold addVlanFastPolicy. intros Hadd Hl.
  destruct (getVlanAndPortMap l packet FORWARD true) as [[omaps l1]|] eqn:Hget;
    [cbn [mbind option_bind] in Hadd|done].
  destruct (getVlanAndPortMap_ok _ _ _ _ _ _ Hget Hl) as [Hl1 Hmaps].
  destruct omaps as [maps|]; [cbn [mbind option_bind] in Hadd|done].
  unfold addEpcMap in Hadd. cbv beta iota zeta in Hadd.
  set (l2 := storeMaps l1 packet FORWARD _) in Hadd.
  assert (Hl2 : cachesOk l2).
  { apply storeMaps_ok; [done|].
    apply (withVlan_innerOk maps endpointData packet policy FORWARD). by apply Hmaps. }
  destruct (getVlanAndPortMap l2 packet BACKWARD true) as [[omaps3 l3]|] eqn:Hget3;
    [cbn [mbind option_bind] in Hadd|done].
  destruct (getVlanAndPortMap_ok _ _ _ _ _ _ Hget3 Hl2) as [Hl3 Hmaps3].
  destruct omaps3 as [maps3|]; [cbn [mbind option_bind] in Hadd|done].
  injection Hadd as <-. apply storeMaps_ok; [done|].
  apply (withVlan_innerOk maps3 endpointData packet policy BACKWARD). by apply Hmaps3.
Qed.

Lemma GetPolicyByFirstPath_ok l endpointData packet (r : FirstResult) :
  GetPolicyByFirstPath l endpointData packet = Some r ->
  cachesOk l -> cachesOk (firstLabel r).
Proof.
  unfold GetPolicyByFirstPath, firstPathLookups. intros Hfirst Hl.
  destruct (generateInterestKeys l endpointData packet) as [packet1|];
    [cbn [mbind option_bind] in Hfirst|done].
  destruct (tapMap (GroupPortPolicyMaps l) _) as [portGroup|];
    [cbn [mbind option_bind] in Hfirst|done].
  destruct (tapMap (GroupVlanPolicyMaps l) _) as [vlanGroup|];
    [cbn [mbind option_bind] in Hfirst|done].
  cbv zeta in Hfirst.
  destruct (LookupKey.Vlan packet1 >? 0).
  - destruct (fold_left (lookupKeyStep vlanGroup None) _ _) as [findPolicy vlanFound].
    destruct (addVlanFastPolicy l endpointData packet1 findPolicy) as [l1|] eqn:Hv;
      [cbn [mbind option_bind] in Hfirst|done].
    pose proof (addVlanFastPolicy_ok _ _ _ _ _ Hv Hl) as Hl1.
    destruct (fold_left (lookupKeyStep portGroup (Some FORWARD)) _ _)
      as [forward portFound].
    destruct (addPortFastPolicy l1 endpointData packet1 forward FORWARD) as [l2|] eqn:Hf;
      [cbn [mbind option_bind] in Hfirst|done].
    pose proof (addPortFastPolicy_ok _ _ _ _ _ _ Hf Hl1) as Hl2.
    destruct (fold_left (lookupKeyStep portGroup (Some BACKWARD)) _ _)
      as [backward portFound'].
    destruct (addPortFastPolicy l2 endpointData packet1 backward BACKWARD) as [l3|] eqn:Hb;
      [cbn [mbind option_bind] in Hfirst|done].
    pose proof (addPortFastPolicy_ok _ _ _ _ _ _ Hb Hl2) as Hl3.
    injection Hfirst as <-. exact Hl3.
  - cbn [mbind option_bind] in Hfirst.
    destruct (fold_left (lookupKeyStep portGroup (Some FORWARD)) _ _)
      as [forward portFound].
    destruct (addPortFastPolicy l endpointData packet1 forward FORWARD) as [l2|] eqn:Hf;
      [cbn [mbind option_bind] in Hfirst|done].
    pose proof (addPortFastPolicy_ok _ _ _ _ _ _ Hf Hl) as Hl2.
    destruct (fold_left (lookupKeyStep portGroup (Some BACKWARD)) _ _)
      as [backward portFound'].
    destruct (addPortFastPolicy l2 endpointData packet1 backward BACKWARD) as [l3|] eqn:Hb;
      [cbn [mbind option_bind] in Hfirst|done].
    pose proof (addPortFastPolicy_ok _ _ _ _ _ _ Hb Hl2) as Hl3.
    injection Hfirst as <-. exact Hl3.
Qed.

Ltac inner_caches :=
  cbn [fst snd]; unfold innerOk;
  cbn [macEpcMap vlanPolicyMap portPolicyMap lru.MaxEntries lru.Remove lru.poke];
  rewrite ?MaxEntries_touch; done.

Lemma getFastPortPolicy_innerOk maps packet direction (policy0 : PolicyData) :
  innerOk maps -> innerOk (snd (fst (getFastPortPolicy maps packet direction policy0))).
Proof.
  intros (Hm & Hv & Hp). unfold getFastPortPolicy, lru.Get.
  destruct (lru.peek (macEpcMap maps) _); [|done].
  cbn [macEpcMap vlanPolicyMap portPolicyMap].
  destruct (lru.peek (lru.touch (macEpcMap maps) _) _); [|inner_caches].
  destruct (decide (direction = BACKWARD)); cbv zeta;
    cbn [macEpcMap vlanPolicyMap portPolicyMap];
    (destruct (lru.peek (portPolicyMap maps) _);
     [destruct (stale _ _)|]; inner_caches).
Qed.

Lemma getFastVlanPolicy_innerOk maps packet direction (policy0 : PolicyData) :
  innerOk maps -> innerOk (snd (fst (getFastVlanPolicy maps packet direction policy0))).
Proof.
  intros (Hm & Hv & Hp). unfold getFastVlanPolicy, lru.Get.
  destruct (lru.peek (macEpcMap maps) _); [|done].
  cbn [macEpcMap vlanPolicyMap portPolicyMap].
  destruct (lru.peek (lru.touch (macEpcMap maps) _) _); [|inner_caches].
  destruct (decide (direction = BACKWARD)); cbv zeta;
    cbn [macEpcMap vlanPolicyMap portPolicyMap];
    (destruct (lru.peek (vlanPolicyMap maps) _);
     [destruct (stale _ _)|]; inner_caches).
Qed.

Lemma fastDirection_ok packet (st st' : FastLoop) direction :
  fastDirection packet st direction = Some st' ->
  cachesOk (loopLabel st) -> cachesOk (loopLabel st').
Proof.
  unfold fastDirection. intros Hstep Hl.
  destruct (getVlanAndPortMap (loopLabel st) packet direction false)
    as [[omaps l1]|] eqn:Hget; [cbn [mbind option_bind] in Hstep|done].
  destruct (getVlanAndPortMap_ok _ _ _ _ _ _ Hget Hl) as [Hl1 Hmaps].
  destruct omaps as [maps|]; [|by injection Hstep as <-].
  specialize (Hmaps maps eq_refl).
  destruct ((LookupKey.Vlan packet >? 0) && bool_decide (direction = FORWARD)).
  - pose proof (getFastVlanPolicy_innerOk maps packet direction (loopPolicy st) Hmaps)
      as Hm1.
    destruct (getFastVlanPolicy maps packet direction (loopPolicy st)) as [[e1 m1] p1].
    cbn [fst snd] in Hm1.
    pose proof (getFastPortPolicy_innerOk m1 packet direction p1 Hm1) as Hm2.
    destruct (getFastPortPolicy m1 packet direction p1) as [[e2 m2] p2].
    injection Hstep as <-. by apply storeMaps_ok.
  - pose proof (getFastPortPolicy_innerOk maps packet direction (loopPolicy st) Hmaps)
      as Hm2.
    destruct (getFastPortPolicy maps packet direction (loopPolicy st)) as [[e2 m2] p2].
    injection Hstep as <-. by apply storeMaps_ok.
Qed.

Lemma GetPolicyByFastPath_ok l packet (r : FastResult) :
  GetPolicyByFastPath l packet = Some r -> cachesOk l -> cachesOk (fastLabel r).
Proof.
  unfold GetPolicyByFastPath. intros Hfast Hl.
  destruct (FastPathDisable l); [by injection Hfast as <-|].
  destruct (getFastInterestKeys l packet) as [packet1|];
    [cbn [mbind option_bind] in Hfast|done].
  rewrite foldM_cons in Hfast.
  destruct (fastDirection packet1 _ FORWARD) as [st1|] eqn:Hstep1;
    [cbn [mbind option_bind] in Hfast|done].
  rewrite foldM_cons in Hfast.
  destruct (fastDirection packet1 st1 BACKWARD) as [st2|] eqn:Hstep2;
    [cbn [mbind option_bind] in Hfast|done].
  unfold foldM in Hfast. cbn [fold_left mbind option_bind] in Hfast.
  pose proof (fastDirection_ok _ _ _ _ Hstep2 (fastDirection_ok _ _ _ _ Hstep1 Hl)) as Hl2.
  by destruct (negb _); injection Hfast as <-.
Qed.

Lemma NewPolicyLabel_ok (queueCount mapSize : nat) (fastPathDisable : bool) :
  cachesOk (NewPolicyLabel queueCount mapSize fastPathDisable).
Proof.
  intros packet c. unfold fastCache, NewPolicyLabel. cbn [FastPolicyMaps].
  destruct (replicate queueCount (newFastRow mapSize) !! LookupKey.FastIndex packet)
    as [row|] eqn:Hrow; [|done].
  apply lookup_replicate in Hrow as [-> _]. cbn [mbind option_bind].
  rewrite newFastRow_lookup.
  repeat case_decide; cbn [mbind option_bind]; try done.
  intros [= <-]. apply entriesOk_New.
Qed.

Lemma FlushAcls_ok l l' : FlushAcls l = Some l' -> cachesOk l -> cachesOk l'.
Proof.
  intros Hflush Hl packet c.
  assert (Hshape : Forall rowShape (FastPolicyMaps l))
    by (apply FlushAcls_is_Some; by rewrite Hflush).
  rewrite (FlushAcls_shape l Hshape) in Hflush. injection Hflush as <-.
  unfold fastCache. cbn [FastPolicyMaps setFastPolicyMaps].
  rewrite list_lookup_fmap.
  destruct (FastPolicyMaps l !! LookupKey.FastIndex packet) as [row|] eqn:Hrow; [|done].
  cbn [fmap option_fmap option_map mbind option_bind].
  rewrite flushedRow_lookup.
  destruct (row !! LookupKey.Tap packet) as [slot|] eqn:Hslot; [|done].
  cbn [fmap option_fmap option_map mbind option_bind]. case_decide.
  - intros [= <-]. apply entriesOk_New.
  - intros ->. apply (Hl packet). unfold fastCache. by rewrite Hrow; simpl; rewrite Hslot.
Qed.

(** X12.  Every entry of a fast-path cache is a [VlanAndPortMap] with
    the capacities [getVlanAndPortMap] gives it (128 MACs, 1024 vlan and
    1024 port entries): this holds of the classifier [NewPolicyLabel]
    builds and is kept by [UpdateAcls], [FlushAcls],
    [GetPolicyByFirstPath] and [GetPolicyByFastPath]. *)
Theorem caches_keep_their_capacities :
  (∀ (queueCount mapSize : nat) (fastPathDisable : bool),
     cachesOk (NewPolicyLabel queueCount mapSize fastPathDisable))
  ∧ (∀ l l' (acls : list Acl), UpdateAcls l acls = Some l' -> cachesOk l -> cachesOk l')
  ∧ (∀ l l', FlushAcls l = Some l' -> cachesOk l -> cachesOk l')
  ∧ (∀ l endpointData packet (r : FirstResult),
       GetPolicyByFirstPath l endpointData packet = Some r ->
       cachesOk l -> cachesOk (firstLabel r))
  ∧ (∀ l packet (r : FastResult),
       GetPolicyByFastPath l packet = Some r -> cachesOk l -> cachesOk (fastLabel r)).
Proof.
  split; [apply NewPolicyLabel_ok|].
  split.
  { intros l l' acls Hupd. apply cachesOk_same_caches.
    by destruct (UpdateAcls_frame l l' acls Hupd) as (_ & ? & _). }
  split; [apply FlushAcls_ok|].
  split; [apply GetPolicyByFirstPath_ok|apply GetPolicyByFastPath_ok].
Qed.

End Invariant.

(** ** What a lookup returns and what it leaves *)

Section Lookups.
Context `{TapTypes}.

Implicit Types (l : PolicyLabel) (packet : LookupKey.t) (c : lru.Cache VlanAndPortMap)
  (maps : VlanAndPortMap).







End Lookups.



Section Keys.

Implicit Types (l : PolicyLabel) (packet : LookupKey.t).

Lemma flowOf_indices packet packet' :
  flowOf packet' = flowOf packet ->
  LookupKey.Tap packet' = LookupKey.Tap packet
  ∧ LookupKey.FastIndex packet' = LookupKey.FastIndex packet.
Proof. destruct packet, packet'. unfold flowOf. simpl. by intros [= ]. Qed.

Lemma fastCache_indices l packet packet' :
  LookupKey.Tap packet' = LookupKey.Tap packet ->
  LookupKey.FastIndex packet' = LookupKey.FastIndex packet ->
  fastCache l packet' = fastCache l packet.
Proof. intros Ht Hq. unfold fastCache. by rewrite Ht, Hq. Qed.

Lemma getFastInterestKeys_is_Some l packet :
  is_Some (getFastInterestKeys l packet) ↔
  is_Some (tapMap (InterestPortMaps l) (LookupKey.Tap packet))
  ∧ is_Some (tapMap (InterestProtoMaps l) (LookupKey.Tap packet)).
Proof.
  unfold getFastInterestKeys.
  destruct (tapMap (InterestPortMaps l) _); cbn [mbind option_bind].
  - destruct (tapMap (InterestProtoMaps l) _); cbn [mbind option_bind].
    + split; eauto.
    + split; [by intros [? ?]|by intros [_ [? ?]]].
  - split; [by intros [? ?]|by intros [[? ?] _]].
Qed.

Lemma generateInterestKeys_is_Some l endpointData packet :
  is_Some (generateInterestKeys l endpointData packet) ↔
  is_Some (tapMap (InterestGroupMaps l) (LookupKey.Tap packet))
  ∧ is_Some (tapMap (InterestPortMaps l) (LookupKey.Tap packet))
  ∧ is_Some (tapMap (InterestProtoMaps l) (LookupKey.Tap packet)).
Proof.
  unfold generateInterestKeys.
  destruct (tapMap (InterestGroupMaps l) _) as [groupMap|]; cbn [mbind option_bind].
  - cbv zeta. rewrite getFastInterestKeys_is_Some.
    destruct packet. cbn [setGroupIds LookupKey.Tap]. split; [by eauto|by intros [_ ?]].
  - split; [by intros [? ?]|by intros [[? ?] _]].
Qed.

(** X15.  [GetPolicyByFirstPath] returns, rather than panics, exactly
    when the tap type of the key indexes the three interest tables and
    the two policy tables, and the worker index and the tap type of the
    key select a cache that is not nil.  A returning call increments the
    two first-path counters and changes nothing else but the caches; the
    key it leaves is the key it was given with its group ids, ports and
    protocol rewritten, and passing it through the interest filter again
    changes nothing. *)
Theorem first_path_returns_iff l endpointData packet0 :
  (is_Some (GetPolicyByFirstPath l endpointData packet0) ↔
   is_Some (tapMap (InterestGroupMaps l) (LookupKey.Tap packet0))
   ∧ is_Some (tapMap (InterestPortMaps l) (LookupKey.Tap packet0))
   ∧ is_Some (tapMap (InterestProtoMaps l) (LookupKey.Tap packet0))
   ∧ is_Some (tapMap (GroupPortPolicyMaps l) (LookupKey.Tap packet0))
   ∧ is_Some (tapMap (GroupVlanPolicyMaps l) (LookupKey.Tap packet0))
   ∧ is_Some (fastCache l packet0))
  ∧ (∀ r : FirstResult,
       GetPolicyByFirstPath l endpointData packet0 = Some r ->
       tablesOf (firstLabel r) = bumpFirstPath (tablesOf l)
       ∧ flowOf (firstPacket r) = flowOf packet0
       ∧ getFastInterestKeys l (firstPacket r) = Some (firstPacket r)).
Proof.
  split.
  - split.
    + intros [r Hr].
      destruct (GetPolicyByFirstPath_inv l endpointData packet0 r Hr)
        as (packet & portGroup & vlanGroup & c & Hgen & Hport & Hvlan & Hc & _).
      destruct (generateInterestKeys_fixed l endpointData packet0 packet Hgen)
        as [_ Hflow].
      destruct (flowOf_indices _ _ Hflow) as [Htap Hq].
      destruct (proj1 (generateInterestKeys_is_Some l endpointData packet0))
        as (Hg & Hp & Hr'); [by rewrite Hgen|].
      rewrite <- Htap, <- (fastCache_indices l packet0 packet Htap Hq).
      rewrite Hport, Hvlan, Hc. rewrite Htap. eauto 10.
    + intros (Hg & Hp & Hr' & [portGroup Hport] & [vlanGroup Hvlan] & [c Hc]).
      destruct (proj2 (generateInterestKeys_is_Some l endpointData packet0))
        as [packet Hgen]; [done|].
      destruct (generateInterestKeys_fixed l endpointData packet0 packet Hgen)
        as [_ Hflow].
      destruct (flowOf_indices _ _ Hflow) as [Htap Hq].
      rewrite <- Htap in Hport, Hvlan.
      rewrite <- (fastCache_indices l packet0 packet Htap Hq) in Hc.
      destruct (firstPathLookups_cache l endpointData packet0 packet portGroup vlanGroup c
                  Hgen Hport Hvlan Hc) as (l' & Hlook & _).
      unfold GetPolicyByFirstPath. rewrite Hlook. cbn [mbind option_bind]. eauto.
  - intros r Hr.
    destruct (GetPolicyByFirstPath_inv l endpointData packet0 r Hr)
      as (packet & portGroup & vlanGroup & c & Hgen & _ & _ & _ & Hpacket & _ & Ht & _).
    destruct (generateInterestKeys_fixed l endpointData packet0 packet Hgen)
      as [Hfix Hflow].
    by rewrite Hpacket.
Qed.

(** X16.  The interest filter [getFastInterestKeys] keeps each of the
    two ports and the protocol or resets it to 0, touches no other
    field of the key, and is idempotent. *)
Theorem getFastInterestKeys_filter l packet packet' :
  getFastInterestKeys l packet = Some packet' ->
  getFastInterestKeys l packet' = Some packet'
  ∧ packet' = setPorts packet (LookupKey.SrcPort packet') (LookupKey.DstPort packet')
                       (LookupKey.Proto packet')
  ∧ (LookupKey.SrcPort packet' = LookupKey.SrcPort packet ∨ LookupKey.SrcPort packet' = 0)
  ∧ (LookupKey.DstPort packet' = LookupKey.DstPort packet ∨ LookupKey.DstPort packet' = 0)
  ∧ (LookupKey.Proto packet' = LookupKey.Proto packet ∨ LookupKey.Proto packet' = 0).
Proof.
  intros Hkeys. split; [by apply (getFastInterestKeys_fixed l packet)|].
  unfold getFastInterestKeys in Hkeys.
  destruct (tapMap (InterestPortMaps l) _) as [ports|]; [cbn [mbind option_bind] in Hkeys|done].
  destruct (tapMap (InterestProtoMaps l) _) as [protos|];
    [cbn [mbind option_bind] in Hkeys|done].
  injection Hkeys as <-. cbv zeta. unfold ANY_PORT, ANY_PROTO.
  destruct packet. cbn [setPorts LookupKey.SrcPort LookupKey.DstPort LookupKey.Proto
    LookupKey.Timestamp LookupKey.SrcMac LookupKey.DstMac LookupKey.SrcIp LookupKey.DstIp
    LookupKey.Vlan LookupKey.Tap LookupKey.SrcGroupIds LookupKey.DstGroupIds
    LookupKey.FastIndex].
  split; [done|].
  repeat split; match goal with |- context [interested ?m ?x] =>
                  destruct (interested m x); auto end.
Qed.

Lemma interestGroups_loop (groupMap : gmap Z bool) (ids out : list Z) (any : bool) :
  fold_left
    (fun (st : list Z * bool) id =>
       if interested groupMap id
       then (fst st ++ [id], if decide (id = ANY_GROUP) then true else snd st)
       else st)
    ids (out, any)
  = (out ++ interesting groupMap ids,
     any || bool_decide (ANY_GROUP ∈ interesting groupMap ids)).
Proof.
  revert out any. induction ids as [|id ids IH]; intros out any.
  - cbn [fold_left]. unfold interesting. rewrite filter_nil, app_nil_r.
    rewrite bool_decide_eq_false_2 by apply not_elem_of_nil. by rewrite orb_false_r.
  - cbn [fold_left]. unfold interesting in *.
    destruct (interested groupMap id) eqn:Hid.
    + rewrite IH, filter_cons_True by (by rewrite Hid). cbn [fst snd].
      rewrite <- app_assoc. f_equal.
      destruct (decide (id = ANY_GROUP)) as [->|H0].
      * rewrite orb_true_l.
        rewrite (bool_decide_eq_true_2 (ANY_GROUP ∈ _)) by apply list_elem_of_here.
        by rewrite orb_true_r.
      * f_equal. apply bool_decide_ext. rewrite elem_of_cons.
        split; [by right|]. by intros [Heq|Hin]; [destruct H0|].
    + rewrite IH, filter_cons_False by (rewrite Hid; intros []). done.
Qed.

Lemma interestGroups_withWildcard (groupMap : gmap Z bool) (ids out : list Z) :
  interestGroups groupMap ids out = withWildcard groupMap ids out.
Proof.
  unfold interestGroups, withWildcard. cbv zeta. rewrite interestGroups_loop.
  cbn [fst snd orb]. case_bool_decide.
  - rewrite decide_True by done. by rewrite app_nil_r.
  - rewrite decide_False by done. by rewrite <- app_assoc.
Qed.

(** X17.  The group ids [generateInterestKeys] leaves in the key: those
    the key held, then the ids of the endpoint that the interest table
    of the tap type names, in their order, then the wildcard group 0
    unless it is one of them.  So both lists hold the wildcard, and the
    first lookup always tries the rules that name no group. *)
Theorem generateInterestKeys_groups l endpointData packet packet' :
  generateInterestKeys l endpointData packet = Some packet' ->
  ∃ groupMap,
    tapMap (InterestGroupMaps l) (LookupKey.Tap packet) = Some groupMap
    ∧ LookupKey.SrcGroupIds packet' =
      withWildcard groupMap (GroupIds (SrcInfo endpointData)) (LookupKey.SrcGroupIds packet)
    ∧ LookupKey.DstGroupIds packet' =
      withWildcard groupMap (GroupIds (DstInfo endpointData)) (LookupKey.DstGroupIds packet)
    ∧ ANY_GROUP ∈ LookupKey.SrcGroupIds packet'
    ∧ ANY_GROUP ∈ LookupKey.DstGroupIds packet'.
Proof.
  unfold generateInterestKeys. intros Hgen.
  destruct (tapMap (InterestGroupMaps l) _) as [groupMap|];
    [cbn [mbind option_bind] in Hgen|done].
  cbv zeta in Hgen. rewrite !interestGroups_withWildcard in Hgen.
  exists groupMap. split; [done|].
  destruct (getFastInterestKeys_filter l _ _ Hgen) as (_ & Hpacket & _).
  assert (Hsrc : LookupKey.SrcGroupIds packet' =
            withWildcard groupMap (GroupIds (SrcInfo endpointData))
                         (LookupKey.SrcGroupIds packet))
    by (rewrite Hpacket; by destruct packet).
  assert (Hdst : LookupKey.DstGroupIds packet' =
            withWildcard groupMap (GroupIds (DstInfo endpointData))
                         (LookupKey.DstGroupIds packet))
    by (rewrite Hpacket; by destruct packet).
  split; [done|]. split; [done|]. rewrite Hsrc, Hdst. unfold withWildcard.
  split; rewrite !elem_of_app; case_decide; auto using list_elem_of_here.
Qed.

End Keys.

Lemma getFastInterestKeys_filter_witness :
  ∃ packet',
    getFastInterestKeys (NewPolicyLabel (H := sampleTaps) 1 8 false) samplePacket
    = Some packet'
    ∧ getFastInterestKeys (NewPolicyLabel (H := sampleTaps) 1 8 false) packet'
      = Some packet'.
Proof.
  destruct (getFastInterestKeys (NewPolicyLabel (H := sampleTaps) 1 8 false) samplePacket)
    as [packet'|] eqn:Hkeys; [|vm_compute in Hkeys; discriminate Hkeys].
  exists packet'. split; [reflexivity|].
  exact (proj1 (getFastInterestKeys_filter _ _ _ Hkeys)).
Defined.

Lemma generateInterestKeys_groups_witness :
  ∃ packet',
    generateInterestKeys (NewPolicyLabel (H := sampleTaps) 1 8 false) sampleEndpoints
                         samplePacket = Some packet'
    ∧ ANY_GROUP ∈ LookupKey.SrcGroupIds packet'.
Proof.
  destruct (generateInterestKeys (NewPolicyLabel (H := sampleTaps) 1 8 false)
              sampleEndpoints samplePacket)
    as [packet'|] eqn:Hkeys; [|vm_compute in Hkeys; discriminate Hkeys].
  exists packet'. split; [reflexivity|].
  destruct (generateInterestKeys_groups _ _ _ _ Hkeys) as (groupMap & _ & _ & _ & Hsrc & _).
  exact Hsrc.
Defined.
